(** * Adaptive anti-bot challenge/verify servers: a shallow embedding

    The repository ships three variants of one Express server:
    - [Nexus]         : src/5.js, the adaptive engine (trust memory, decay,
                        shadow throttling, secret rotation);
    - [SecureAntiBot] : secureAntiBot.js, in-memory challenge map;
    - [Enterprise]    : server.js, challenge binding kept in Redis.

    Conventions of the embedding.
    - A JavaScript string is represented by its UTF-8 bytes (a Rocq [string]);
      this is what [crypto] hashes and what [Buffer.from] yields.
    - [Date.now()] is an integer number of milliseconds, a [Z].
    - The trust score is a JavaScript number; it is modelled by an exact
      rational ([Q]), i.e. rounding of binary64 arithmetic is not modelled.
    - Request-body fields that the handlers use as strings are typed as
      strings; [None] stands for a field that is absent ([undefined]).
      [Untyped] is the adaptive engine again for a body whose fields are
      JSON values of any shape; on string fields it agrees with [Nexus].
    - A handler is modelled for a request that the [express-rate-limit]
      middleware has let through. *)

From Stdlib Require Import ZArith QArith Qround Qminmax Lia Lqa String Ascii List DecimalString.
From Stdlib Require Import Floats.SpecFloat.
From stdpp Require Import base gmap strings list.
Import ListNotations.

Local Open Scope string_scope.
Local Open Scope list_scope.
Local Open Scope Z_scope.

(** ** Byte strings, hexadecimal and decimal rendering *)

Definition bytes_of_string (s : string) : list Z :=
  map (fun c => Z.of_N (N_of_ascii c)) (list_ascii_of_string s).

Definition hex_digit (n : Z) : ascii :=
  ascii_of_N (Z.to_N (if n <? 10 then 48 + n else 87 + n)).

(** Lower-case hexadecimal, two digits per byte: [digest("hex")],
    [buf.toString("hex")]. *)
Fixpoint hex_of_bytes (l : list Z) : string :=
  match l with
  | [] => EmptyString
  | b :: r =>
      String (hex_digit (Z.land (Z.shiftr b 4) 15))
        (String (hex_digit (Z.land b 15)) (hex_of_bytes r))
  end.

(** ** SHA-256 (FIPS 180-4) on 32-bit words carried by [Z] *)

Module SHA256.

Definition w32 (x : Z) : Z := Z.land x 4294967295.
Definition add32 (a b : Z) : Z := w32 (a + b).
Definition rotr (n x : Z) : Z :=
  Z.lor (Z.shiftr x n) (w32 (Z.shiftl x (32 - n))).

Definition Ch (x y z : Z) : Z := Z.lxor (Z.land x y) (Z.ldiff z x).
Definition Maj (x y z : Z) : Z :=
  Z.lxor (Z.lxor (Z.land x y) (Z.land x z)) (Z.land y z).
Definition Sig0 (x : Z) : Z := Z.lxor (Z.lxor (rotr 2 x) (rotr 13 x)) (rotr 22 x).
Definition Sig1 (x : Z) : Z := Z.lxor (Z.lxor (rotr 6 x) (rotr 11 x)) (rotr 25 x).
Definition sig0 (x : Z) : Z := Z.lxor (Z.lxor (rotr 7 x) (rotr 18 x)) (Z.shiftr x 3).
Definition sig1 (x : Z) : Z := Z.lxor (Z.lxor (rotr 17 x) (rotr 19 x)) (Z.shiftr x 10).

(** The round constants are the first 32 bits of the fractional parts of
    the cube roots of the first 64 primes, the initial hash value those of
    the square roots of the first 8 primes. *)
Fixpoint has_divisor (l : list Z) (n : Z) : bool :=
  match l with
  | [] => false
  | p :: r => (n mod p =? 0) || has_divisor r n
  end.

Fixpoint primes_upto (fuel : nat) (n : Z) (acc : list Z) : list Z :=
  match fuel with
  | O => acc
  | S f =>
      primes_upto f (n + 1) (if has_divisor acc n then acc else acc ++ [n])
  end.

Fixpoint icbrt_bits (i : nat) (n r : Z) : Z :=
  match i with
  | O => r
  | S j =>
      let c := r + 2 ^ Z.of_nat j in
      icbrt_bits j n (if c * c * c <=? n then c else r)
  end.

Definition frac_cbrt (p : Z) : Z := w32 (icbrt_bits 40 (p * 2 ^ 96) 0).
Definition frac_sqrt (p : Z) : Z := w32 (Z.sqrt (p * 2 ^ 64)).

Definition K : list Z :=
  Eval vm_compute in map frac_cbrt (primes_upto 310 2 []).
Definition H0 : list Z :=
  Eval vm_compute in map frac_sqrt (primes_upto 18 2 []).

Definition be32 (x : Z) : list Z :=
  [Z.land (Z.shiftr x 24) 255; Z.land (Z.shiftr x 16) 255; Z.land (Z.shiftr x 8) 255;
   Z.land x 255].
Definition be64 (x : Z) : list Z := be32 (Z.shiftr x 32) ++ be32 (w32 x).

Definition pad (msg : list Z) : list Z :=
  let len := Z.of_nat (length msg) in
  msg ++ [128] ++ repeat 0 (Z.to_nat ((55 - len) mod 64)) ++ be64 (8 * len).

Fixpoint words (n : nat) (l : list Z) : list Z :=
  match n, l with
  | S m, a :: b :: c :: d :: r =>
      (Z.shiftl a 24 + Z.shiftl b 16 + Z.shiftl c 8 + d) :: words m r
  | _, _ => []
  end.

(** Message schedule: [w] holds W_0 .. W_{t-1}; extend it to 64 words. *)
Fixpoint schedule (n : nat) (w : list Z) : list Z :=
  match n with
  | O => w
  | S m =>
      let t := length w in
      let at_ k := nth (t - k) w 0 in
      schedule m
        (w ++ [add32 (add32 (sig1 (at_ 2%nat)) (at_ 7%nat))
                     (add32 (sig0 (at_ 15%nat)) (at_ 16%nat))])
  end.

Record state := St { a : Z; b : Z; c : Z; d : Z; e : Z; f : Z; g : Z; h : Z }.

Definition round (s : state) (kw : Z * Z) : state :=
  let t1 := add32 (add32 (add32 (h s) (Sig1 (e s))) (Ch (e s) (f s) (g s)))
                  (add32 (fst kw) (snd kw)) in
  let t2 := add32 (Sig0 (a s)) (Maj (a s) (b s) (c s)) in
  St (add32 t1 t2) (a s) (b s) (c s) (add32 (d s) t1) (e s) (f s) (g s).

Definition compress (s : state) (block : list Z) : state :=
  let s' := fold_left round (combine K (schedule 48 (words 16 block))) s in
  St (add32 (a s) (a s')) (add32 (b s) (b s')) (add32 (c s) (c s'))
     (add32 (d s) (d s')) (add32 (e s) (e s')) (add32 (f s) (f s'))
     (add32 (g s) (g s')) (add32 (h s) (h s')).

Fixpoint blocks (n : nat) (l : list Z) : list (list Z) :=
  match n with
  | O => []
  | S m => firstn 64 l :: blocks m (skipn 64 l)
  end.

Definition init : state :=
  St (nth 0 H0 0) (nth 1 H0 0) (nth 2 H0 0) (nth 3 H0 0)
     (nth 4 H0 0) (nth 5 H0 0) (nth 6 H0 0) (nth 7 H0 0).

Definition digest (msg : list Z) : list Z :=
  let p := pad msg in
  let s := fold_left compress (blocks (length p / 64) p) init in
  be32 (a s) ++ be32 (b s) ++ be32 (c s) ++ be32 (d s) ++
  be32 (e s) ++ be32 (f s) ++ be32 (g s) ++ be32 (h s).

End SHA256.

(** HMAC (RFC 2104) with SHA-256, block size 64. *)
Definition hmac_sha256 (key msg : list Z) : list Z :=
  let k0 := if (64 <? length key)%nat then SHA256.digest key else key in
  let k := k0 ++ repeat 0 (64 - length k0)%nat in
  SHA256.digest (map (Z.lxor 92) k ++ SHA256.digest (map (Z.lxor 54) k ++ msg)).


(** ** JavaScript string helpers *)

(** [crypto.createHash("sha256").update(data).digest("hex")]. *)
Definition sha256 (data : string) : string :=
  hex_of_bytes (SHA256.digest (bytes_of_string data)).

(** [String(n)] for an integer [n]. *)
Definition string_of_Z (n : Z) : string :=
  DecimalString.NilZero.string_of_int (Z.to_int n).

(** ["0".repeat(n)] for [0 <= n]. *)
Definition zeros (n : Z) : string :=
  string_of_list_ascii (repeat "0"%char (Z.to_nat n)).

(** [s.startsWith(p)]. *)
Definition startsWith (s p : string) : bool := String.prefix p s.

Definition lower (c : ascii) : ascii :=
  let n := N_of_ascii c in
  if ((65 <=? n) && (n <=? 90))%N then ascii_of_N (n + 32) else c.

Fixpoint prefix_ci (p s : string) : bool :=
  match p, s with
  | EmptyString, _ => true
  | String a p', String b s' => Ascii.eqb (lower a) (lower b) && prefix_ci p' s'
  | String _ _, EmptyString => false
  end.

(** [/p/i.test(s)] for a literal ASCII pattern [p]: a case-insensitive
    substring search. *)
Fixpoint test_ci (p s : string) : bool :=
  prefix_ci p s ||
  match s with
  | EmptyString => false
  | String _ s' => test_ci p s'
  end.

Definition dquote : string := String (ascii_of_N 34) EmptyString.

(** [JSON.stringify] of a string: QuoteJSONString. *)
Definition json_escape_char (c : ascii) : string :=
  let n := Z.of_N (N_of_ascii c) in
  if n =? 34 then "\" +:+ dquote
  else if n =? 92 then "\\"
  else if n =? 8 then "\b"
  else if n =? 9 then "\t"
  else if n =? 10 then "\n"
  else if n =? 12 then "\f"
  else if n =? 13 then "\r"
  else if n <? 32 then "\u00" +:+ hex_of_bytes [n]
  else String c EmptyString.

Fixpoint json_escape (s : string) : string :=
  match s with
  | EmptyString => EmptyString
  | String c r => json_escape_char c +:+ json_escape r
  end.

Definition json_string (s : string) : string := dquote +:+ json_escape s +:+ dquote.

(** [crypto.timingSafeEqual(a, b)]: a [RangeError] (here [None]) when the
    byte lengths differ, otherwise whether the contents are equal. *)
Definition timingSafeEqual (a b : list Z) : option bool :=
  if (length a =? length b)%nat then Some (bool_decide (a = b)) else None.


(** [a > b] on numbers. *)
Definition Qgtb (a b : Q) : bool := negb (Qle_bool a b).

(** [`${x}`] and [s + x] for a body field that may be absent. *)
Definition to_str (o : option string) : string := default "undefined" o.

(** ** State monad of the handlers

    A handler is a function of the module-level state of its file. *)

Definition State (S A : Type) : Type := S -> A * S.
Definition ret {S A} (x : A) : State S A := fun s => (x, s).
Definition bind {S A B} (m : State S A) (k : A -> State S B) : State S B :=
  fun s => let (x, s') := m s in k x s'.
Definition gets {S A} (f : S -> A) : State S A := fun s => (f s, s).
Definition modify {S} (f : S -> S) : State S unit := fun s => (tt, f s).

Declare Scope js_scope.
Delimit Scope js_scope with js.
Notation "x <- m ;; k" := (bind m (fun x => k))
  (at level 100, m at next level, right associativity) : js_scope.
Notation "m ;; k" := (bind m (fun _ => k))
  (at level 100, right associativity) : js_scope.
Local Open Scope js_scope.

(** ** The adaptive engine (src/5.js) *)

Module Nexus.

Definition TOKEN_TTL : Z := 60 * 1000.
Definition NONCE_TTL : Z := 2 * 60 * 1000.
Definition BASE_DIFFICULTY : Z := 3.

(** The token payload built by /verify. *)
Record Payload := mkPayload {
  p_fingerprintHash : string;
  p_ip : string;
  p_exp : Z;
  p_v : Z
}.

Inductive Body :=
| Error (msg : string)
| Status (s : string)
| ChallengeBody (nonce : string) (difficulty version : Z)
| TokenBody (payload : Payload) (signature : string)
| Success.

(** A handler either answers with a status and a JSON body ([res.json]
    answers 200 unless [res.status] was called) or throws; an uncaught
    exception ends in the framework's error handler, not in the handler's own
    [res.status(...)] calls. *)
Inductive Response :=
| Reply (status : Z) (body : Body)
| Uncaught (err : string).

(** [JSON.stringify(payload)] for the token payload built by /verify. *)
Definition stringify (p : Payload) : string :=
  "{" +:+ json_string "fingerprintHash" +:+ ":" +:+ json_string (p_fingerprintHash p) +:+
  "," +:+ json_string "ip" +:+ ":" +:+ json_string (p_ip p) +:+
  "," +:+ json_string "exp" +:+ ":" +:+ string_of_Z (p_exp p) +:+
  "," +:+ json_string "v" +:+ ":" +:+ string_of_Z (p_v p) +:+ "}".


(** One entry of [trustMemory]. *)
Record TrustState := mkTrust {
  score : Q;
  lastSeen : Z;
  requestTimes : list Z
}.

(** The process-wide mutable state of the module, together with the number
    of [Date.now()] readings taken so far. *)
Record Server := mkServer {
  SECRET : list Z;
  SECRET_VERSION : Z;
  usedNonces : gmap string Z;
  trustMemory : gmap string TrustState;
  ticks : nat
}.

Definition set_usedNonces (f : gmap string Z -> gmap string Z) (s : Server) : Server :=
  mkServer (SECRET s) (SECRET_VERSION s) (f (usedNonces s)) (trustMemory s) (ticks s).
Definition set_trustMemory
    (f : gmap string TrustState -> gmap string TrustState) (s : Server) : Server :=
  mkServer (SECRET s) (SECRET_VERSION s) (usedNonces s) (f (trustMemory s)) (ticks s).

(** What a handler sees of an incoming request: [req.ip], the user-agent
    header, and the fields of the JSON body. [counter] is kept as the
    string that [fingerprintHash + nonce + counter] appends for it. *)
Record Request := mkRequest {
  ip : string;
  user_agent : option string;
  fingerprintHash : option string;
  nonce : option string;
  counter : option string;
  hash : option string;
  payload : option Payload;
  signature : option string
}.

Definition MALFORMED : Response := Reply 400 (Error "Malformed request").
Definition REPLAY : Response := Reply 403 (Error "Replay detected").
Definition INVALID_POW : Response := Reply 403 (Error "Invalid PoW hash").
Definition DIFFICULTY_FAIL : Response := Reply 403 (Error "PoW difficulty fail").
Definition HIGH_RISK : Response := Reply 403 (Error "High risk entity").
Definition SHADOW_THROTTLED : Response := Reply 200 (Status "shadow_throttled").
Definition BAD_SIGNATURE : Response := Reply 403 (Error "Invalid signature").
Definition EXPIRED : Response := Reply 403 (Error "Token expired").
Definition IDENTITY_MISMATCH : Response := Reply 403 (Error "IP mismatch").
Definition VALID : Response := Reply 200 Success.

Definition M : Type -> Type := State Server.

(** [score *= Math.max(0.5, 1 - delta / 600000); lastSeen = now]. *)
Definition decay (state : TrustState) (now : Z) : TrustState :=
  let delta := now - lastSeen state in
  mkTrust (score state * Qmax 0.5 (1 - inject_Z delta / 600000))%Q
          now (requestTimes state).

(** [BASE_DIFFICULTY + Math.min(3, Math.floor(state.score))]. *)
Definition difficulty_of (sc : Q) : Z := BASE_DIFFICULTY + Z.min 3 (Qfloor sc).

Section Handlers.

(** [clock i] is the value of the [i]-th [Date.now()] reading. *)
Variable clock : nat -> Z.

Definition Date_now : M Z :=
  fun s => (clock (ticks s),
            mkServer (SECRET s) (SECRET_VERSION s) (usedNonces s)
                     (trustMemory s) (S (ticks s))).

Definition sign (p : Payload) : M string :=
  key <- gets SECRET ;;
  ret (hex_of_bytes (hmac_sha256 key (bytes_of_string (stringify p)))).

Definition verifySignature (p : Payload) (sg : string) : M (option bool) :=
  expected <- sign p ;;
  ret (timingSafeEqual (bytes_of_string sg) (bytes_of_string expected)).

Definition cleanNonces : M unit :=
  now <- Date_now ;;
  modify (set_usedNonces (filter (fun e => ~ (now - e.2 > NONCE_TTL)))).

(** The object returned is the one stored in the map: later mutations
    of it are written back under the same key ([store], [mutate]). *)
Definition getTrustState (fp : string) : M TrustState :=
  tm <- gets trustMemory ;;
  match tm !! fp with
  | Some state => ret state
  | None =>
      now <- Date_now ;;
      let state := mkTrust 0 now [] in
      modify (set_trustMemory <[fp := state]>) ;;
      ret state
  end.

Definition store (fp : string) (state : TrustState) : M unit :=
  modify (set_trustMemory <[fp := state]>).
Definition mutate (fp : string) (f : TrustState -> TrustState) : M unit :=
  modify (set_trustMemory (alter f fp)).

Definition decayTrust (fp : string) (state : TrustState) : M TrustState :=
  now <- Date_now ;;
  let state := decay state now in
  store fp state ;;
  ret state.

Definition computeRisk (req : Request) (fp : string) : M Q :=
  state <- getTrustState fp ;;
  state <- decayTrust fp state ;;
  let sc := 0%Q in
  let ua := default EmptyString (user_agent req) in
  let sc := if test_ci "Headless" ua then (sc + 0.6)%Q else sc in
  let sc := if test_ci "curl" ua || test_ci "wget" ua ||
               test_ci "python" ua || test_ci "axios" ua
            then (sc + 0.6)%Q else sc in
  now <- Date_now ;;
  let times := List.filter (fun t => now - t <? 10000) (requestTimes state ++ [now]) in
  let sc := if (30 <? length times)%nat then (sc + 0.5)%Q else sc in
  let state := mkTrust (score state + sc)%Q (lastSeen state) times in
  store fp state ;;
  ret (score state).

(** [rnd] is the outcome of [crypto.randomBytes(16)]. *)
Definition challenge (rnd : list Z) (req : Request) : M Response :=
  cleanNonces ;;
  match fingerprintHash req with
  | None | Some EmptyString => ret (Reply 400 (Error "Missing fingerprint"))
  | Some fp =>
      state <- getTrustState fp ;;
      state <- decayTrust fp state ;;
      let difficulty := difficulty_of (score state) in
      let nonce := hex_of_bytes rnd in
      version <- gets SECRET_VERSION ;;
      ret (Reply 200 (ChallengeBody nonce difficulty version))
  end.

Definition falsy (o : option string) : bool :=
  match o with
  | None | Some EmptyString => true
  | Some _ => false
  end.

Definition verify (req : Request) : M Response :=
  cleanNonces ;;
  match fingerprintHash req, nonce req, counter req, hash req with
  | Some fp, Some n, Some c, Some h =>
      if falsy (Some fp) || falsy (Some n) || falsy (Some h) then ret MALFORMED else
      used <- gets usedNonces ;;
      if bool_decide (is_Some (used !! n)) then ret REPLAY else
      let expectedHash := sha256 (fp +:+ n +:+ c) in
      if negb (String.eqb expectedHash h) then ret INVALID_POW else
      state <- getTrustState fp ;;
      let dynamicDifficulty := difficulty_of (score state) in
      if dynamicDifficulty <? 0 then ret (Uncaught "RangeError: Invalid count value") else
      if negb (startsWith h (zeros dynamicDifficulty)) then ret DIFFICULTY_FAIL else
      risk <- computeRisk req fp ;;
      now <- Date_now ;;
      modify (set_usedNonces <[n := now]>) ;;
      if Qgtb risk 3 then ret SHADOW_THROTTLED else
      if Qgtb risk 5 then ret HIGH_RISK else
      now <- Date_now ;;
      version <- gets SECRET_VERSION ;;
      let payload := mkPayload fp (ip req) (now + TOKEN_TTL) version in
      signature <- sign payload ;;
      mutate fp (fun st => mkTrust (score st * 0.5)%Q (lastSeen st) (requestTimes st)) ;;
      ret (Reply 200 (TokenBody payload signature))
  | _, _, _, _ => ret MALFORMED
  end.

Definition protected (req : Request) : M Response :=
  match payload req, signature req with
  | Some payload, Some signature =>
      if falsy (Some signature) then ret (Reply 400 (Error "Missing token")) else
      ok <- verifySignature payload signature ;;
      match ok with
      | None => ret (Uncaught "RangeError: Input buffers must have the same byte length")
      | Some false => ret BAD_SIGNATURE
      | Some true =>
          now <- Date_now ;;
          if now >? p_exp payload then ret EXPIRED else
          if negb (String.eqb (p_ip payload) (ip req)) then ret IDENTITY_MISMATCH else
          ret VALID
      end
  | _, _ => ret (Reply 400 (Error "Missing token"))
  end.

(** The [setInterval] callback; [rnd] is [crypto.randomBytes(32)]. *)
Definition rotate (rnd : list Z) : M unit :=
  modify (fun s => mkServer rnd (SECRET_VERSION s + 1) (usedNonces s)
                            (trustMemory s) (ticks s)).

(** What happens to the process: requests on the three routes and the
    rotation timer firing. *)
Inductive Event :=
| Challenge (rnd : list Z) (req : Request)
| Verify (req : Request)
| Protected (req : Request)
| Rotate (rnd : list Z).

Definition handle (ev : Event) : M (list Response) :=
  match ev with
  | Challenge rnd req => r <- challenge rnd req ;; ret [r]
  | Verify req => r <- verify req ;; ret [r]
  | Protected req => r <- protected req ;; ret [r]
  | Rotate rnd => rotate rnd ;; ret []
  end.

Fixpoint run (evs : list Event) : M (list Response) :=
  match evs with
  | [] => ret []
  | ev :: rest => r <- handle ev ;; rs <- run rest ;; ret (r ++ rs)
  end.

End Handlers.

(** Module initialisation; [rnd] is [crypto.randomBytes(32)]. *)
Definition boot (rnd : list Z) : Server := mkServer rnd 1 ∅ ∅ 0.

(** The states the process can be in. *)
Definition reachable (clock : nat -> Z) (s : Server) : Prop :=
  exists rnd evs, (run clock evs (boot rnd)).2 = s.

End Nexus.


(** ** Parts that secureAntiBot.js and server.js define identically *)

Module IpBound.

(** The [signals] object of the request body, as far as it is read:
    [ua] as a string, [cpu] and [memory] by their truthiness. *)
Record Signals := mkSignals {
  ua : option string;
  cpu : bool;
  memory : bool
}.

(** [computeRisk(signals, req)] of both files. *)
Definition computeRisk (signals : option Signals) : Q :=
  let sc := 0%Q in
  let ua := default EmptyString (signals ≫= ua) in
  let sc := if test_ci "Headless" ua || test_ci "Phantom" ua then (sc + 0.5)%Q else sc in
  let sc := if test_ci "curl" ua || test_ci "wget" ua || test_ci "python" ua
            then (sc + 0.5)%Q else sc in
  let sc := if negb (default false (cpu <$> signals)) then (sc + 0.2)%Q else sc in
  let sc := if negb (default false (memory <$> signals)) then (sc + 0.2)%Q else sc in
  sc.

(** The token payload [{ip, timestamp}] (secureAntiBot.js) or
    [{ip, issued}] (server.js); [stamp_key] is the name of the second key. *)
Record Token := mkToken {
  t_ip : string;
  t_stamp : Z
}.

Definition stringify (stamp_key : string) (t : Token) : string :=
  "{" +:+ json_string "ip" +:+ ":" +:+ json_string (t_ip t) +:+
  "," +:+ json_string stamp_key +:+ ":" +:+ string_of_Z (t_stamp t) +:+ "}".

(** [sign] with the string [SECRET] as HMAC key. *)
Definition sign (secret stamp_key : string) (t : Token) : string :=
  hex_of_bytes (hmac_sha256 (bytes_of_string secret)
                  (bytes_of_string (stringify stamp_key t))).

Definition verifySignature (secret stamp_key : string) (t : Token) (sg : string)
  : option bool :=
  let expected := sign secret stamp_key t in
  timingSafeEqual (bytes_of_string sg) (bytes_of_string expected).

Inductive Body :=
| Error (msg : string)
| ChallengeBody (challenge : string) (difficulty : Z)
| TokenBody (token : Token) (signature : string)
| Success.

Inductive Response :=
| Reply (status : Z) (body : Body)
| Uncaught (err : string).

Definition INVALID_CHALLENGE : Response := Reply 403 (Error "Invalid challenge").
Definition EXPIRED : Response := Reply 403 (Error "Challenge expired").
Definition INVALID_POW : Response := Reply 403 (Error "Invalid PoW").
Definition REPLAY : Response := Reply 403 (Error "Replay detected").
Definition HIGH_RISK : Response := Reply 403 (Error "High risk").

(** The request as the handlers of both files read it. *)
Record Request := mkRequest {
  r_ip : string;
  r_challenge : option string;
  r_nonce : option string;
  r_hash : option string;
  r_signals : option Signals;
  r_token : option Token;
  r_signature : option string
}.

End IpBound.

(** ** secureAntiBot.js: challenges kept in a module-level [Map] *)

Module SecureAntiBot.
Import IpBound.

Definition CHALLENGE_TTL : Z := 60000.
Definition TOKEN_TTL : Z := 120000.

(** [usedNonces] is a [Set]; a request without [nonce] adds [undefined]. *)
Record Server := mkServer {
  SECRET : string;
  activeChallenges : gmap string Z;
  usedNonces : gset (option string);
  ticks : nat
}.

Definition M : Type -> Type := State Server.

Section Handlers.

Variable clock : nat -> Z.

Definition Date_now : M Z :=
  fun s => (clock (ticks s),
            mkServer (SECRET s) (activeChallenges s) (usedNonces s) (S (ticks s))).

(** GET /challenge; [rnd] is [crypto.randomBytes(16)]. *)
Definition challenge (rnd : list Z) : M Response :=
  let challenge := hex_of_bytes rnd in
  let difficulty := 4 in
  now <- Date_now ;;
  modify (fun s => mkServer (SECRET s) (<[challenge := now]> (activeChallenges s))
                            (usedNonces s) (ticks s)) ;;
  ret (Reply 200 (ChallengeBody challenge difficulty)).

Definition verify (req : Request) : M Response :=
  let ip := r_ip req in
  active <- gets activeChallenges ;;
  match r_challenge req ≫= (fun c => pair c <$> active !! c) with
  | None => ret INVALID_CHALLENGE
  | Some (challenge, issued) =>
      now <- Date_now ;;
      if now - issued >? CHALLENGE_TTL then ret EXPIRED else
      let testHash := sha256 (challenge +:+ to_str (r_nonce req)) in
      if negb (bool_decide (r_hash req = Some testHash)) ||
         negb (startsWith (default EmptyString (r_hash req)) (zeros 4))
      then ret INVALID_POW else
      used <- gets usedNonces ;;
      if bool_decide (r_nonce req ∈ used) then ret REPLAY else
      modify (fun s => mkServer (SECRET s) (delete challenge (activeChallenges s))
                                ({[ r_nonce req ]} ∪ usedNonces s) (ticks s)) ;;
      let risk := computeRisk (r_signals req) in
      if Qgtb risk 0.7 then ret HIGH_RISK else
      now <- Date_now ;;
      let tokenPayload := mkToken ip now in
      secret <- gets SECRET ;;
      let signature := sign secret "timestamp" tokenPayload in
      ret (Reply 200 (TokenBody tokenPayload signature))
  end.

Definition protected (req : Request) : M Response :=
  match r_token req, r_signature req with
  | Some token, Some signature =>
      secret <- gets SECRET ;;
      match verifySignature secret "timestamp" token signature with
      | None => ret (Uncaught "RangeError: Input buffers must have the same byte length")
      | Some false => ret (Reply 403 (Error "Invalid signature"))
      | Some true =>
          now <- Date_now ;;
          if now - t_stamp token >? TOKEN_TTL then ret (Reply 403 (Error "Token expired")) else
          if negb (String.eqb (t_ip token) (r_ip req))
          then ret (Reply 403 (Error "IP mismatch")) else
          ret (Reply 200 Success)
      end
  | _, _ => ret (Uncaught "TypeError")
  end.

End Handlers.

(** Module initialisation; [rnd] is [crypto.randomBytes(32)]. *)
Definition boot (rnd : list Z) : Server := mkServer (hex_of_bytes rnd) ∅ ∅ 0.

End SecureAntiBot.

(** ** server.js: challenge binding, replay keys and rate counters in Redis

    The Redis keyspace is split by the three key prefixes the file uses:
    [challenge:<c>] (value: the issuing IP), [nonce:<n>] (presence only) and
    [rate:<ip>] (a counter written by INCR only). Expiry ([EX], [EXPIRE]) is
    carried out by Redis between commands: an expired key is one that is no
    longer in the store when the handler runs. A handler is run without
    other requests interleaved at its [await]s. *)

Module Enterprise.
Import IpBound.

Definition CHALLENGE_TTL : Z := 60.
Definition TOKEN_TTL : Z := 120.
Definition BASE_DIFFICULTY : Z := 4.
Definition MAX_DIFFICULTY : Z := 7.

Record Redis := mkRedis {
  challenges : gmap string string;
  nonces : gset string;
  rates : gmap string Z
}.

Record Server := mkServer {
  SECRET : string;
  redis : Redis;
  ticks : nat
}.

Definition M : Type -> Type := State Server.

Definition set_redis (f : Redis -> Redis) (s : Server) : Server :=
  mkServer (SECRET s) (f (redis s)) (ticks s).

Section Handlers.

Variable clock : nat -> Z.

Definition Date_now : M Z :=
  fun s => (clock (ticks s), mkServer (SECRET s) (redis s) (S (ticks s))).

Definition dynamicDifficulty (ip : string) : M Z :=
  rd <- gets redis ;;
  let requestCount := default 0 (rates rd !! ip) in
  let scaled := BASE_DIFFICULTY + requestCount / 50 in
  ret (Z.min MAX_DIFFICULTY scaled).

(** GET /challenge; [rnd] is [crypto.randomBytes(16)]. *)
Definition challenge (rnd : list Z) (req : Request) : M Response :=
  let ip := r_ip req in
  difficulty <- dynamicDifficulty ip ;;
  let challenge := hex_of_bytes rnd in
  modify (set_redis (fun rd =>
    mkRedis (<[challenge := ip]> (challenges rd)) (nonces rd) (rates rd))) ;;
  ret (Reply 200 (ChallengeBody challenge difficulty)).

Definition verify (req : Request) : M Response :=
  let ip := r_ip req in
  rd <- gets redis ;;
  let storedIp := challenges rd !! to_str (r_challenge req) in
  if negb (bool_decide (storedIp = Some ip)) || bool_decide (storedIp = Some EmptyString)
  then ret INVALID_CHALLENGE else
  difficulty <- dynamicDifficulty ip ;;
  match r_challenge req, r_nonce req with
  | None, None => ret (Uncaught "TypeError")
  | _, _ =>
      let testHash := sha256 (to_str (r_challenge req) +:+ to_str (r_nonce req)) in
      if negb (bool_decide (r_hash req = Some testHash)) then ret INVALID_POW else
      if difficulty <? 0 then ret (Uncaught "RangeError: Invalid count value") else
      if negb (startsWith testHash (zeros difficulty)) then ret INVALID_POW else
      let replayKey := to_str (r_nonce req) in
      if bool_decide (replayKey ∈ nonces rd) then ret REPLAY else
      modify (set_redis (fun rd =>
        mkRedis (delete (to_str (r_challenge req)) (challenges rd))
                ({[ replayKey ]} ∪ nonces rd) (rates rd))) ;;
      let risk := computeRisk (r_signals req) in
      if Qgtb risk 0.7 then ret HIGH_RISK else
      now <- Date_now ;;
      let tokenPayload := mkToken ip now in
      secret <- gets SECRET ;;
      let signature := sign secret "issued" tokenPayload in
      modify (set_redis (fun rd =>
        mkRedis (challenges rd) (nonces rd)
                (<[ip := default 0 (rates rd !! ip) + 1]> (rates rd)))) ;;
      ret (Reply 200 (TokenBody tokenPayload signature))
  end.

Definition protected (req : Request) : M Response :=
  match r_token req, r_signature req with
  | Some token, Some signature =>
      secret <- gets SECRET ;;
      match verifySignature secret "issued" token signature with
      | None => ret (Uncaught "RangeError: Input buffers must have the same byte length")
      | Some false => ret (Reply 403 (Error "Invalid signature"))
      | Some true =>
          now <- Date_now ;;
          if now - t_stamp token >? TOKEN_TTL * 1000
          then ret (Reply 403 (Error "Token expired")) else
          if negb (String.eqb (t_ip token) (r_ip req))
          then ret (Reply 403 (Error "IP mismatch")) else
          ret (Reply 200 Success)
      end
  | _, _ => ret (Uncaught "TypeError")
  end.

End Handlers.

End Enterprise.

(** ** Concrete runs used below

    A client of the adaptive engine: its requests carry the fingerprint
    ["abc"], and [solution] is the body it sends once it has found [counter]. *)

Module Run.
Import Nexus.

Definition secret : list Z := repeat 7 32%nat.

Definition solution (ua nonce counter : string) : Request :=
  mkRequest "203.0.113.9" (Some ua) (Some "abc") (Some nonce) (Some counter)
            (Some (sha256 ("abc" +:+ nonce +:+ counter))) None None.

Definition browser : string := "Mozilla/5.0".
Definition script : string := "HeadlessChrome python-requests".

(** One reading per millisecond. *)
Definition steady (i : nat) : Z := 1000 + Z.of_nat i.

(** The same, with a pause of several minutes after [n] readings. *)
Definition paused (n : nat) (pause : Z) (i : nat) : Z :=
  if (i <? n)%nat then 1000 + Z.of_nat i else 1000 + pause + Z.of_nat i.

(** Thirty-four solved submissions of a scripted client within 200 ms. *)
Definition burst_counters : list (string * string) :=
  [("n01", "7099"); ("n02", "3296"); ("n03", "4710"); ("n04", "150997");
   ("n05", "178056"); ("n06", "29550"); ("n07", "78832"); ("n08", "51577");
   ("n09", "17007"); ("n10", "37032"); ("n11", "107460"); ("n12", "157054");
   ("n13", "8832"); ("n14", "33611"); ("n15", "72518"); ("n16", "43510");
   ("n17", "16745"); ("n18", "7912"); ("n19", "173730"); ("n20", "49098");
   ("n21", "13225"); ("n22", "41456"); ("n23", "848"); ("n24", "43595");
   ("n25", "102098"); ("n26", "51632"); ("n27", "19156"); ("n28", "49863");
   ("n29", "113293"); ("n30", "169702"); ("n31", "54307"); ("n32", "142455");
   ("n33", "1827475")].

Definition burst : list Event :=
  map (fun nc => Verify (solution script nc.1 nc.2)) burst_counters.

Definition burst_last : Request := solution script "n34" "32036037".

(** Three solved submissions of the scripted client, then a pause. *)
Definition warmup : list Event := firstn 3 burst.
Definition after_pause : Request := solution script "n04" "3659".

(** A browser's first solved submission, never preceded by /challenge. *)
Definition first_request : Request := solution browser "n1" "3838".

(** A request to the IP-bound servers naming a challenge nobody issued. *)
Definition stray : IpBound.Request :=
  IpBound.mkRequest "203.0.113.9" (Some "deadbeef") (Some "17") (Some "0000ab") None None None.

Definition redis_server : Enterprise.Server :=
  Enterprise.mkServer "k" (Enterprise.mkRedis {[ "deadbeef" := "198.51.100.7" ]} ∅ ∅) 0.

(** The token that [first_request] obtains from [boot secret] under the
    [steady] clock, and a /protected request presenting a payload and a
    signature from the same address. *)
Definition token : Payload := mkPayload "abc" "203.0.113.9" 61005 1.
Definition mac : string :=
  "3003403fc5195acc44dd745201239abb01336f266e0055f873ff42665ef62447".
Definition present (p : Payload) (sg : string) : Request :=
  mkRequest "203.0.113.9" None None None None None (Some p) (Some sg).

(** The secret installed by the first rotation. *)
Definition rotated : list Z := repeat 9 32%nat.

(** A solved submission to the IP-bound servers for the challenge
    [crypto.randomBytes(16)] = sixteen bytes 1. *)
Definition issued : list Z := repeat 1 16%nat.
Definition solved : IpBound.Request :=
  IpBound.mkRequest "203.0.113.9" (Some (hex_of_bytes issued)) (Some "106862")
    (Some "0000f53395e6876a16c3faf0941ac8e40b20662770d13ebdddd9c88e257a42e1")
    (Some (IpBound.mkSignals (Some browser) true true)) None None.

(** A trust state left alone since reading 1000. *)
Definition idle : TrustState := mkTrust 2 1000 [993; 1000].
Definition later : list Z := [301500; 1000000].

End Run.

(** ** Vocabulary of the statements *)

Module Spec.
Import Nexus.

(** A sequence of [decayTrust] calls on one trust state, at the given
    readings of the clock. *)
Definition decays (state : TrustState) (times : list Z) : TrustState :=
  fold_left decay times state.

(** The clock never goes backwards along [times], starting from [from]. *)
Fixpoint ascending (from : Z) (times : list Z) : Prop :=
  match times with
  | [] => True
  | t :: rest => from <= t /\ ascending t rest
  end.

(** Every stored trust score is non-negative. *)
Definition scores_nonneg (s : Server) : Prop :=
  map_Forall (fun _ st => (0 <= score st)%Q) (trustMemory s).

(** The body of a /verify request carries its four fields. *)
Definition well_formed (req : Request) : Prop :=
  falsy (fingerprintHash req) = false /\ falsy (nonce req) = false /\
  counter req <> None /\ falsy (hash req) = false.

(** The state after [cleanNonces] has run at clock reading [now]. *)
Definition cleaned (now : Z) (s : Server) : Server :=
  mkServer (SECRET s) (SECRET_VERSION s)
           (filter (fun e => ~ (now - e.2 > NONCE_TTL)) (usedNonces s))
           (trustMemory s) (S (ticks s)).

(** What [computeRisk] adds to the score for the request's user agent when
    the sliding window holds [window] entries. *)
Definition increment (req : Request) (window : nat) : Q :=
  let sc := 0%Q in
  let ua := default EmptyString (user_agent req) in
  let sc := if test_ci "Headless" ua then (sc + 0.6)%Q else sc in
  let sc := if test_ci "curl" ua || test_ci "wget" ua ||
               test_ci "python" ua || test_ci "axios" ua
            then (sc + 0.6)%Q else sc in
  if (30 <? window)%nat then (sc + 0.5)%Q else sc.

(** The sliding window after a request at [now]. *)
Definition window (state : TrustState) (now : Z) : list Z :=
  List.filter (fun t => now - t <? 10000) (requestTimes state ++ [now]).

(** The response carries a token. *)
Definition is_token (r : Response) : Prop :=
  exists p sg, r = Reply 200 (TokenBody p sg).

End Spec.

(** ** Vocabulary for runs of the adaptive engine *)

Module Trace.
Import Nexus.

(** The answers /verify gives. *)
Definition verify_answer (r : Response) : Prop :=
  r = MALFORMED \/ r = REPLAY \/ r = INVALID_POW \/ r = DIFFICULTY_FAIL \/
  r = SHADOW_THROTTLED \/ exists p sg, r = Reply 200 (TokenBody p sg).

(** The secrets installed by the rotations among [evs], oldest first. *)
Fixpoint rotations (evs : list Event) : list (list Z) :=
  match evs with
  | [] => []
  | Rotate rnd :: rest => rnd :: rotations rest
  | _ :: rest => rotations rest
  end.

(** The user agent matches none of the patterns of [computeRisk]. *)
Definition plain_agent (req : Request) : Prop :=
  let ua := default EmptyString (user_agent req) in
  test_ci "Headless" ua = false /\ test_ci "curl" ua = false /\
  test_ci "wget" ua = false /\ test_ci "python" ua = false /\
  test_ci "axios" ua = false.

End Trace.

(** ** Vocabulary for strings *)

Module Text.

(** ASCII letters folded to lower case, everything else unchanged. *)
Fixpoint lower_string (s : string) : string :=
  match s with
  | EmptyString => EmptyString
  | String c r => String (lower c) (lower_string r)
  end.

(** One of [0-9a-f]. *)
Definition is_hex_digit (c : ascii) : bool :=
  let n := N_of_ascii c in
  (((48 <=? n) && (n <=? 57)) || ((97 <=? n) && (n <=? 102)))%N.

Fixpoint all_hex (s : string) : bool :=
  match s with
  | EmptyString => true
  | String c r => is_hex_digit c && all_hex r
  end.

(** Every element is a byte. *)
Definition bytes (l : list Z) : Prop := Forall (fun b => 0 <= b < 256) l.

End Text.

(** ** Vocabulary for the IP-bound servers *)

Module Bound.
Import IpBound.

(** What [computeRisk] reads of the signals. *)
Definition agent (signals : option Signals) : string :=
  default EmptyString (signals ≫= ua).
Definition looks_headless (signals : option Signals) : bool :=
  test_ci "Headless" (agent signals) || test_ci "Phantom" (agent signals).
Definition looks_scripted (signals : option Signals) : bool :=
  test_ci "curl" (agent signals) || test_ci "wget" (agent signals) ||
  test_ci "python" (agent signals).
Definition reports_cpu (signals : option Signals) : bool := default false (cpu <$> signals).
Definition reports_memory (signals : option Signals) : bool :=
  default false (memory <$> signals).

(** The answer carries a token. *)
Definition is_token (r : Response) : Prop :=
  exists t sg, r = Reply 200 (TokenBody t sg).

(** A /protected request presenting [t] and [sg] from address [addr]. *)
Definition present (addr : string) (t : Token) (sg : string) : Request :=
  mkRequest addr None None None None (Some t) (Some sg).

End Bound.

(** ** More concrete inputs *)

Module Sample.

(** The token of [Run.first_request] presented from another address. *)
Definition elsewhere : Nexus.Request :=
  Nexus.mkRequest "198.51.100.7" None None None None None (Some Run.token) (Some Run.mac).

(** The solved submission of [Run.solved] sent from another address. *)
Definition intruder : IpBound.Request :=
  IpBound.mkRequest "198.51.100.7" (Some (hex_of_bytes Run.issued)) (Some "106862")
    (Some "0000f53395e6876a16c3faf0941ac8e40b20662770d13ebdddd9c88e257a42e1")
    (Some (IpBound.mkSignals (Some Run.browser) true true)) None None.

(** A scripted client that reports neither CPU nor memory. *)
Definition bare_script : option IpBound.Signals :=
  Some (IpBound.mkSignals (Some "python-requests/2.31") false false).

Definition redis_empty : Enterprise.Server :=
  Enterprise.mkServer "k" (Enterprise.mkRedis ∅ ∅ ∅) 0.

End Sample.

(** ** The browser-side collectors (src/3.js, src/4.js and the static shield)

    The three scripts share their scoring core word for word and differ in
    constants (patterns, thresholds, flag names); the shared part is written
    once, with those constants as parameters, and each script instantiates it.
    [performance.now()] is a rational number of milliseconds; mouse
    coordinates are integers. An exception caught by a [try] is modelled by
    an absent input. *)

Module Shield.

(** The fields of [state] (3.js names; 4.js calls [fingerprint] [renderHash]
    and [timingDrift] [timingVariance]). [flags] is a [Set]: insertion
    order, no duplicates. *)
Record State := mkState {
  score : Z;
  signals : Z;
  flags : list string;
  fingerprint : option string;
  timingDrift : option Q;
  workerIntegrity : bool;
  behavioralEntropy : Z;
  attestation : option string
}.

Definition initial : State := mkState 0 0 [] None None false 0 None.

Definition penalize (flag : string) (weight : Z) (st : State) : State :=
  if bool_decide (flag ∈ flags st) then st
  else mkState (score st + weight) (signals st) (flags st ++ [flag]) (fingerprint st)
               (timingDrift st) (workerIntegrity st) (behavioralEntropy st)
               (attestation st).

Definition reward (st : State) : State :=
  mkState (score st) (signals st + 1) (flags st) (fingerprint st)
          (timingDrift st) (workerIntegrity st) (behavioralEntropy st) (attestation st).

(** What the environment checks read: [navigator.webdriver] by
    truthiness, [navigator.userAgent], the lengths of [navigator.languages]
    and [navigator.plugins] ([None] when the object is missing), and the
    outer window size. *)
Record Navigator := mkNavigator {
  webdriver : bool;
  userAgent : string;
  languages : option nat;
  plugins : option nat;
  outerWidth : Z;
  outerHeight : Z
}.

(** [environmentChecks]; [headless] is the user-agent test of the script and
    [viewport] tells whether it has the zero-viewport check. *)
Definition environmentChecks (headless : string -> bool) (viewport : bool)
    (nav : Navigator) (st : State) : State :=
  let st := if webdriver nav then penalize "webdriver" 5 st else st in
  let st := if headless (userAgent nav) then penalize "headless_ua" 5 st else st in
  let st := if bool_decide (default 0%nat (languages nav) = 0%nat)
            then penalize "no_languages" 2 st else st in
  let st := if bool_decide (plugins nav = Some 0%nat)
            then penalize "no_plugins" 2 st else st in
  let st := if viewport && ((outerWidth nav =? 0) || (outerHeight nav =? 0))
            then penalize "zero_viewport" 3 st else st in
  reward st.

(** A recorded mouse position. *)
Record Point := mkPoint { x : Z; y : Z; t : Q }.

(** The entropy loop of the mousemove listener: the sum, over consecutive
    triples, of the absolute cross product of the two steps. *)
Fixpoint entropy (pts : list Point) : Z :=
  match pts with
  | [] => 0
  | a :: rest =>
      match rest with
      | b :: c :: _ =>
          Z.abs ((x b - x a) * (y c - y b) - (y b - y a) * (x c - x b)) + entropy rest
      | _ => 0
      end
  end.

(** The variables the mousemove listener closes over. *)
Record Tracker := mkTracker { points : list Point; last : Q }.

Definition tracker0 : Tracker := mkTracker [] 0.

(** [arr.slice(-15)]. *)
Definition slice_last15 {A} (l : list A) : list A := skipn (length l - 15) l.

(** The mousemove listener, for an event at client position [(ex, ey)] when
    [performance.now()] reads [now]; [floor] and [flag] are the entropy
    threshold and the flag name of the script. *)
Definition mousemove (floor : Z) (flag : string) (ex ey : Z) (now : Q)
    (ts : Tracker * State) : Tracker * State :=
  let (tr, st) := ts in
  let st := if negb (Qeq_bool (last tr) 0) && Qgtb 5 (now - last tr)
            then penalize "impossible_mouse_speed" 2 st else st in
  let pts := points tr ++ [mkPoint ex ey now] in
  if (40 <? length pts)%nat then
    let e := entropy pts in
    let st := mkState (score st) (signals st) (flags st) (fingerprint st)
                      (timingDrift st) (workerIntegrity st) e (attestation st) in
    let st := if e <? floor then penalize flag 3 st else reward st in
    (mkTracker (slice_last15 pts) now, st)
  else (mkTracker pts now, st).

(** The callback of the 250 ms timer; [delta] is the measured delay,
    [negative] and [limit] the flag name and the threshold of the script. *)
Definition timingCallback (negative : string) (limit : Q) (delta : Q) (st : State) : State :=
  let st := mkState (score st) (signals st) (flags st) (fingerprint st)
                    (Some delta) (workerIntegrity st) (behavioralEntropy st)
                    (attestation st) in
  let st := if Qgtb 0 delta then penalize negative 3 st else st in
  let st := if Qgtb limit delta then penalize "timer_anomaly" 1 st else st in
  reward st.

(** The render fingerprint: [canvas] is the data URL of the canvas, absent
    when drawing or hashing throws. *)
Definition renderingFingerprint (canvas : option string) (st : State) : State :=
  match canvas with
  | Some data =>
      reward (mkState (score st) (signals st) (flags st) (Some (sha256 data))
                      (timingDrift st) (workerIntegrity st) (behavioralEntropy st)
                      (attestation st))
  | None => penalize "render_error" 3 st
  end.

(** A sequence of mouse events delivered to a listener. *)
Definition moves (floor : Z) (flag : string) (evs : list Point)
    (ts : Tracker * State) : Tracker * State :=
  fold_left (fun acc e => mousemove floor flag (x e) (y e) (t e) acc) evs ts.

(** The total of [weight] over a list of flags. *)
Definition total (weight : string -> Z) (fs : list string) : Z :=
  fold_right (fun f acc => weight f + acc) 0 fs.

(** The score is the total weight of the flags raised, each once. *)
Definition sound (weight : string -> Z) (st : State) : Prop :=
  NoDup (flags st) /\ score st = total weight (flags st).

(** The points lie on one line [a x + b y = c]. *)
Definition on_line (a b c : Z) (pts : list Point) : Prop :=
  Forall (fun p => a * x p + b * y p = c) pts.

End Shield.

(** src/3.js *)
Module NexusShield.
Import Shield.

Definition headless (ua : string) : bool := test_ci "Headless" ua || test_ci "Phantom" ua.
Definition environmentChecks := Shield.environmentChecks headless true.
Definition mousemove := Shield.mousemove 50 "low_behavioral_entropy".
Definition timingIntegrity := Shield.timingCallback "negative_delta" 10.

(** [requestAttestation]: [credential] is absent when
    [navigator.credentials.get] rejects. *)
Definition requestAttestation (credential : option string) (st : State) : State :=
  match credential with
  | Some c =>
      reward (mkState (score st) (signals st) (flags st) (fingerprint st)
                      (timingDrift st) (workerIntegrity st) (behavioralEntropy st) (Some c))
  | None => penalize "attestation_failed" 5 st
  end.

(** What runs on the page: the collectors started by [init], the callbacks
    they register, and [requestAttestation]. The worker check contributes its
    reply handler, its 800 ms timer (over the local [responded]) and its
    [catch] branch. *)
Inductive Event :=
| Environment (nav : Navigator)
| MouseMove (ex ey : Z) (now : Q)
| Timer (delta : Q)
| Render (canvas : option string)
| WorkerReply
| WorkerTimeout
| WorkerError
| Attestation (credential : option string).

Record Page := mkPage { tracker : Tracker; responded : bool; state : State }.

Definition page0 : Page := mkPage tracker0 false initial.

Definition step (pg : Page) (ev : Event) : Page :=
  match ev with
  | Environment nav => mkPage (tracker pg) (responded pg) (environmentChecks nav (state pg))
  | MouseMove ex ey now =>
      let (tr, st) := mousemove ex ey now (tracker pg, state pg) in
      mkPage tr (responded pg) st
  | Timer delta => mkPage (tracker pg) (responded pg) (timingIntegrity delta (state pg))
  | Render canvas => mkPage (tracker pg) (responded pg) (renderingFingerprint canvas (state pg))
  | WorkerReply =>
      let st := state pg in
      mkPage (tracker pg) true
        (reward (mkState (score st) (signals st) (flags st) (fingerprint st)
                         (timingDrift st) true (behavioralEntropy st) (attestation st)))
  | WorkerTimeout =>
      mkPage (tracker pg) (responded pg)
        (if negb (responded pg) then penalize "worker_failed" 3 (state pg) else state pg)
  | WorkerError => mkPage (tracker pg) (responded pg) (penalize "worker_error" 3 (state pg))
  | Attestation credential =>
      mkPage (tracker pg) (responded pg) (requestAttestation credential (state pg))
  end.

(** The weight with which each flag of the script is penalised. *)
Definition weight (flag : string) : Z :=
  if String.eqb flag "webdriver" then 5
  else if String.eqb flag "headless_ua" then 5
  else if String.eqb flag "no_languages" then 2
  else if String.eqb flag "no_plugins" then 2
  else if String.eqb flag "zero_viewport" then 3
  else if String.eqb flag "impossible_mouse_speed" then 2
  else if String.eqb flag "low_behavioral_entropy" then 3
  else if String.eqb flag "negative_delta" then 3
  else if String.eqb flag "timer_anomaly" then 1
  else if String.eqb flag "render_error" then 3
  else if String.eqb flag "worker_failed" then 3
  else if String.eqb flag "worker_error" then 3
  else if String.eqb flag "attestation_failed" then 5
  else 0.

Definition all_flags : list string :=
  ["webdriver"; "headless_ua"; "no_languages"; "no_plugins"; "zero_viewport";
   "impossible_mouse_speed"; "low_behavioral_entropy"; "negative_delta"; "timer_anomaly";
   "render_error"; "worker_failed"; "worker_error"; "attestation_failed"].

(** What the collectors keep true of the state: the score is the total
    weight of the flags raised, each once, and every flag is a known one. *)
Definition kept (st : State) : Prop :=
  sound weight st /\ (forall g, g ∈ flags st -> g ∈ all_flags).

End NexusShield.

(** src/4.js *)
Module ASISentinel.
Definition headless (ua : string) : bool :=
  test_ci "Headless" ua || test_ci "Phantom" ua || test_ci "Slimer" ua.
Definition environmentChecks := Shield.environmentChecks headless true.
Definition mousemove := Shield.mousemove 40 "low_entropy_path".
End ASISentinel.

(** The static shield: its environment checks and the published result. *)
Module DfiShield.
(** [risk: Shield.score - Shield.signals]. *)
Definition risk (st : Shield.State) : Z := Shield.score st - Shield.signals st.
End DfiShield.

Module Browser.
Import Shield.

(** A browser that gives the environment checks nothing to flag. *)
Definition desktop : Navigator :=
  mkNavigator false "Mozilla/5.0 (X11; Linux x86_64)" (Some 2%nat) (Some 3%nat) 1280 800.

(** Forty-one mouse positions along the diagonal, 16 ms apart. *)
Definition diagonal : list Point :=
  map (fun i => mkPoint (Z.of_nat i) (Z.of_nat i) (inject_Z (16 * Z.of_nat i + 100)))
      (seq 0 41).

End Browser.

(** ** Binary64 numbers and their decimal rendering *)

Module Number.

(** A binary64 number; finite ones are [m * 2^e] in canonical form. *)
Definition t : Type := spec_float.

Definition add : t -> t -> t := SFadd 53 1024.
Definition zero : t := S754_zero false.
Definition one : t := S754_finite false 4503599627370496 (-52).
Definition of_bool (b : bool) : t := if b then one else zero.

Definition is_zero (x : t) : bool :=
  match x with S754_zero _ => true | _ => false end.
Definition is_nan (x : t) : bool :=
  match x with S754_nan => true | _ => false end.
Definition is_finite (x : t) : bool :=
  match x with S754_zero _ | S754_finite _ _ _ => true | _ => false end.

(** The rounding interval of [m * 2^e]: the reals that round to it, as
    numerators over the common denominator [den]. The interval is closed
    when [m] is even (ties go to the even mantissa), and its lower half is
    narrower when [m] is a power of two. *)
Record Interval := mkInterval {
  lo : Z; mid : Z; hi : Z; den : Z; closed : bool
}.

Definition interval (m : positive) (e : Z) : Interval :=
  let narrow := (Zpos m =? 2 ^ 52) && (-1074 <? e) in
  let c := e - 2 in
  let scale := if 0 <=? c then 2 ^ c else 1 in
  mkInterval ((4 * Zpos m - (if narrow then 1 else 2)) * scale)
             (4 * Zpos m * scale)
             ((4 * Zpos m + 2) * scale)
             (if 0 <=? c then 1 else 2 ^ (- c))
             (Z.even (Zpos m)).

(** [s * 10^p] compared with [num / den]. *)
Definition compare_scaled (s p num den : Z) : comparison :=
  if 0 <=? p then (s * 10 ^ p * den ?= num) else (s * den ?= num * 10 ^ (- p)).

(** The first [k], counting up, with [num / den < 10^k]. *)
Fixpoint magnitude (fuel : nat) (k num den : Z) : Z :=
  match fuel with
  | O => k
  | S fuel =>
      match compare_scaled 1 k num den with
      | Gt => k
      | _ => magnitude fuel (k + 1) num den
      end
  end.

(** A lower bound of that [k] from the binary lengths of [num] and [den]
    ([1233 / 4096] approximates the decimal logarithm of 2). *)
Definition below (num den : Z) : Z :=
  (Z.log2 num - Z.log2 den - 1) * 1233 / 4096 - 1.

Definition inside (i : Interval) (s p : Z) : bool :=
  match compare_scaled s p (lo i) (den i), compare_scaled s p (hi i) (den i) with
  | Gt, Lt => true
  | Eq, Lt | Gt, Eq | Eq, Eq => closed i
  | _, _ => false
  end.

(** The shortest decimal [s * 10^p] that rounds to the number, the
    closest one when several of that length do: [k] digits are tried at
    position [n - k], for [k] = 1, 2, ... *)
Fixpoint shortest (fuel : nat) (k n : Z) (i : Interval) : Z * Z :=
  let p := n - k in
  let s := if 0 <=? p then mid i / (den i * 10 ^ p) else mid i * 10 ^ (- p) / den i in
  match fuel with
  | O => (s, p)
  | S fuel =>
      match inside i s p, inside i (s + 1) p with
      | true, true =>
          match compare_scaled (2 * s + 1) p (2 * mid i) (den i) with
          | Gt => (s, p)
          | Lt => (s + 1, p)
          | Eq => (if Z.even s then s else s + 1, p)
          end
      | true, false => (s, p)
      | false, true => (s + 1, p)
      | false, false => shortest fuel (k + 1) n i
      end
  end.

Fixpoint strip_zeros (fuel : nat) (s : Z) : Z :=
  match fuel with
  | O => s
  | S fuel => if (s mod 10 =? 0) && negb (s =? 0) then strip_zeros fuel (s / 10) else s
  end.

(** Number::toString for a positive finite number: digits [d] of length
    [k], the decimal point after the [n]-th digit. *)
Definition render (m : positive) (e : Z) : string :=
  let i := interval m e in
  let n0 := magnitude 8 (below (mid i) (den i)) (mid i) (den i) in
  let '(s, p) := shortest 17 1 n0 i in
  let n := p + Z.of_nat (String.length (string_of_Z s)) in
  let d := string_of_Z (strip_zeros 400 s) in
  let k := Z.of_nat (String.length d) in
  if (k <=? n) && (n <=? 21) then d +:+ zeros (n - k)
  else if (0 <? n) && (n <=? 21) then
    substring 0 (Z.to_nat n) d +:+ "." +:+ substring (Z.to_nat n) (Z.to_nat (k - n)) d
  else if (-6 <? n) && (n <=? 0) then "0." +:+ zeros (- n) +:+ d
  else
    let x := n - 1 in
    let ex := (if 0 <=? x then "e+" else "e-") +:+ string_of_Z (Z.abs x) in
    if k =? 1 then d +:+ ex
    else substring 0 1 d +:+ "." +:+ substring 1 (Z.to_nat (k - 1)) d +:+ ex.

(** [String(x)] for a number. *)
Definition to_string (x : t) : string :=
  match x with
  | S754_nan => "NaN"
  | S754_zero _ => "0"
  | S754_infinity s => if s then "-Infinity" else "Infinity"
  | S754_finite s m e => (if s then "-" else EmptyString) +:+ render m e
  end.

End Number.

(** ** Request bodies of any JSON shape *)

Module Json.

(** A value of a parsed JSON body. An object lists its own properties in
    enumeration order. *)
#[warnings="-register-all"]
Inductive Value :=
| Null
| Bool (b : bool)
| Num (x : Number.t)
| Str (s : string)
| Arr (items : list Value)
| Obj (props : list (string * Value)).

(** ToBoolean. *)
Definition truthy (v : Value) : bool :=
  match v with
  | Null => false
  | Bool b => b
  | Num x => negb (Number.is_zero x || Number.is_nan x)
  | Str s => negb (String.eqb s EmptyString)
  | Arr _ | Obj _ => true
  end.

(** [!x] for a body field that may be absent. *)
Definition falsy (o : option Value) : bool :=
  match o with
  | None => true
  | Some v => negb (truthy v)
  end.

Definition has_own (name : string) (props : list (string * Value)) : bool :=
  existsb (fun kv => String.eqb kv.1 name) props.

(** ToString. Of an array it is [join(",")], in which [null] elements are
    empty; of an object it is ["[object Object]"], unless the object has an
    own property [toString], which is not callable: then the conversion
    throws a [TypeError] (here [None]). *)
Fixpoint to_string (v : Value) : option string :=
  match v with
  | Null => Some "null"
  | Bool b => Some (if b then "true" else "false")
  | Num x => Some (Number.to_string x)
  | Str s => Some s
  | Arr items =>
      (fix join (l : list Value) : option string :=
         match l with
         | [] => Some EmptyString
         | x :: rest =>
             match (match x with Null => Some EmptyString | _ => to_string x end) with
             | None => None
             | Some a =>
                 match rest with
                 | [] => Some a
                 | _ :: _ =>
                     match join rest with
                     | None => None
                     | Some b => Some (a +:+ "," +:+ b)
                     end
                 end
             end
         end) items
  | Obj props => if has_own "toString" props then None else Some "[object Object]"
  end.

(** The primitive values. *)
Inductive Prim :=
| PNull
| PBool (b : bool)
| PNum (x : Number.t)
| PStr (s : string).

(** ToPrimitive: arrays and objects become their string. *)
Definition to_primitive (v : Value) : option Prim :=
  match v with
  | Null => Some PNull
  | Bool b => Some (PBool b)
  | Num x => Some (PNum x)
  | Str s => Some (PStr s)
  | Arr _ | Obj _ => PStr <$> to_string v
  end.

Definition prim_string (p : Prim) : string :=
  match p with
  | PNull => "null"
  | PBool b => if b then "true" else "false"
  | PNum x => Number.to_string x
  | PStr s => s
  end.

(** ToNumber of a primitive that is not a string. *)
Definition prim_number (p : Prim) : Number.t :=
  match p with
  | PNull => Number.zero
  | PBool b => Number.of_bool b
  | PNum x => x
  | PStr _ => S754_nan
  end.

(** [a + b] on primitives: concatenation as soon as one side is a string,
    otherwise the sum of the two numbers. *)
Definition plus (a b : Prim) : Prim :=
  match a, b with
  | PStr _, _ | _, PStr _ => PStr (prim_string a +:+ prim_string b)
  | _, _ => PNum (Number.add (prim_number a) (prim_number b))
  end.

(** [a + b + c]; [None] when a conversion throws. *)
Definition concat (a b c : Value) : option Prim :=
  match to_primitive a, to_primitive b, to_primitive c with
  | Some pa, Some pb, Some pc => Some (plus (plus pa pb) pc)
  | _, _, _ => None
  end.

(** [JSON.stringify]. *)
Fixpoint stringify (v : Value) : string :=
  match v with
  | Null => "null"
  | Bool b => if b then "true" else "false"
  | Num x => if Number.is_finite x then Number.to_string x else "null"
  | Str s => json_string s
  | Arr items =>
      "[" +:+
      (fix go (l : list Value) : string :=
         match l with
         | [] => EmptyString
         | x :: rest =>
             match rest with
             | [] => stringify x
             | _ :: _ => stringify x +:+ "," +:+ go rest
             end
         end) items +:+ "]"
  | Obj props =>
      "{" +:+
      (fix go (l : list (string * Value)) : string :=
         match l with
         | [] => EmptyString
         | (k, x) :: rest =>
             match rest with
             | [] => json_string k +:+ ":" +:+ stringify x
             | _ :: _ => json_string k +:+ ":" +:+ stringify x +:+ "," +:+ go rest
             end
         end) props +:+ "}"
  end.

(** What a [Map] compares when a body field is used as a key: a primitive
    by its value (SameValueZero, so the two zeros are one key), an array or
    object by its identity. The objects of a parsed body are new, so that
    identity is given by the request, numbered in order of arrival, and the
    field the object came in. *)
Inductive Key :=
| KNull
| KBool (b : bool)
| KNum (x : Number.t)
| KStr (s : string)
| KRef (request field : nat).

Definition key_of (request field : nat) (v : Value) : Key :=
  match v with
  | Null => KNull
  | Bool b => KBool b
  | Num x => KNum (match x with S754_zero _ => Number.zero | _ => x end)
  | Str s => KStr s
  | Arr _ | Obj _ => KRef request field
  end.

#[global] Instance spec_float_eq_dec : EqDecision spec_float.
Proof. solve_decision. Defined.

#[global] Instance spec_float_countable : Countable spec_float.
Proof.
  refine (inj_countable'
    (fun x => match x with
              | S754_zero s => inl (inl s)
              | S754_infinity s => inl (inr s)
              | S754_nan => inr (inl tt)
              | S754_finite s m e => inr (inr (s, m, e))
              end)
    (fun y => match y with
              | inl (inl s) => S754_zero s
              | inl (inr s) => S754_infinity s
              | inr (inl _) => S754_nan
              | inr (inr (s, m, e)) => S754_finite s m e
              end) _).
  intros []; reflexivity.
Defined.

#[global] Instance Key_eq_dec : EqDecision Key.
Proof. solve_decision. Defined.

#[global] Instance Key_countable : Countable Key.
Proof.
  refine (inj_countable'
    (fun k => match k with
              | KNull => inl (inl tt)
              | KBool b => inl (inr b)
              | KNum x => inr (inl x)
              | KStr s => inr (inr (inl s))
              | KRef r f => inr (inr (inr (r, f)))
              end)
    (fun y => match y with
              | inl (inl _) => KNull
              | inl (inr b) => KBool b
              | inr (inl x) => KNum x
              | inr (inr (inl s)) => KStr s
              | inr (inr (inr (r, f))) => KRef r f
              end) _).
  intros []; reflexivity.
Defined.

End Json.

(** ** The adaptive engine (src/5.js) on bodies of any JSON shape

    The handlers of [Nexus] again, for a body whose fields
    [fingerprintHash], [nonce], [counter] and [hash] are arbitrary JSON
    values. *)

Module Untyped.
Import Json.

(** The token payload; [fingerprintHash] is the body field as it came. *)
Record Payload := mkPayload {
  p_fingerprintHash : Value;
  p_ip : string;
  p_exp : Z;
  p_v : Z
}.

Inductive Body :=
| Error (msg : string)
| Status (s : string)
| ChallengeBody (nonce : string) (difficulty version : Z)
| TokenBody (payload : Payload) (signature : string)
| Success.

Inductive Response :=
| Reply (status : Z) (body : Body)
| Uncaught (err : string).

Definition stringify (p : Payload) : string :=
  "{" +:+ json_string "fingerprintHash" +:+ ":" +:+ Json.stringify (p_fingerprintHash p) +:+
  "," +:+ json_string "ip" +:+ ":" +:+ json_string (p_ip p) +:+
  "," +:+ json_string "exp" +:+ ":" +:+ string_of_Z (p_exp p) +:+
  "," +:+ json_string "v" +:+ ":" +:+ string_of_Z (p_v p) +:+ "}".

(** The module-level state, the number of [Date.now()] readings taken so
    far, and the number of request bodies parsed so far. *)
Record Server := mkServer {
  SECRET : list Z;
  SECRET_VERSION : Z;
  usedNonces : gmap Key Z;
  trustMemory : gmap Key Nexus.TrustState;
  ticks : nat;
  parsed : nat
}.

Definition set_usedNonces (f : gmap Key Z -> gmap Key Z) (s : Server) : Server :=
  mkServer (SECRET s) (SECRET_VERSION s) (f (usedNonces s)) (trustMemory s)
           (ticks s) (parsed s).
Definition set_trustMemory
    (f : gmap Key Nexus.TrustState -> gmap Key Nexus.TrustState) (s : Server) : Server :=
  mkServer (SECRET s) (SECRET_VERSION s) (usedNonces s) (f (trustMemory s))
           (ticks s) (parsed s).

Record Request := mkRequest {
  ip : string;
  user_agent : option string;
  fingerprintHash : option Value;
  nonce : option Value;
  counter : option Value;
  hash : option Value;
  payload : option Payload;
  signature : option string
}.

Definition MALFORMED : Response := Reply 400 (Error "Malformed request").
Definition REPLAY : Response := Reply 403 (Error "Replay detected").
Definition INVALID_POW : Response := Reply 403 (Error "Invalid PoW hash").
Definition DIFFICULTY_FAIL : Response := Reply 403 (Error "PoW difficulty fail").
Definition HIGH_RISK : Response := Reply 403 (Error "High risk entity").
Definition SHADOW_THROTTLED : Response := Reply 200 (Status "shadow_throttled").
Definition BAD_SIGNATURE : Response := Reply 403 (Error "Invalid signature").
Definition EXPIRED : Response := Reply 403 (Error "Token expired").
Definition IDENTITY_MISMATCH : Response := Reply 403 (Error "IP mismatch").
Definition VALID : Response := Reply 200 Success.

(** [hash.update(data)] takes a string; given a number it throws. *)
Definition THROWN : Response := Uncaught "TypeError".

Definition M : Type -> Type := State Server.

Section Handlers.

Variable clock : nat -> Z.

Definition Date_now : M Z :=
  fun s => (clock (ticks s),
            mkServer (SECRET s) (SECRET_VERSION s) (usedNonces s)
                     (trustMemory s) (S (ticks s)) (parsed s)).

(** [express.json()] parses the body: the request's number. *)
Definition arrive : M nat :=
  fun s => (parsed s,
            mkServer (SECRET s) (SECRET_VERSION s) (usedNonces s)
                     (trustMemory s) (ticks s) (S (parsed s))).

Definition sign (p : Payload) : M string :=
  key <- gets SECRET ;;
  ret (hex_of_bytes (hmac_sha256 key (bytes_of_string (stringify p)))).

Definition verifySignature (p : Payload) (sg : string) : M (option bool) :=
  expected <- sign p ;;
  ret (timingSafeEqual (bytes_of_string sg) (bytes_of_string expected)).

Definition cleanNonces : M unit :=
  now <- Date_now ;;
  modify (set_usedNonces (filter (fun e => ~ (now - e.2 > Nexus.NONCE_TTL)))).

Definition getTrustState (fp : Key) : M Nexus.TrustState :=
  tm <- gets trustMemory ;;
  match tm !! fp with
  | Some state => ret state
  | None =>
      now <- Date_now ;;
      let state := Nexus.mkTrust 0 now [] in
      modify (set_trustMemory <[fp := state]>) ;;
      ret state
  end.

Definition store (fp : Key) (state : Nexus.TrustState) : M unit :=
  modify (set_trustMemory <[fp := state]>).
Definition mutate (fp : Key) (f : Nexus.TrustState -> Nexus.TrustState) : M unit :=
  modify (set_trustMemory (alter f fp)).

Definition decayTrust (fp : Key) (state : Nexus.TrustState) : M Nexus.TrustState :=
  now <- Date_now ;;
  let state := Nexus.decay state now in
  store fp state ;;
  ret state.

Definition computeRisk (req : Request) (fp : Key) : M Q :=
  state <- getTrustState fp ;;
  state <- decayTrust fp state ;;
  let sc := 0%Q in
  let ua := default EmptyString (user_agent req) in
  let sc := if test_ci "Headless" ua then (sc + 0.6)%Q else sc in
  let sc := if test_ci "curl" ua || test_ci "wget" ua ||
               test_ci "python" ua || test_ci "axios" ua
            then (sc + 0.6)%Q else sc in
  now <- Date_now ;;
  let times := List.filter (fun t => now - t <? 10000)
                           (Nexus.requestTimes state ++ [now]) in
  let sc := if (30 <? length times)%nat then (sc + 0.5)%Q else sc in
  let state := Nexus.mkTrust (Nexus.score state + sc)%Q (Nexus.lastSeen state) times in
  store fp state ;;
  ret (Nexus.score state).

Definition challenge (rnd : list Z) (req : Request) : M Response :=
  id <- arrive ;;
  cleanNonces ;;
  match fingerprintHash req with
  | Some fp =>
      if negb (truthy fp) then ret (Reply 400 (Error "Missing fingerprint")) else
      let key := key_of id 0 fp in
      state <- getTrustState key ;;
      state <- decayTrust key state ;;
      let difficulty := Nexus.difficulty_of (Nexus.score state) in
      let nonce := hex_of_bytes rnd in
      version <- gets SECRET_VERSION ;;
      ret (Reply 200 (ChallengeBody nonce difficulty version))
  | None => ret (Reply 400 (Error "Missing fingerprint"))
  end.

Definition verify (req : Request) : M Response :=
  id <- arrive ;;
  cleanNonces ;;
  match fingerprintHash req, nonce req, counter req, hash req with
  | Some fp, Some n, Some c, Some h =>
      if negb (truthy fp) || negb (truthy n) || negb (truthy h) then ret MALFORMED else
      used <- gets usedNonces ;;
      if bool_decide (is_Some (used !! key_of id 1 n)) then ret REPLAY else
      match concat fp n c with
      | Some (PStr data) =>
          let expectedHash := sha256 data in
          match h with
          | Str hs =>
              if negb (String.eqb expectedHash hs) then ret INVALID_POW else
              let key := key_of id 0 fp in
              state <- getTrustState key ;;
              let dynamicDifficulty := Nexus.difficulty_of (Nexus.score state) in
              if dynamicDifficulty <? 0
              then ret (Uncaught "RangeError: Invalid count value") else
              if negb (startsWith hs (zeros dynamicDifficulty))
              then ret DIFFICULTY_FAIL else
              risk <- computeRisk req key ;;
              now <- Date_now ;;
              modify (set_usedNonces <[key_of id 1 n := now]>) ;;
              if Qgtb risk 3 then ret SHADOW_THROTTLED else
              if Qgtb risk 5 then ret HIGH_RISK else
              now <- Date_now ;;
              version <- gets SECRET_VERSION ;;
              let payload := mkPayload fp (ip req) (now + Nexus.TOKEN_TTL) version in
              signature <- sign payload ;;
              mutate key (fun st => Nexus.mkTrust (Nexus.score st * 0.5)%Q
                                      (Nexus.lastSeen st) (Nexus.requestTimes st)) ;;
              ret (Reply 200 (TokenBody payload signature))
          | _ => ret INVALID_POW
          end
      | _ => ret THROWN
      end
  | _, _, _, _ => ret MALFORMED
  end.

Definition protected (req : Request) : M Response :=
  _ <- arrive ;;
  match payload req, signature req with
  | Some payload, Some signature =>
      if String.eqb signature EmptyString
      then ret (Reply 400 (Error "Missing token")) else
      ok <- verifySignature payload signature ;;
      match ok with
      | None => ret (Uncaught "RangeError: Input buffers must have the same byte length")
      | Some false => ret BAD_SIGNATURE
      | Some true =>
          now <- Date_now ;;
          if now >? p_exp payload then ret EXPIRED else
          if negb (String.eqb (p_ip payload) (ip req)) then ret IDENTITY_MISMATCH else
          ret VALID
      end
  | _, _ => ret (Reply 400 (Error "Missing token"))
  end.

Definition rotate (rnd : list Z) : M unit :=
  modify (fun s => mkServer rnd (SECRET_VERSION s + 1) (usedNonces s)
                            (trustMemory s) (ticks s) (parsed s)).

Inductive Event :=
| Challenge (rnd : list Z) (req : Request)
| Verify (req : Request)
| Protected (req : Request)
| Rotate (rnd : list Z).

Definition handle (ev : Event) : M (list Response) :=
  match ev with
  | Challenge rnd req => r <- challenge rnd req ;; ret [r]
  | Verify req => r <- verify req ;; ret [r]
  | Protected req => r <- protected req ;; ret [r]
  | Rotate rnd => rotate rnd ;; ret []
  end.

Fixpoint run (evs : list Event) : M (list Response) :=
  match evs with
  | [] => ret []
  | ev :: rest => r <- handle ev ;; rs <- run rest ;; ret (r ++ rs)
  end.

End Handlers.

Definition boot (rnd : list Z) : Server := mkServer rnd 1 ∅ ∅ 0 0.

Definition reachable (clock : nat -> Z) (s : Server) : Prop :=
  exists rnd evs, (run clock evs (boot rnd)).2 = s.

(** A request of [Nexus], whose body fields are strings, as a request of
    this module; likewise its answer. *)
Definition of_payload (p : Nexus.Payload) : Payload :=
  mkPayload (Str (Nexus.p_fingerprintHash p)) (Nexus.p_ip p) (Nexus.p_exp p) (Nexus.p_v p).

Definition of_request (req : Nexus.Request) : Request :=
  mkRequest (Nexus.ip req) (Nexus.user_agent req)
            (Str <$> Nexus.fingerprintHash req) (Str <$> Nexus.nonce req)
            (Str <$> Nexus.counter req) (Str <$> Nexus.hash req)
            (of_payload <$> Nexus.payload req) (Nexus.signature req).

Definition of_body (b : Nexus.Body) : Body :=
  match b with
  | Nexus.Error msg => Error msg
  | Nexus.Status s => Status s
  | Nexus.ChallengeBody n d v => ChallengeBody n d v
  | Nexus.TokenBody p sg => TokenBody (of_payload p) sg
  | Nexus.Success => Success
  end.

Definition of_response (r : Nexus.Response) : Response :=
  match r with
  | Nexus.Reply status body => Reply status (of_body body)
  | Nexus.Uncaught err => Uncaught err
  end.

Definition of_event (ev : Nexus.Event) : Event :=
  match ev with
  | Nexus.Challenge rnd req => Challenge rnd (of_request req)
  | Nexus.Verify req => Verify (of_request req)
  | Nexus.Protected req => Protected (of_request req)
  | Nexus.Rotate rnd => Rotate rnd
  end.

(** The string-keyed entries of a map are those of a map of [Nexus]. *)
Definition agree {A} (g : gmap Key A) (t : gmap string A) : Prop :=
  forall k, g !! KStr k = t !! k.

(** The state is that of [Nexus], apart from entries under keys that are
    not strings. *)
Definition matches (g : Server) (t : Nexus.Server) : Prop :=
  SECRET g = Nexus.SECRET t /\ SECRET_VERSION g = Nexus.SECRET_VERSION t /\
  ticks g = Nexus.ticks t /\
  agree (usedNonces g) (Nexus.usedNonces t) /\
  agree (trustMemory g) (Nexus.trustMemory t).

(** The state after the body has been parsed and [cleanNonces] has run at
    clock reading [now]. *)
Definition received (now : Z) (s : Server) : Server :=
  mkServer (SECRET s) (SECRET_VERSION s)
           (filter (fun e => ~ (now - e.2 > Nexus.NONCE_TTL)) (usedNonces s))
           (trustMemory s) (S (ticks s)) (S (parsed s)).

(** Every stored trust score is non-negative. *)
Definition scores_nonneg (s : Server) : Prop :=
  map_Forall (fun _ st => (0 <= Nexus.score st)%Q) (trustMemory s).

(** The objects used as keys came in requests already parsed. *)
Definition refs_known (s : Server) : Prop :=
  forall request field t,
    usedNonces s !! KRef request field = Some t -> (request < parsed s)%nat.

(** What holds in every state the process can reach. *)
Definition invariant (s : Server) : Prop := scores_nonneg s /\ refs_known s.

(** The answers the handler of /verify gives itself. *)
Definition verify_answer (r : Response) : Prop :=
  r = MALFORMED \/ r = REPLAY \/ r = INVALID_POW \/ r = DIFFICULTY_FAIL \/
  r = SHADOW_THROTTLED \/ exists p sg, r = Reply 200 (TokenBody p sg).

(** The body passes the check of line 161: three fields truthy, [counter]
    present. *)
Definition well_formed (req : Request) : Prop :=
  falsy (fingerprintHash req) = false /\ falsy (nonce req) = false /\
  counter req <> None /\ falsy (hash req) = false.

(** [fingerprintHash + nonce + counter] evaluates to a string. *)
Definition data_is_string (req : Request) : Prop :=
  exists fp n c data,
    fingerprintHash req = Some fp /\ nonce req = Some n /\ counter req = Some c /\
    concat fp n c = Some (PStr data).

(** The value is an array or an object. *)
Definition is_object (v : Value) : Prop :=
  match v with
  | Arr _ | Obj _ => True
  | _ => False
  end.

End Untyped.

(** Bodies with fields that are not strings. *)
Module Odd.
Import Json.

(** The number [z], for an integer that binary64 represents. *)
Definition num (z : Z) : Value := Num (binary_normalize 53 1024 z 0 false).

(** [{fingerprintHash: 1, nonce: 2, counter: 3, hash: "x"}]. *)
Definition numbers : Untyped.Request :=
  Untyped.mkRequest "203.0.113.9" (Some Run.browser)
    (Some (num 1)) (Some (num 2)) (Some (num 3)) (Some (Str "x")) None None.

(** [Run.first_request] with the nonce wrapped in an array: [["n1"]]. *)
Definition array_nonce : Untyped.Request :=
  Untyped.mkRequest "203.0.113.9" (Some Run.browser)
    (Some (Str "abc")) (Some (Arr [Str "n1"])) (Some (Str "3838"))
    (Some (Str "0006ed063630af94fd94d1cc0491ac86008ee76253f955fc35bfae9d8d242e46"))
    None None.

(** A /challenge body [{fingerprintHash: 7}]. *)
Definition number_fingerprint : Untyped.Request :=
  Untyped.mkRequest "203.0.113.9" (Some Run.browser) (Some (num 7)) None None None None None.

End Odd.

(** ** Vocabulary and inputs for resubmissions *)

Module Resubmission.
Import Nexus.

(** The clock never runs backwards. *)
Definition nondecreasing (clock : nat -> Z) : Prop :=
  forall i j : nat, (i <= j)%nat -> clock i <= clock j.

(** The index of the [Date.now()] reading that /verify stores with an
    accepted nonce (line 183): the last reading of the call when the answer
    is [shadow_throttled], the one before the last when it is a token, whose
    [exp] takes one more reading. *)
Definition recording (r : Response * Server) : nat :=
  match r.1 with
  | Reply _ (TokenBody _ _) => ticks r.2 - 2
  | _ => ticks r.2 - 1
  end.

(** Other requests and a rotation. *)
Definition traffic : list Event :=
  [Challenge Run.issued Run.burst_last; Verify Run.after_pause; Rotate Run.rotated;
   Protected (Run.present Run.token Run.mac); Verify (Run.solution Run.browser "n2" "0")].


End Resubmission.

(** * Properties *)

Import Nexus Spec.

(** ** Arithmetic of the trust score *)

Lemma Qgtb_true (a b : Q) : Qgtb a b = true <-> (b < a)%Q.
Proof.
  unfold Qgtb. rewrite negb_true_iff. split.
  - intros H. apply Qnot_le_lt. intros Hle. apply Qle_bool_iff in Hle. congruence.
  - intros H. destruct (Qle_bool a b) eqn:E; [|reflexivity].
    apply Qle_bool_iff in E. exfalso. apply (Qlt_not_le _ _ H E).
Qed.

Lemma Qgtb_false (a b : Q) : Qgtb a b = false <-> (a <= b)%Q.
Proof.
  unfold Qgtb. rewrite negb_false_iff. apply Qle_bool_iff.
Qed.

Lemma decay_factor_pos (delta : Z) :
  (0.5 <= Qmax 0.5 (1 - inject_Z delta / 600000))%Q.
Proof. apply Q.le_max_l. Qed.

Lemma decay_factor_le_1 (delta : Z) :
  0 <= delta -> (Qmax 0.5 (1 - inject_Z delta / 600000) <= 1)%Q.
Proof.
  intros Hd. apply Q.max_lub; [lra|].
  assert (0 <= inject_Z delta / 600000)%Q; [|lra].
  apply Qle_shift_div_l; [lra|]. rewrite Qmult_0_l.
  change 0%Q with (inject_Z 0). rewrite <- Zle_Qle. exact Hd.
Qed.

Lemma decay_nonneg (st : TrustState) (now : Z) :
  (0 <= score st)%Q -> (0 <= score (decay st now))%Q.
Proof.
  intros H. unfold decay; simpl.
  apply Qmult_le_0_compat; [exact H|].
  pose proof (decay_factor_pos (now - lastSeen st)). lra.
Qed.

Lemma decay_le (st : TrustState) (now : Z) :
  lastSeen st <= now -> (0 <= score st)%Q -> (score (decay st now) <= score st)%Q.
Proof.
  intros Ht H. unfold decay; simpl.
  pose proof (decay_factor_le_1 (now - lastSeen st) ltac:(lia)) as H1.
  pose proof (decay_factor_pos (now - lastSeen st)) as H0.
  set (m := Qmax 0.5 (1 - inject_Z (now - lastSeen st) / 600000)) in *.
  nra.
Qed.

Lemma decays_bounds (times : list Z) : forall st,
  ascending (lastSeen st) times -> (0 <= score st)%Q ->
  (0 <= score (decays st times) <= score st)%Q.
Proof.
  induction times as [|t rest IH]; intros st Hasc Hs; simpl.
  - split; [exact Hs | apply Qle_refl].
  - destruct Hasc as [Ht Hrest].
    destruct (IH (decay st t) Hrest (decay_nonneg st t Hs)) as [H0 H1].
    split; [exact H0|].
    eapply Qle_trans; [exact H1 | apply decay_le; assumption].
Qed.

Lemma ascending_prefix (pre : list Z) : forall from post,
  ascending from (pre ++ post) -> ascending from pre.
Proof.
  induction pre as [|a pre IH]; intros from post H; simpl in *; [exact I|].
  destruct H as [Ha H]. split; [exact Ha | exact (IH _ _ H)].
Qed.

Lemma decays_lastSeen_le (pre : list Z) : forall st t post,
  ascending (lastSeen st) (pre ++ t :: post) -> lastSeen (decays st pre) <= t.
Proof.
  induction pre as [|a pre IH]; intros st t post H; simpl in *.
  - tauto.
  - destruct H as [_ H]. exact (IH (decay st a) t post H).
Qed.

Lemma decays_snoc (pre : list Z) (st : TrustState) (t : Z) :
  decays st (pre ++ [t]) = decay (decays st pre) t.
Proof. unfold decays. rewrite fold_left_app. reflexivity. Qed.

(** ** The primitives agree with the published test vectors *)

Example sha256_abc :
  sha256 "abc" = "ba7816bf8f01cfea414140de5dae2223b00361a396177a9cb410ff61f20015ad".
Proof. vm_compute. reflexivity. Qed.

Example sha256_two_blocks :
  sha256 "abcdbcdecdefdefgefghfghighijhijkijkljklmklmnlmnomnopnopq" =
  "248d6a61d20638b8e5c026930c3e6039a33ce45964ff2167f6ecedd419db06c1".
Proof. vm_compute. reflexivity. Qed.

Example hmac_rfc4231_case2 :
  hex_of_bytes (hmac_sha256 (bytes_of_string "Jefe")
                  (bytes_of_string "what do ya want for nothing?")) =
  "5bdcc146bf60754e6a042426089575c75a003f089d2739839dec58b964ec3843".
Proof. vm_compute. reflexivity. Qed.

Example hmac_rfc4231_case6_long_key :
  hex_of_bytes (hmac_sha256 (repeat 170 131%nat)
                  (bytes_of_string "Test Using Larger Than Block-Size Key - Hash Key First")) =
  "60e431591ee0b67f0d8a26aacbf5b77f8e0bc6213728c5140546040f0ee37f54".
Proof. vm_compute. reflexivity. Qed.

Example js_string_helpers :
  test_ci "Headless" "Mozilla/5.0 HEADLESSChrome/120" = true /\
  test_ci "curl" "Mozilla/5.0 (X11; Linux)" = false /\
  string_of_Z 61000 = "61000" /\ string_of_Z 0 = "0" /\ zeros 3 = "000" /\
  startsWith "000a3f" (zeros 3) = true /\ startsWith "00a3f" (zeros 3) = false /\
  bytes_of_string (Nexus.stringify (Nexus.mkPayload "ab" "::1" 61000 1)) =
    [123; 34; 102; 105; 110; 103; 101; 114; 112; 114; 105; 110; 116; 72; 97; 115; 104;
     34; 58; 34; 97; 98; 34; 44; 34; 105; 112; 34; 58; 34; 58; 58; 49; 34; 44; 34; 101;
     120; 112; 34; 58; 54; 49; 48; 48; 48; 44; 34; 118; 34; 58; 49; 125].
Proof. vm_compute. repeat split; reflexivity. Qed.

(** One challenge, solved and submitted twice, on each IP-bound server. *)
Example secureAntiBot_flow :
  let c := SecureAntiBot.challenge Run.steady Run.issued (SecureAntiBot.boot Run.secret) in
  let v := SecureAntiBot.verify Run.steady Run.solved c.2 in
  c.1 = IpBound.Reply 200 (IpBound.ChallengeBody "01010101010101010101010101010101" 4) /\
  v.1 = IpBound.Reply 200 (IpBound.TokenBody (IpBound.mkToken "203.0.113.9" 1002)
          "9c3f7d2af4ff5bf4cf981892a70c5f728f309354a402089edea238196d6badc3") /\
  (SecureAntiBot.verify Run.steady Run.solved v.2).1 = IpBound.INVALID_CHALLENGE.
Proof. vm_compute. repeat split; reflexivity. Qed.

Example enterprise_flow :
  let c := Enterprise.challenge Run.issued Run.solved
             (Enterprise.mkServer "k" (Enterprise.mkRedis ∅ ∅ ∅) 0) in
  let v := Enterprise.verify Run.steady Run.solved c.2 in
  c.1 = IpBound.Reply 200 (IpBound.ChallengeBody "01010101010101010101010101010101" 4) /\
  v.1 = IpBound.Reply 200 (IpBound.TokenBody (IpBound.mkToken "203.0.113.9" 1000)
          "183029e9a5c99d76169eedd9e5fa690eb9f63b6d3798ebf1bb9838cc93ff06ce") /\
  (Enterprise.verify Run.steady Run.solved v.2).1 = IpBound.INVALID_CHALLENGE.
Proof. vm_compute. repeat split; reflexivity. Qed.

(** ** Byte strings and digests *)

Lemma bytes_of_string_length (s : string) :
  length (bytes_of_string s) = String.length s.
Proof.
  unfold bytes_of_string. rewrite length_map.
  induction s as [|c s IH]; simpl; [reflexivity | now rewrite IH].
Qed.

Lemma bytes_of_string_inj (s t : string) :
  bytes_of_string s = bytes_of_string t -> s = t.
Proof.
  unfold bytes_of_string. revert t.
  induction s as [|c s IH]; intros [|d t] H; simpl in H; try discriminate H.
  - reflexivity.
  - injection H as Hc Hr. apply N2Z.inj in Hc.
    rewrite <- (ascii_N_embedding c), <- (ascii_N_embedding d), Hc.
    f_equal. apply IH. exact Hr.
Qed.

Lemma hex_of_bytes_length (l : list Z) :
  String.length (hex_of_bytes l) = (2 * length l)%nat.
Proof.
  induction l as [|b l IH]; simpl; [reflexivity|]. rewrite IH. lia.
Qed.

Lemma digest_length (msg : list Z) : length (SHA256.digest msg) = 32%nat.
Proof. unfold SHA256.digest. cbv zeta. rewrite !length_app. reflexivity. Qed.

Lemma hmac_sha256_length (key msg : list Z) : length (hmac_sha256 key msg) = 32%nat.
Proof. unfold hmac_sha256. cbv zeta. apply digest_length. Qed.

(** The hexadecimal HMAC digest the servers compare against is 64 bytes. *)
Lemma mac_hex_length (key msg : list Z) :
  String.length (hex_of_bytes (hmac_sha256 key msg)) = 64%nat.
Proof. rewrite hex_of_bytes_length, hmac_sha256_length. reflexivity. Qed.

Lemma timingSafeEqual_throws (a b : list Z) :
  timingSafeEqual a b = None <-> length a <> length b.
Proof.
  unfold timingSafeEqual.
  destruct (Nat.eqb_spec (length a) (length b)) as [E|E]; split; intros H.
  - discriminate H.
  - exfalso. exact (H E).
  - exact E.
  - reflexivity.
Qed.

Lemma timingSafeEqual_same (a : list Z) : timingSafeEqual a a = Some true.
Proof.
  unfold timingSafeEqual. rewrite Nat.eqb_refl.
  rewrite bool_decide_eq_true_2; reflexivity.
Qed.

Lemma timingSafeEqual_differ (a b : list Z) :
  length a = length b -> a <> b -> timingSafeEqual a b = Some false.
Proof.
  intros Hl Hne. unfold timingSafeEqual.
  rewrite (proj2 (Nat.eqb_eq _ _) Hl).
  rewrite bool_decide_eq_false_2; [reflexivity | exact Hne].
Qed.

(** ** What one handler run does to the state *)

Opaque sha256 hmac_sha256 stringify hex_of_bytes bytes_of_string.

(** The handlers, with the state threaded explicitly. *)

Lemma cleanNonces_eq clock s :
  cleanNonces clock s = (tt, cleaned (clock (ticks s)) s).
Proof. reflexivity. Qed.

Lemma verify_eq clock req s :
  verify clock req s =
  let s0 := cleaned (clock (ticks s)) s in
  match fingerprintHash req, nonce req, counter req, hash req with
  | Some fp, Some n, Some c, Some h =>
      if falsy (Some fp) || falsy (Some n) || falsy (Some h) then (MALFORMED, s0) else
      if bool_decide (is_Some (usedNonces s0 !! n)) then (REPLAY, s0) else
      if negb (String.eqb (sha256 (fp +:+ n +:+ c)) h) then (INVALID_POW, s0) else
      let (state, s1) := getTrustState clock fp s0 in
      if difficulty_of (score state) <? 0
      then (Uncaught "RangeError: Invalid count value", s1) else
      if negb (startsWith h (zeros (difficulty_of (score state))))
      then (DIFFICULTY_FAIL, s1) else
      let (risk, s2) := computeRisk clock req fp s1 in
      let s3 := mkServer (SECRET s2) (SECRET_VERSION s2)
                         (<[n := clock (ticks s2)]> (usedNonces s2))
                         (trustMemory s2) (S (ticks s2)) in
      if Qgtb risk 3 then (SHADOW_THROTTLED, s3) else
      if Qgtb risk 5 then (HIGH_RISK, s3) else
      let p := mkPayload fp (ip req) (clock (ticks s3) + TOKEN_TTL) (SECRET_VERSION s3) in
      (Reply 200 (TokenBody p
         (hex_of_bytes (hmac_sha256 (SECRET s3) (bytes_of_string (stringify p))))),
       mkServer (SECRET s3) (SECRET_VERSION s3) (usedNonces s3)
                (alter (fun st => mkTrust (score st * 0.5)%Q (lastSeen st) (requestTimes st))
                       fp (trustMemory s3))
                (S (ticks s3)))
  | _, _, _, _ => (MALFORMED, s0)
  end.
Proof.
  unfold verify, bind at 1. rewrite cleanNonces_eq.
  unfold sign, mutate, Date_now.
  unfold bind, ret, gets, modify, set_usedNonces, set_trustMemory.
  cbv zeta.
  repeat case_match; reflexivity.
Qed.

Lemma getTrustState_eq clock fp s :
  getTrustState clock fp s =
  match trustMemory s !! fp with
  | Some state => (state, s)
  | None =>
      let state := mkTrust 0 (clock (ticks s)) [] in
      (state, mkServer (SECRET s) (SECRET_VERSION s) (usedNonces s)
                       (<[fp := state]> (trustMemory s)) (S (ticks s)))
  end.
Proof.
  unfold getTrustState, Date_now, bind, ret, gets, modify, set_trustMemory.
  destruct (trustMemory s !! fp); reflexivity.
Qed.

Lemma computeRisk_eq clock req fp s :
  computeRisk clock req fp s =
  let (state0, s1) := getTrustState clock fp s in
  let state1 := decay state0 (clock (ticks s1)) in
  let times := window state1 (clock (S (ticks s1))) in
  let state2 := mkTrust (score state1 + increment req (length times))%Q
                        (lastSeen state1) times in
  (score state2,
   mkServer (SECRET s1) (SECRET_VERSION s1) (usedNonces s1)
            (<[fp := state2]> (<[fp := state1]> (trustMemory s1))) (S (S (ticks s1)))).
Proof.
  unfold computeRisk, bind at 1.
  destruct (getTrustState clock fp s) as [state0 s1].
  reflexivity.
Qed.

Lemma challenge_eq clock rnd req s :
  challenge clock rnd req s =
  let s0 := cleaned (clock (ticks s)) s in
  match fingerprintHash req with
  | None | Some EmptyString => (Reply 400 (Error "Missing fingerprint"), s0)
  | Some fp =>
      let (state0, s1) := getTrustState clock fp s0 in
      let state1 := decay state0 (clock (ticks s1)) in
      (Reply 200 (ChallengeBody (hex_of_bytes rnd) (difficulty_of (score state1))
                                (SECRET_VERSION s1)),
       mkServer (SECRET s1) (SECRET_VERSION s1) (usedNonces s1)
                (<[fp := state1]> (trustMemory s1)) (S (ticks s1)))
  end.
Proof.
  unfold challenge, bind at 1. rewrite cleanNonces_eq. cbv zeta.
  destruct (fingerprintHash req) as [[|a fp]|]; reflexivity.
Qed.

Lemma protected_eq clock req s :
  protected clock req s =
  match payload req, signature req with
  | Some p, Some sg =>
      if falsy (Some sg) then (Reply 400 (Error "Missing token"), s) else
      match timingSafeEqual (bytes_of_string sg)
              (bytes_of_string
                 (hex_of_bytes (hmac_sha256 (SECRET s) (bytes_of_string (stringify p))))) with
      | None => (Uncaught "RangeError: Input buffers must have the same byte length", s)
      | Some false => (BAD_SIGNATURE, s)
      | Some true =>
          let s1 := mkServer (SECRET s) (SECRET_VERSION s) (usedNonces s)
                             (trustMemory s) (S (ticks s)) in
          if clock (ticks s) >? p_exp p then (EXPIRED, s1) else
          if negb (String.eqb (p_ip p) (ip req)) then (IDENTITY_MISMATCH, s1) else
          (VALID, s1)
      end
  | _, _ => (Reply 400 (Error "Missing token"), s)
  end.
Proof.
  unfold protected, verifySignature, sign, Date_now.
  unfold bind, ret, gets.
  repeat case_match; reflexivity.
Qed.

(** ** Trust scores never become negative *)

Lemma increment_nonneg req n : (0 <= increment req n)%Q.
Proof. unfold increment. repeat case_match; lra. Qed.

Lemma getTrustState_facts clock fp s :
  let r := getTrustState clock fp s in
  SECRET r.2 = SECRET s /\ SECRET_VERSION r.2 = SECRET_VERSION s /\
  usedNonces r.2 = usedNonces s /\ trustMemory r.2 !! fp = Some r.1 /\
  (scores_nonneg s -> scores_nonneg r.2 /\ (0 <= score r.1)%Q).
Proof.
  rewrite getTrustState_eq.
  destruct (trustMemory s !! fp) as [st|] eqn:E; simpl.
  - repeat split; try assumption. exact (H fp st E).
  - repeat split.
    + apply lookup_insert_eq.
    + apply map_Forall_insert_2; [simpl; lra | exact H].
    + lra.
Qed.

Lemma computeRisk_facts clock req fp s :
  let r := computeRisk clock req fp s in
  SECRET r.2 = SECRET s /\ SECRET_VERSION r.2 = SECRET_VERSION s /\
  usedNonces r.2 = usedNonces s /\
  (scores_nonneg s -> scores_nonneg r.2).
Proof.
  rewrite computeRisk_eq.
  pose proof (getTrustState_facts clock fp s) as F.
  destruct (getTrustState clock fp s) as [st s1].
  simpl in F. destruct F as (F1 & F2 & F3 & _ & F5).
  simpl. repeat split; try assumption.
  intros H. destruct (F5 H) as [H1 H2].
  pose proof (decay_nonneg st (clock (ticks s1)) H2) as Hd.
  apply map_Forall_insert_2; [|apply map_Forall_insert_2; [exact Hd | exact H1]].
  simpl. pose proof (increment_nonneg req
    (length (window (decay st (clock (ticks s1))) (clock (S (ticks s1)))))).
  unfold decay in *; simpl in *. lra.
Qed.

Lemma halve_nonneg (fp : string) (tm : gmap string TrustState) :
  map_Forall (fun _ st => (0 <= score st)%Q) tm ->
  map_Forall (fun _ st => (0 <= score st)%Q)
    (alter (fun st => mkTrust (score st * 0.5)%Q (lastSeen st) (requestTimes st)) fp tm).
Proof.
  intros H k st' Hk. apply lookup_alter_Some in Hk.
  destruct Hk as [(-> & st0 & Hst0 & ->) | (_ & Hk)].
  - simpl. pose proof (H _ _ Hst0) as Hs; simpl in Hs. lra.
  - exact (H _ _ Hk).
Qed.

Lemma verify_nonneg clock req s :
  scores_nonneg s -> scores_nonneg (verify clock req s).2.
Proof.
  intros H. rewrite verify_eq. cbv zeta.
  assert (H0 : scores_nonneg (cleaned (clock (ticks s)) s)) by exact H.
  repeat case_match; try exact H0;
    match goal with
    | E : getTrustState _ ?fp ?s0 = _ |- _ =>
        pose proof (getTrustState_facts clock fp s0) as F; rewrite E in F; simpl in F;
        destruct F as (_ & _ & _ & _ & F); destruct (F H0) as [Hs1 _]
    end; try exact Hs1;
    match goal with
    | E : computeRisk _ _ ?fp ?s1 = _ |- _ =>
        pose proof (computeRisk_facts clock req fp s1) as G; rewrite E in G; simpl in G;
        destruct G as (_ & _ & _ & G); specialize (G Hs1)
    end; try exact G.
  apply halve_nonneg. exact G.
Qed.

Lemma challenge_nonneg clock rnd req s :
  scores_nonneg s -> scores_nonneg (challenge clock rnd req s).2.
Proof.
  intros H. rewrite challenge_eq. cbv zeta.
  assert (H0 : scores_nonneg (cleaned (clock (ticks s)) s)) by exact H.
  destruct (fingerprintHash req) as [[|a fp]|]; try exact H0.
  pose proof (getTrustState_facts clock (String a fp) (cleaned (clock (ticks s)) s)) as F.
  destruct (getTrustState clock (String a fp) (cleaned (clock (ticks s)) s)) as [st s1].
  simpl in F. destruct F as (_ & _ & _ & _ & F). destruct (F H0) as [H1 H2].
  apply map_Forall_insert_2; [exact (decay_nonneg st _ H2) | exact H1].
Qed.

Lemma protected_state clock req s :
  SECRET (protected clock req s).2 = SECRET s /\
  SECRET_VERSION (protected clock req s).2 = SECRET_VERSION s /\
  usedNonces (protected clock req s).2 = usedNonces s /\
  trustMemory (protected clock req s).2 = trustMemory s.
Proof. rewrite protected_eq. repeat case_match; repeat split. Qed.

Lemma handle_nonneg clock ev s :
  scores_nonneg s -> scores_nonneg (handle clock ev s).2.
Proof.
  intros H. destruct ev as [rnd req|req|req|rnd]; unfold handle, bind, ret.
  - pose proof (challenge_nonneg clock rnd req s H).
    destruct (challenge clock rnd req s); assumption.
  - pose proof (verify_nonneg clock req s H).
    destruct (verify clock req s); assumption.
  - pose proof (protected_state clock req s) as (_ & _ & _ & E).
    destruct (protected clock req s); simpl in *.
    unfold scores_nonneg. rewrite E. exact H.
  - exact H.
Qed.

Lemma run_nonneg clock evs : forall s,
  scores_nonneg s -> scores_nonneg (run clock evs s).2.
Proof.
  induction evs as [|ev rest IH]; intros s H; simpl.
  - exact H.
  - unfold bind, ret. pose proof (handle_nonneg clock ev s H) as H1.
    destruct (handle clock ev s) as [r s1]. simpl in H1.
    specialize (IH s1 H1). destruct (run clock rest s1) as [rs s2]. exact IH.
Qed.

Lemma reachable_nonneg clock s : reachable clock s -> scores_nonneg s.
Proof.
  intros (rnd & evs & <-). apply run_nonneg.
  unfold scores_nonneg, boot; simpl. apply map_Forall_empty.
Qed.

(** ** Decay (C5) *)

Lemma decayTrust_eq clock fp state s :
  decayTrust clock fp state s =
  (decay state (clock (ticks s)),
   mkServer (SECRET s) (SECRET_VERSION s) (usedNonces s)
            (<[fp := decay state (clock (ticks s))]> (trustMemory s)) (S (ticks s))).
Proof. reflexivity. Qed.

(** C5. One decay step at a time [now >= lastSeen] multiplies the score by
    [max(0.5, 1 - (now - lastSeen)/600000)] and sets [lastSeen] to [now]
    (this is what [decayTrust] writes into the trust memory); the step keeps
    a non-negative score non-negative and does not increase it, and so does
    every step of any sequence of decay calls made at non-decreasing times. *)
Theorem C5_decay_step_and_sequences (state : TrustState) (now : Z) (times : list Z) :
  lastSeen state <= now -> (0 <= score state)%Q -> ascending now times ->
  score (decay state now) =
    (score state * Qmax 0.5 (1 - inject_Z (now - lastSeen state) / 600000))%Q /\
  lastSeen (decay state now) = now /\
  (forall clock fp s, clock (ticks s) = now ->
     (decayTrust clock fp state s).1 = decay state now /\
     trustMemory (decayTrust clock fp state s).2 !! fp = Some (decay state now)) /\
  (0 <= score (decay state now) <= score state)%Q /\
  (0 <= score (decays state (now :: times)) <= score state)%Q /\
  (forall pre t post, now :: times = pre ++ t :: post ->
     (0 <= score (decays state (pre ++ [t])) <= score (decays state pre))%Q).
Proof.
  intros Hnow Hs Hasc.
  assert (Hall : ascending (lastSeen state) (now :: times)) by (split; assumption).
  split; [reflexivity|]. split; [reflexivity|]. split.
  { intros clock fp s <-. rewrite decayTrust_eq. simpl. split; [reflexivity|].
    apply lookup_insert_eq. }
  split; [split; [apply decay_nonneg | apply decay_le]; assumption|].
  split; [apply decays_bounds; assumption|].
  intros pre t post E. rewrite E in Hall.
  pose proof (decays_lastSeen_le pre state t post Hall) as Ht.
  pose proof (decays_bounds pre state (ascending_prefix pre _ _ Hall) Hs) as [Hp _].
  rewrite decays_snoc. split; [apply decay_nonneg | apply decay_le]; assumption.
Qed.

Lemma C5_witness :
  (0 <= score (decays Run.idle (cons 301000%Z Run.later)) <= score Run.idle)%Q.
Proof.
  apply (C5_decay_step_and_sequences Run.idle 301000 Run.later).
  - simpl. lia.
  - simpl. unfold Qle. simpl. lia.
  - simpl. lia.
Defined.

(** ** Difficulty (C6) *)

Lemma difficulty_of_monotone (a b : Q) :
  (a <= b)%Q -> difficulty_of a <= difficulty_of b.
Proof.
  intros H. unfold difficulty_of. pose proof (Qfloor_resp_le a b H). lia.
Qed.

Lemma difficulty_of_bounds (a : Q) :
  (0 <= a)%Q -> BASE_DIFFICULTY <= difficulty_of a <= BASE_DIFFICULTY + 3.
Proof.
  intros H. unfold difficulty_of.
  pose proof (Qfloor_resp_le 0 a H) as H0. change (Qfloor 0) with 0 in H0. lia.
Qed.

Lemma decay_difficulty_monotone (a b : TrustState) (now : Z) :
  lastSeen a = lastSeen b -> (score a <= score b)%Q ->
  difficulty_of (score (decay a now)) <= difficulty_of (score (decay b now)).
Proof.
  intros Hl Hs. apply difficulty_of_monotone. unfold decay; simpl. rewrite Hl.
  pose proof (decay_factor_pos (now - lastSeen b)) as H0.
  set (m := Qmax 0.5 (1 - inject_Z (now - lastSeen b) / 600000)) in *.
  nra.
Qed.

(** C6. The difficulty a /challenge response carries is
    [BASE_DIFFICULTY + min(3, floor(score))] of the requester's freshly
    decayed trust score; in every state the process can reach it lies in
    [[BASE_DIFFICULTY, BASE_DIFFICULTY + 3]] = [[3, 6]], and it is
    non-decreasing in the score, decayed or stored. *)
Theorem C6_difficulty_monotone_and_clamped
    (clock : nat -> Z) (s : Server) (rnd : list Z) (req : Request)
    (n : string) (d v : Z) :
  reachable clock s ->
  (challenge clock rnd req s).1 = Reply 200 (ChallengeBody n d v) ->
  (BASE_DIFFICULTY = 3 /\ 3 <= d <= 6) /\
  (exists fp state, fingerprintHash req = Some fp /\
     trustMemory (challenge clock rnd req s).2 !! fp = Some state /\
     d = difficulty_of (score state)) /\
  (forall a b : Q, (a <= b)%Q -> difficulty_of a <= difficulty_of b) /\
  (forall (a b : TrustState) (now : Z),
     lastSeen a = lastSeen b -> (score a <= score b)%Q ->
     difficulty_of (score (decay a now)) <= difficulty_of (score (decay b now))).
Proof.
  intros Hreach E.
  pose proof (reachable_nonneg clock s Hreach) as H.
  assert (H0 : scores_nonneg (cleaned (clock (ticks s)) s)) by exact H.
  rewrite challenge_eq in *. cbv zeta in *.
  destruct (fingerprintHash req) as [[|a fp]|]; try discriminate E.
  pose proof (getTrustState_facts clock (String a fp) (cleaned (clock (ticks s)) s)) as F.
  destruct (getTrustState clock (String a fp) (cleaned (clock (ticks s)) s)) as [st s1].
  simpl in F. destruct F as (_ & _ & _ & _ & F). destruct (F H0) as [_ H2].
  simpl in E. injection E as _ <- _.
  pose proof (difficulty_of_bounds _ (decay_nonneg st (clock (ticks s1)) H2)) as B.
  split; [split; [reflexivity | unfold difficulty_of, decay, BASE_DIFFICULTY in *; simpl in *; lia]|].
  split.
  - exists (String a fp), (decay st (clock (ticks s1))). split; [reflexivity|].
    split; [apply lookup_insert_eq | reflexivity].
  - split; [exact difficulty_of_monotone | exact decay_difficulty_monotone].
Qed.

Lemma C6_witness : 3 <= 3 <= 6.
Proof.
  apply (C6_difficulty_monotone_and_clamped Run.steady (boot Run.secret) (repeat 1 16%nat)
           (Run.solution Run.browser "n1" "3838") "01010101010101010101010101010101" 3 1).
  - exists Run.secret, []. reflexivity.
  - vm_compute. reflexivity.
Defined.

(** ** The risk decision of /verify (C1) *)

Lemma verify_never_high_risk clock req s : (verify clock req s).1 <> HIGH_RISK.
Proof.
  rewrite verify_eq. cbv zeta.
  repeat case_match; simpl; try discriminate.
  match goal with
  | H3 : Qgtb ?r 3 = false, H5 : Qgtb ?r 5 = true |- _ =>
      apply Qgtb_false in H3; apply Qgtb_true in H5; lra
  end.
Qed.

(** C1 (the code departs from it). After the thirty-three solved submissions
    of [Run.burst], the thirty-fourth is a valid solution at the demanded
    difficulty 6 and its computed risk, the score left in the trust memory, is
    above 5; the answer is HTTP 200 [shadow_throttled], not 403. The branch
    answering "High risk entity" comes after the [risk > 3] return and is
    never taken, whatever the request and the state. *)
Theorem C1_risk_above_five_is_shadow_throttled :
  let s := (run Run.steady Run.burst (boot Run.secret)).2 in
  let r := verify Run.steady Run.burst_last s in
  hash Run.burst_last =
    Some "000000a02d5bfd75294fb8834dab817869006a8d51290153fcdf045cd679d007" /\
  r.1 = SHADOW_THROTTLED /\
  (exists state, trustMemory r.2 !! "abc" = Some state /\ (5 < score state)%Q) /\
  (forall clock req s', (verify clock req s').1 <> HIGH_RISK).
Proof.
  cbv zeta. split; [vm_compute; reflexivity|].
  split; [vm_compute; reflexivity|].
  split; [|exact verify_never_high_risk].
  eexists. split; [vm_compute; reflexivity|].
  vm_compute. reflexivity.
Qed.

(** ** Replay (C3, C9) *)

Import Resubmission.

Lemma cleaned_lookup (s : Server) (now : Z) (k : string) (t : Z) :
  usedNonces (cleaned now s) !! k = Some t <->
  usedNonces s !! k = Some t /\ now - t <= NONCE_TTL.
Proof.
  unfold cleaned; simpl. rewrite map_lookup_filter_Some. simpl. intuition lia.
Qed.

Lemma not_both_thresholds (risk : Q) : Qgtb risk 3 = false -> Qgtb risk 5 = true -> False.
Proof. intros H3 H5. apply Qgtb_false in H3. apply Qgtb_true in H5. lra. Qed.

(** The used-nonce store after /verify: the cleaned store, plus the
    submitted nonce exactly when the submission is accepted. *)
Lemma verify_usedNonces clock req s :
  let r := verify clock req s in
  let s0 := cleaned (clock (ticks s)) s in
  ((is_token r.1 \/ r.1 = SHADOW_THROTTLED) /\
   exists n t', nonce req = Some n /\ usedNonces s0 !! n = None /\
                usedNonces r.2 = <[n := t']> (usedNonces s0)) \/
  (~ (is_token r.1 \/ r.1 = SHADOW_THROTTLED) /\ usedNonces r.2 = usedNonces s0).
Proof.
  cbv zeta. rewrite verify_eq. cbv zeta. unfold is_token.
  assert (R : forall (r : Response) (s' : Server),
             (forall p sg, r <> Reply 200 (TokenBody p sg)) -> r <> SHADOW_THROTTLED ->
             usedNonces s' = usedNonces (cleaned (clock (ticks s)) s) ->
             ((exists p sg, (r, s').1 = Reply 200 (TokenBody p sg)) \/
              (r, s').1 = SHADOW_THROTTLED) /\
             (exists n t', nonce req = Some n /\
                usedNonces (cleaned (clock (ticks s)) s) !! n = None /\
                usedNonces (r, s').2 = <[n := t']> (usedNonces (cleaned (clock (ticks s)) s))) \/
             ~ ((exists p sg, (r, s').1 = Reply 200 (TokenBody p sg)) \/
                (r, s').1 = SHADOW_THROTTLED) /\
             usedNonces (r, s').2 = usedNonces (cleaned (clock (ticks s)) s)).
  { intros r s' H1 H2 H3. right. simpl. split; [|exact H3].
    intros [(p & sg & E)|E]; [exact (H1 p sg E) | exact (H2 E)]. }
  destruct (fingerprintHash req) as [fp|]; [|apply R; [discriminate..|reflexivity]].
  destruct (nonce req) as [n|]; [|apply R; [discriminate..|reflexivity]].
  destruct (counter req) as [c|]; [|apply R; [discriminate..|reflexivity]].
  destruct (hash req) as [h|]; [|apply R; [discriminate..|reflexivity]].
  destruct (falsy (Some fp) || falsy (Some n) || falsy (Some h));
    [apply R; [discriminate..|reflexivity]|].
  destruct (bool_decide (is_Some (usedNonces (cleaned (clock (ticks s)) s) !! n))) eqn:Hb;
    [apply R; [discriminate..|reflexivity]|].
  apply bool_decide_eq_false in Hb.
  assert (Hn : usedNonces (cleaned (clock (ticks s)) s) !! n = None).
  { destruct (usedNonces (cleaned (clock (ticks s)) s) !! n) eqn:E; [|reflexivity].
    exfalso. apply Hb. eauto. }
  destruct (negb _); [apply R; [discriminate..|reflexivity]|].
  pose proof (getTrustState_facts clock fp (cleaned (clock (ticks s)) s)) as F.
  destruct (getTrustState clock fp (cleaned (clock (ticks s)) s)) as [st s1].
  simpl in F. destruct F as (_ & _ & F & _).
  destruct (difficulty_of (score st) <? 0); [apply R; [discriminate..|exact F]|].
  destruct (negb _); [apply R; [discriminate..|exact F]|].
  pose proof (computeRisk_facts clock req fp s1) as G.
  destruct (computeRisk clock req fp s1) as [risk s2].
  simpl in G. destruct G as (_ & _ & G & _).
  destruct (Qgtb risk 3) eqn:H3.
  { left. simpl. split; [right; reflexivity|].
    exists n, (clock (ticks s2)). rewrite G, F. auto. }
  destruct (Qgtb risk 5) eqn:H5; [destruct (not_both_thresholds risk H3 H5)|].
  left. simpl. split; [left; eauto|].
  exists n, (clock (ticks s2)). rewrite G, F. auto.
Qed.

Lemma live_after_clean (s : Server) (n : string) (t now : Z) :
  usedNonces s !! n = Some t -> now - t <= NONCE_TTL ->
  usedNonces (cleaned now s) !! n = Some t.
Proof.
  intros H Hlive. unfold cleaned; simpl.
  apply map_lookup_filter_Some. split; [exact H | simpl; lia].
Qed.

Lemma verify_replay clock req s n t :
  well_formed req -> nonce req = Some n ->
  usedNonces s !! n = Some t -> clock (ticks s) - t <= NONCE_TTL ->
  verify clock req s = (REPLAY, cleaned (clock (ticks s)) s).
Proof.
  intros (Hfp & Hn & Hc & Hh) En Hused Hlive.
  pose proof (live_after_clean s n t _ Hused Hlive) as Hl.
  rewrite verify_eq. cbv zeta. rewrite En in *.
  destruct (fingerprintHash req) as [fp|]; [|discriminate Hfp].
  destruct (counter req) as [c|]; [|congruence].
  destruct (hash req) as [h|]; [|discriminate Hh].
  rewrite Hfp, Hn, Hh. cbn [orb]. cbv iota.
  rewrite Hl. rewrite bool_decide_eq_true_2 by eauto. reflexivity.
Qed.




Lemma verify_accepted clock req s n :
  nonce req = Some n ->
  is_token (verify clock req s).1 \/ (verify clock req s).1 = SHADOW_THROTTLED ->
  well_formed req /\ exists t, usedNonces (verify clock req s).2 !! n = Some t.
Proof.
  intros En. rewrite verify_eq. cbv zeta. unfold is_token, well_formed. rewrite En.
  destruct (fingerprintHash req) as [fp|] eqn:Efp;
    [|intros [(p & sg & E)|E]; discriminate E].
  destruct (counter req) as [c|] eqn:Ec;
    [|intros [(p & sg & E)|E]; discriminate E].
  destruct (hash req) as [h|] eqn:Eh;
    [|intros [(p & sg & E)|E]; discriminate E].
  destruct (falsy (Some fp) || falsy (Some n) || falsy (Some h)) eqn:Ef;
    [intros [(p & sg & E)|E]; discriminate E|].
  apply orb_false_elim in Ef as [Ef Ef3]. apply orb_false_elim in Ef as [Ef1 Ef2].
  repeat case_match; simpl;
    try (intros [(p & sg & E)|E]; discriminate E); intros _;
    (split; [repeat split; [assumption..|discriminate|assumption]|]);
    eexists; apply lookup_insert_eq.
Qed.

(** In secureAntiBot.js the challenge is deleted together with the
    recording of the nonce, so that an accepted submission sent again is
    turned away at the challenge check. *)
Lemma secureAntiBot_resubmission clock (req : IpBound.Request) (s : SecureAntiBot.Server) :
  (exists t sg, (SecureAntiBot.verify clock req s).1 =
                IpBound.Reply 200 (IpBound.TokenBody t sg)) ->
  (SecureAntiBot.verify clock req (SecureAntiBot.verify clock req s).2).1 =
  IpBound.INVALID_CHALLENGE.
Proof.
  intros (t & sg & E).
  destruct (SecureAntiBot.verify clock req s) as [r s1] eqn:Ev. simpl in *. subst r.
  assert (H : forall c, IpBound.r_challenge req = Some c ->
                        SecureAntiBot.activeChallenges s1 !! c = None).
  { intros c Ec. revert Ev.
    unfold SecureAntiBot.verify, bind, gets, ret, modify, SecureAntiBot.Date_now.
    rewrite Ec. simpl.
    destruct (SecureAntiBot.activeChallenges s !! c) as [issued|]; simpl;
      [|intros Ev; discriminate Ev].
    repeat case_match; simpl; intros Ev; try discriminate Ev.
    injection Ev as _ _ <-. simpl. apply lookup_delete_eq. }
  unfold SecureAntiBot.verify, bind, gets, ret.
  destruct (IpBound.r_challenge req) as [c|]; [|reflexivity].
  simpl. rewrite (H c eq_refl). reflexivity.
Qed.

Lemma verify_recorded_cases clock req s n :
  nonce req = Some n ->
  (is_token (verify clock req s).1 ->
     well_formed req /\
     usedNonces (verify clock req s).2 !! n =
       Some (clock (ticks (verify clock req s).2 - 2)%nat)) /\
  ((verify clock req s).1 = SHADOW_THROTTLED ->
     well_formed req /\
     usedNonces (verify clock req s).2 !! n =
       Some (clock (ticks (verify clock req s).2 - 1)%nat)).
Proof.
  intros En. rewrite verify_eq. cbv zeta. unfold is_token, well_formed. rewrite En.
  destruct (fingerprintHash req) as [fp|] eqn:Efp;
    [|split; [intros (p & sg & E)|intros E]; discriminate E].
  destruct (counter req) as [c|] eqn:Ec;
    [|split; [intros (p & sg & E)|intros E]; discriminate E].
  destruct (hash req) as [h|] eqn:Eh;
    [|split; [intros (p & sg & E)|intros E]; discriminate E].
  destruct (falsy (Some fp) || falsy (Some n) || falsy (Some h)) eqn:Ef;
    [split; [intros (p & sg & E)|intros E]; discriminate E|].
  apply orb_false_elim in Ef as [Ef Ef3]. apply orb_false_elim in Ef as [Ef1 Ef2].
  repeat case_match; simpl;
    (split; [intros (p & sg & E)|intros E]; try discriminate E);
    (split; [repeat split; [assumption..|discriminate|assumption]|]);
    rewrite ?Nat.sub_0_r; apply lookup_insert_eq.
Qed.

Lemma verify_recorded clock req s n :
  nonce req = Some n ->
  is_token (verify clock req s).1 \/ (verify clock req s).1 = SHADOW_THROTTLED ->
  well_formed req /\
  usedNonces (verify clock req s).2 !! n = Some (clock (recording (verify clock req s))).
Proof.
  intros En Hacc. destruct (verify_recorded_cases clock req s n En) as [Ht Hs].
  unfold recording.
  destruct Hacc as [Hacc|Hacc].
  - destruct (Ht Hacc) as [Hwf Hl]. destruct Hacc as (p & sg & E). rewrite E. auto.
  - destruct (Hs Hacc) as [Hwf Hl]. rewrite Hacc. auto.
Qed.

Lemma getTrustState_ticks clock fp s :
  (ticks s <= ticks (getTrustState clock fp s).2)%nat.
Proof. rewrite getTrustState_eq. destruct (trustMemory s !! fp); simpl; lia. Qed.

Lemma computeRisk_ticks clock req fp s :
  (ticks s <= ticks (computeRisk clock req fp s).2)%nat.
Proof.
  rewrite computeRisk_eq. pose proof (getTrustState_ticks clock fp s) as H.
  destruct (getTrustState clock fp s) as [st s1]. simpl in *. lia.
Qed.

Lemma verify_ticks clock req s : (ticks s < ticks (verify clock req s).2)%nat.
Proof.
  rewrite verify_eq. cbv zeta.
  repeat case_match; simpl; try lia;
    match goal with
    | E : getTrustState _ ?fp ?s0 = _ |- _ =>
        pose proof (getTrustState_ticks clock fp s0) as F; rewrite E in F; simpl in F
    end; try lia;
    match goal with
    | E : computeRisk _ _ ?fp ?s1 = _ |- _ =>
        pose proof (computeRisk_ticks clock req fp s1) as G; rewrite E in G; simpl in G
    end; lia.
Qed.

Lemma challenge_ticks clock rnd req s : (ticks s < ticks (challenge clock rnd req s).2)%nat.
Proof.
  rewrite challenge_eq. cbv zeta.
  destruct (fingerprintHash req) as [[|a fp]|]; simpl; try lia.
  pose proof (getTrustState_ticks clock (String a fp) (cleaned (clock (ticks s)) s)) as F.
  destruct (getTrustState clock (String a fp) (cleaned (clock (ticks s)) s)) as [st s1].
  simpl in *. lia.
Qed.

Lemma challenge_usedNonces clock rnd req s :
  usedNonces (challenge clock rnd req s).2 = usedNonces (cleaned (clock (ticks s)) s).
Proof.
  rewrite challenge_eq. cbv zeta.
  destruct (fingerprintHash req) as [[|a fp]|]; try reflexivity.
  pose proof (getTrustState_facts clock (String a fp) (cleaned (clock (ticks s)) s)) as F.
  destruct (getTrustState clock (String a fp) (cleaned (clock (ticks s)) s)) as [st s1].
  simpl in *. destruct F as (_ & _ & F & _). exact F.
Qed.

Lemma protected_ticks clock req s : (ticks s <= ticks (protected clock req s).2)%nat.
Proof. rewrite protected_eq. repeat case_match; simpl; lia. Qed.

Lemma handle_ticks clock ev s : (ticks s <= ticks (handle clock ev s).2)%nat.
Proof.
  destruct ev as [rnd req|req|req|rnd]; unfold handle, bind, ret.
  - pose proof (challenge_ticks clock rnd req s).
    destruct (challenge clock rnd req s); simpl in *; lia.
  - pose proof (verify_ticks clock req s).
    destruct (verify clock req s); simpl in *; lia.
  - pose proof (protected_ticks clock req s).
    destruct (protected clock req s); simpl in *; lia.
  - simpl. lia.
Qed.

Lemma run_ticks clock evs : forall s, (ticks s <= ticks (run clock evs s).2)%nat.
Proof.
  induction evs as [|ev rest IH]; intros s; simpl; [lia|].
  unfold bind, ret. pose proof (handle_ticks clock ev s) as H1.
  destruct (handle clock ev s) as [r s1]. simpl in H1.
  specialize (IH s1). destruct (run clock rest s1) as [rs s2]. simpl in *. lia.
Qed.

Lemma handle_keeps_record clock ev s n t :
  usedNonces s !! n = Some t -> clock (ticks s) - t <= NONCE_TTL ->
  usedNonces (handle clock ev s).2 !! n = Some t.
Proof.
  intros Hn Hlive.
  assert (H0 : usedNonces (cleaned (clock (ticks s)) s) !! n = Some t)
    by (apply cleaned_lookup; auto).
  destruct ev as [rnd req|req|req|rnd]; unfold handle, bind, ret.
  - pose proof (challenge_usedNonces clock rnd req s) as E.
    destruct (challenge clock rnd req s); simpl in *. rewrite E. exact H0.
  - pose proof (verify_usedNonces clock req s) as E. cbv zeta in E.
    destruct (verify clock req s) as [r s1]; simpl in *.
    destruct E as [(_ & n' & t' & _ & Hfree & ->) | (_ & ->)]; [|exact H0].
    rewrite lookup_insert_ne; [exact H0|].
    intros ->. rewrite H0 in Hfree. discriminate Hfree.
  - pose proof (protected_state clock req s) as (_ & _ & E & _).
    destruct (protected clock req s); simpl in *. rewrite E. exact Hn.
  - exact Hn.
Qed.

Lemma run_keeps_record clock evs : forall s n t,
  nondecreasing clock ->
  usedNonces s !! n = Some t -> clock (ticks (run clock evs s).2) - t <= NONCE_TTL ->
  usedNonces (run clock evs s).2 !! n = Some t.
Proof.
  induction evs as [|ev rest IH]; intros s n t Hmono Hn; simpl; [auto|].
  unfold bind, ret.
  pose proof (handle_ticks clock ev s) as T1.
  pose proof (handle_keeps_record clock ev s n t Hn) as K.
  destruct (handle clock ev s) as [r s1]. simpl in T1, K.
  pose proof (run_ticks clock rest s1) as T2.
  specialize (IH s1 n t Hmono).
  destruct (run clock rest s1) as [rs s2]. simpl in *.
  intros Hlive. apply IH; [|exact Hlive].
  apply K. pose proof (Hmono (ticks s) (ticks s2)). lia.
Qed.

(** C3 (as amended). For a /verify body whose fields are strings: when the
    submission passes the proof-of-work checks, i.e. is answered with a token
    or with [shadow_throttled], its nonce is recorded with the [Date.now()]
    reading taken for it (the last reading of the call, or the one before the
    token's [exp] reading). The same request sent again is answered with the
    replay rejection provided the reading at the start of the second call is
    at most [NONCE_TTL] after the recorded one: directly, and also after any
    other requests and rotations in between when the clock never runs
    backwards. *)
Theorem C3_second_submission_within_ttl_is_replay
    (clock : nat -> Z) (req : Request) (s : Server) (n : string) :
  nonce req = Some n ->
  let first := verify clock req s in
  is_token first.1 \/ first.1 = SHADOW_THROTTLED ->
  let recorded := clock (recording first) in
  usedNonces first.2 !! n = Some recorded /\
  (clock (ticks first.2) - recorded <= NONCE_TTL ->
     (verify clock req first.2).1 = REPLAY) /\
  (forall evs, nondecreasing clock ->
     let later := (run clock evs first.2).2 in
     clock (ticks later) - recorded <= NONCE_TTL ->
     (verify clock req later).1 = REPLAY).
Proof.
  intros En first Hacc recorded.
  destruct (verify_recorded clock req s n En Hacc) as (Hwf & Ht).
  fold first in Ht. fold recorded in Ht.
  split; [exact Ht|]. split.
  - intros Hlive.
    rewrite (verify_replay clock req _ n recorded Hwf En Ht Hlive). reflexivity.
  - intros evs Hmono later Hlive.
    pose proof (run_keeps_record clock evs first.2 n recorded Hmono Ht Hlive) as Hl.
    fold later in Hl.
    rewrite (verify_replay clock req _ n recorded Hwf En Hl Hlive). reflexivity.
Qed.


Lemma steady_nondecreasing : nondecreasing Run.steady.
Proof. intros i j H. unfold Run.steady. lia. Qed.

Lemma C3_witness :
  let first := verify Run.steady Run.first_request (boot Run.secret) in
  usedNonces first.2 !! "n1" = Some 1004 /\
  (verify Run.steady Run.first_request first.2).1 = REPLAY /\
  (verify Run.steady Run.first_request (run Run.steady traffic first.2).2).1 = REPLAY.
Proof.
  cbv zeta.
  destruct (C3_second_submission_within_ttl_is_replay Run.steady Run.first_request
              (boot Run.secret) "n1" eq_refl) as (Hrec & Hdirect & Hlater).
  - left. eexists _, _. vm_compute. reflexivity.
  - split; [|split].
    + rewrite Hrec. vm_compute. reflexivity.
    + apply Hdirect. vm_compute. discriminate.
    + apply (Hlater traffic steady_nondecreasing). vm_compute. discriminate.
Defined.

(** The same solved submission sent twice, the second time a little over
    two minutes after the first: both are answered with a token. *)
Lemma C3_counterexample :
  let clock := Run.paused 6 121000 in
  let first := verify clock Run.first_request (boot Run.secret) in
  let second := verify clock Run.first_request first.2 in
  hash Run.first_request =
    Some "0006ed063630af94fd94d1cc0491ac86008ee76253f955fc35bfae9d8d242e46" /\
  first.1 = Reply 200 (TokenBody (mkPayload "abc" "203.0.113.9" 61005 1)
    "3003403fc5195acc44dd745201239abb01336f266e0055f873ff42665ef62447") /\
  second.1 = Reply 200 (TokenBody (mkPayload "abc" "203.0.113.9" 182010 1)
    "671af57c7dd4cad0af6b95f1b150c76816a73a275dc02d1216fa81b72cbfcc13") /\
  second.1 <> REPLAY.
Proof.
  cbv zeta. split; [vm_compute; reflexivity|]. split; [vm_compute; reflexivity|].
  split; [vm_compute; reflexivity|]. vm_compute. discriminate.
Qed.


(** ** Challenge presence and binding (C2) *)

(** In the adaptive engine /challenge stores nothing, and /verify accepts a
    solved submission for a nonce that no /challenge call produced. *)
Lemma C2_counterexample :
  usedNonces (boot Run.secret) = ∅ /\
  (verify Run.steady Run.first_request (boot Run.secret)).1 =
    Reply 200 (TokenBody (mkPayload "abc" "203.0.113.9" 61005 1)
      "3003403fc5195acc44dd745201239abb01336f266e0055f873ff42665ef62447").
Proof. split; [reflexivity | vm_compute; reflexivity]. Qed.

Lemma nexus_no_invalid_challenge clock req s :
  (verify clock req s).1 <> Reply 403 (Error "Invalid challenge").
Proof.
  rewrite verify_eq. cbv zeta. repeat case_match; simpl; discriminate.
Qed.

(** C2 (as amended). The two servers that keep a challenge store reject a
    /verify request with "Invalid challenge", changing nothing: server.js
    when the named challenge is not in Redis or is stored for another IP than
    the requester's, secureAntiBot.js when the named challenge is not in
    [activeChallenges] (it records no binding). The adaptive engine keeps no
    challenge store: it never gives that answer, and the state its /challenge
    leaves behind is the same whichever nonce was drawn for the answer. *)
Theorem C2_unknown_or_foreign_challenge_rejected
    (clock : nat -> Z) (req : IpBound.Request) :
  (forall s : Enterprise.Server,
     let stored := Enterprise.challenges (Enterprise.redis s)
                     !! to_str (IpBound.r_challenge req) in
     stored = None \/ (exists other, stored = Some other /\ other <> IpBound.r_ip req) ->
     Enterprise.verify clock req s = (IpBound.INVALID_CHALLENGE, s)) /\
  (forall s : SecureAntiBot.Server,
     (forall c, IpBound.r_challenge req = Some c ->
                SecureAntiBot.activeChallenges s !! c = None) ->
     SecureAntiBot.verify clock req s = (IpBound.INVALID_CHALLENGE, s)) /\
  (forall clock' req' s', (verify clock' req' s').1 <> Reply 403 (Error "Invalid challenge")) /\
  (forall clock' rnd rnd' req' s',
     (challenge clock' rnd req' s').2 = (challenge clock' rnd' req' s').2).
Proof.
  split; [|split; [|split; [exact nexus_no_invalid_challenge|]]].
  - intros s stored H. unfold Enterprise.verify, bind, gets, ret. fold stored.
    rewrite (bool_decide_eq_false_2 (stored = Some (IpBound.r_ip req))); [reflexivity|].
    destruct H as [-> | (other & -> & Hne)]; congruence.
  - intros s H. unfold SecureAntiBot.verify, bind, gets, ret.
    destruct (IpBound.r_challenge req) as [c|]; [|reflexivity].
    simpl. rewrite (H c eq_refl). reflexivity.
  - intros clock' rnd rnd' req' s'. rewrite !challenge_eq. cbv zeta.
    destruct (fingerprintHash req') as [[|a fp]|]; try reflexivity.
    destruct (getTrustState clock' (String a fp) (cleaned (clock' (ticks s')) s')).
    reflexivity.
Qed.

Lemma C2_witness :
  Enterprise.verify Run.steady Run.stray Run.redis_server =
    (IpBound.INVALID_CHALLENGE, Run.redis_server) /\
  SecureAntiBot.verify Run.steady Run.stray (SecureAntiBot.boot Run.secret) =
    (IpBound.INVALID_CHALLENGE, SecureAntiBot.boot Run.secret).
Proof.
  split.
  - apply (C2_unknown_or_foreign_challenge_rejected Run.steady Run.stray).
    right. exists "198.51.100.7". split; [vm_compute; reflexivity | discriminate].
  - apply (C2_unknown_or_foreign_challenge_rejected Run.steady Run.stray).
    intros c E. injection E as <-. vm_compute. reflexivity.
Defined.

(** ** Tokens (C7, C8, C10) *)

(** What a token answer of /verify contains. *)
Lemma verify_token clock req s p sg :
  (verify clock req s).1 = Reply 200 (TokenBody p sg) ->
  sg = hex_of_bytes (hmac_sha256 (SECRET s) (bytes_of_string (stringify p))) /\
  p_ip p = ip req /\ p_v p = SECRET_VERSION s /\
  p_exp p = clock (pred (ticks (verify clock req s).2)) + TOKEN_TTL /\
  SECRET (verify clock req s).2 = SECRET s /\
  SECRET_VERSION (verify clock req s).2 = SECRET_VERSION s.
Proof.
  rewrite verify_eq. cbv zeta.
  repeat case_match; simpl; intros E; try discriminate E.
  injection E as <- <-.
  match goal with
  | E1 : getTrustState _ ?fp ?s0 = _, E2 : computeRisk _ _ _ ?s1 = _ |- _ =>
      pose proof (getTrustState_facts clock fp s0) as F; rewrite E1 in F; simpl in F;
      destruct F as (F1 & F2 & _);
      pose proof (computeRisk_facts clock req fp s1) as G; rewrite E2 in G; simpl in G;
      destruct G as (G1 & G2 & _)
  end.
  rewrite G1, G2, F1, F2. repeat split; reflexivity.
Qed.

Lemma protected_with_mac clock req s p :
  payload req = Some p ->
  signature req =
    Some (hex_of_bytes (hmac_sha256 (SECRET s) (bytes_of_string (stringify p)))) ->
  (protected clock req s).1 =
    if clock (ticks s) >? p_exp p then EXPIRED
    else if negb (String.eqb (p_ip p) (ip req)) then IDENTITY_MISMATCH else VALID.
Proof.
  intros Ep Es. rewrite protected_eq, Ep, Es.
  pose proof (mac_hex_length (SECRET s) (bytes_of_string (stringify p))) as L.
  destruct (hex_of_bytes _) as [|c r] eqn:E; [discriminate L|].
  cbn [falsy]. rewrite timingSafeEqual_same.
  repeat case_match; reflexivity.
Qed.

Lemma protected_with_other_signature clock req s p sg :
  payload req = Some p -> signature req = Some sg ->
  String.length sg = 64%nat ->
  sg <> hex_of_bytes (hmac_sha256 (SECRET s) (bytes_of_string (stringify p))) ->
  (protected clock req s).1 = BAD_SIGNATURE.
Proof.
  intros Ep Es L Hne. rewrite protected_eq, Ep, Es.
  destruct sg as [|c r]; [discriminate L|]. cbn [falsy].
  rewrite timingSafeEqual_differ; [reflexivity| |].
  - rewrite !bytes_of_string_length, mac_hex_length. exact L.
  - intros E. apply Hne. apply bytes_of_string_inj. exact E.
Qed.

(** C7. A token issued by /verify carries [exp = now + TOKEN_TTL], [now]
    being the clock reading at issue. Presented to /protected from the same
    IP while the secret is unchanged, it is accepted at every time up to
    [exp] (so at [now + 1]), answered "Token expired" at every later time,
    and answered "Invalid signature" when the signature is replaced by a
    different string of the same length. *)
Theorem C7_token_round_trip
    (clock clock' : nat -> Z) (req preq : Request) (s s' : Server)
    (p : Payload) (sg : string) :
  (verify clock req s).1 = Reply 200 (TokenBody p sg) ->
  SECRET s' = SECRET (verify clock req s).2 ->
  payload preq = Some p -> ip preq = ip req ->
  let now := clock (pred (ticks (verify clock req s).2)) in
  let t := clock' (ticks s') in
  p_exp p = now + TOKEN_TTL /\
  (signature preq = Some sg -> t = now + 1 -> (protected clock' preq s').1 = VALID) /\
  (signature preq = Some sg -> t <= now + TOKEN_TTL -> (protected clock' preq s').1 = VALID) /\
  (signature preq = Some sg -> t > now + TOKEN_TTL -> (protected clock' preq s').1 = EXPIRED) /\
  (forall sg', signature preq = Some sg' -> sg' <> sg ->
     String.length sg' = String.length sg ->
     (protected clock' preq s').1 = BAD_SIGNATURE).
Proof.
  intros Etok Esec Ep Eip now t.
  destruct (verify_token clock req s p sg Etok) as (Esg & Hip & _ & Hexp & Hs & _).
  rewrite Hs in Esec.
  assert (Hvalid : signature preq = Some sg -> t <= now + TOKEN_TTL ->
                   (protected clock' preq s').1 = VALID).
  { intros Es Ht. rewrite (protected_with_mac clock' preq s' p Ep); [|rewrite Es, Esec, Esg; reflexivity].
    fold t. rewrite Hexp. fold now.
    destruct (Z.gtb_spec t (now + TOKEN_TTL)) as [Hgt|_]; [lia|].
    rewrite Hip, Eip, String.eqb_refl. reflexivity. }
  split; [exact Hexp|]. split; [|split; [exact Hvalid|split]].
  - intros Es Ht. apply Hvalid; [exact Es | unfold TOKEN_TTL; lia].
  - intros Es Ht. rewrite (protected_with_mac clock' preq s' p Ep); [|rewrite Es, Esec, Esg; reflexivity].
    fold t. rewrite Hexp. fold now.
    destruct (Z.gtb_spec t (now + TOKEN_TTL)) as [_|Hle]; [reflexivity | lia].
  - intros sg' Es Hne Hlen.
    apply (protected_with_other_signature clock' preq s' p sg' Ep Es).
    + rewrite Hlen, Esg. apply mac_hex_length.
    + rewrite Esec, <- Esg. exact Hne.
Qed.

Lemma C7_witness :
  (protected Run.steady (Run.present Run.token Run.mac)
     (verify Run.steady Run.first_request (boot Run.secret)).2).1 = VALID.
Proof.
  destruct (C7_token_round_trip Run.steady Run.steady Run.first_request
              (Run.present Run.token Run.mac) (boot Run.secret)
              (verify Run.steady Run.first_request (boot Run.secret)).2 Run.token Run.mac)
    as (_ & Hnext & _).
  - vm_compute. reflexivity.
  - reflexivity.
  - reflexivity.
  - reflexivity.
  - apply Hnext; [reflexivity | vm_compute; reflexivity].
Defined.

(** C8. A token issued while [SECRET_VERSION] is 1 carries [v = 1]. Once
    the rotation timer has replaced the secret (version 2), /protected
    answers a request presenting that token with "Invalid signature", at
    every time (before [exp] as well as after) and from every address,
    provided the new secret does not yield the same MAC for the payload: the
    signature is recomputed with the current secret only, [v] is not
    consulted, and the signature check precedes the expiry check. *)
Theorem C8_rotation_invalidates_token
    (clock clock' : nat -> Z) (req preq : Request) (s : Server)
    (p : Payload) (sg : string) (rnd : list Z) :
  SECRET_VERSION s = 1 ->
  (verify clock req s).1 = Reply 200 (TokenBody p sg) ->
  hex_of_bytes (hmac_sha256 rnd (bytes_of_string (stringify p))) <> sg ->
  payload preq = Some p -> signature preq = Some sg ->
  let s2 := (rotate rnd (verify clock req s).2).2 in
  p_v p = 1 /\ SECRET_VERSION s2 = 2 /\
  (protected clock' preq s2).1 = BAD_SIGNATURE /\
  (protected clock' preq s2).1 <> EXPIRED.
Proof.
  intros Hv Etok Hmac Ep Es s2.
  destruct (verify_token clock req s p sg Etok) as (Esg & _ & Hpv & _ & _ & Hsv).
  assert (Hbad : (protected clock' preq s2).1 = BAD_SIGNATURE).
  { apply (protected_with_other_signature clock' preq s2 p sg Ep Es).
    - rewrite Esg. apply mac_hex_length.
    - intros E. apply Hmac. symmetry. exact E. }
  split; [congruence|]. split; [unfold s2, rotate, modify; simpl; rewrite Hsv, Hv; reflexivity|].
  split; [exact Hbad|]. rewrite Hbad. discriminate.
Qed.

Lemma C8_witness :
  (protected Run.steady (Run.present Run.token Run.mac)
     (rotate Run.rotated (verify Run.steady Run.first_request (boot Run.secret)).2).2).1
  = BAD_SIGNATURE.
Proof.
  apply (C8_rotation_invalidates_token Run.steady Run.steady Run.first_request
           (Run.present Run.token Run.mac) (boot Run.secret) Run.token Run.mac Run.rotated).
  - reflexivity.
  - vm_compute. reflexivity.
  - vm_compute. discriminate.
  - reflexivity.
  - reflexivity.
Defined.

(** C10. [verifySignature] returns a boolean exactly for signatures of 64
    bytes, the length of the hexadecimal HMAC-SHA-256 digest; for any other
    length [crypto.timingSafeEqual] throws. A /protected request presenting a
    payload and a non-empty signature of another length therefore ends in an
    uncaught exception, not in the 403 "Invalid signature" answer; the same
    holds for the /protected handlers of secureAntiBot.js and server.js. *)
Theorem C10_signature_length_mismatch_throws
    (clock : nat -> Z) (req : Request) (s : Server) (p : Payload) (sg : string) :
  payload req = Some p -> signature req = Some sg ->
  sg <> EmptyString -> String.length sg <> 64%nat ->
  (verifySignature p sg s).1 = None /\
  (protected clock req s).1 =
    Uncaught "RangeError: Input buffers must have the same byte length" /\
  (protected clock req s).1 <> BAD_SIGNATURE /\
  (forall p' sg' s', (exists b, (verifySignature p' sg' s').1 = Some b) <->
                     String.length sg' = 64%nat) /\
  (forall secret key t sg', (exists b, IpBound.verifySignature secret key t sg' = Some b) <->
                            String.length sg' = 64%nat) /\
  (forall (ireq : IpBound.Request) t (s1 : SecureAntiBot.Server) (s2 : Enterprise.Server),
     IpBound.r_token ireq = Some t -> IpBound.r_signature ireq = Some sg ->
     (SecureAntiBot.protected clock ireq s1).1 =
       IpBound.Uncaught "RangeError: Input buffers must have the same byte length" /\
     (Enterprise.protected clock ireq s2).1 =
       IpBound.Uncaught "RangeError: Input buffers must have the same byte length").
Proof.
  intros Ep Es Hne Hlen.
  assert (T : forall key msg, timingSafeEqual (bytes_of_string sg)
                (bytes_of_string (hex_of_bytes (hmac_sha256 key msg))) = None).
  { intros key msg. apply timingSafeEqual_throws.
    rewrite !bytes_of_string_length, mac_hex_length. exact Hlen. }
  assert (I : forall sg' key msg,
             (exists b, timingSafeEqual (bytes_of_string sg')
                (bytes_of_string (hex_of_bytes (hmac_sha256 key msg))) = Some b) <->
             String.length sg' = 64%nat).
  { intros sg' key msg. unfold timingSafeEqual.
    rewrite !bytes_of_string_length, mac_hex_length.
    destruct (Nat.eqb_spec (String.length sg') 64) as [E|E]; split.
    - intros _. exact E.
    - intros _. eexists. reflexivity.
    - intros [b Hb]. discriminate Hb.
    - intros E'. contradiction. }
  assert (P : (protected clock req s).1 =
              Uncaught "RangeError: Input buffers must have the same byte length").
  { rewrite protected_eq, Ep, Es. destruct sg as [|c r]; [contradiction|]. cbn [falsy].
    rewrite T. reflexivity. }
  split; [exact (T (SECRET s) (bytes_of_string (stringify p)))|].
  split; [exact P|]. split; [rewrite P; discriminate|].
  split; [intros p' sg' s'; apply I|]. split; [intros secret key t sg'; apply I|].
  intros ireq t s1 s2 Et Esg.
  unfold SecureAntiBot.protected, Enterprise.protected, IpBound.verifySignature, IpBound.sign,
    bind, gets, ret.
  rewrite Et, Esg.
  rewrite !T. split; reflexivity.
Qed.

Lemma C10_witness :
  (protected Run.steady (Run.present Run.token "3003403f")
     (verify Run.steady Run.first_request (boot Run.secret)).2).1 =
  Uncaught "RangeError: Input buffers must have the same byte length".
Proof.
  apply (C10_signature_length_mismatch_throws Run.steady (Run.present Run.token "3003403f")
           (verify Run.steady Run.first_request (boot Run.secret)).2 Run.token "3003403f").
  - reflexivity.
  - reflexivity.
  - discriminate.
  - simpl. lia.
Defined.

(** ** Decay before the difficulty is re-derived (C4) *)

Lemma verify_difficulty_from_stored_score clock req s fp state :
  fingerprintHash req = Some fp -> trustMemory s !! fp = Some state ->
  (verify clock req s).1 = DIFFICULTY_FAIL ->
  (exists h, hash req = Some h /\
             startsWith h (zeros (difficulty_of (score state))) = false) /\
  trustMemory (verify clock req s).2 = trustMemory s.
Proof.
  intros Efp Est. rewrite verify_eq. cbv zeta. rewrite Efp.
  rewrite getTrustState_eq.
  change (trustMemory (cleaned (clock (ticks s)) s)) with (trustMemory s). rewrite Est.
  repeat case_match; simpl; intros E; try discriminate E.
  split; [|reflexivity]. eexists. split; [reflexivity|].
  match goal with H : negb _ = true |- _ => apply negb_true_iff in H; exact H end.
Qed.

(** C4 (the code departs from it). The scripted client of [Run.warmup] has
    stored score 1.05 when it goes quiet; 399 s later its score decayed to
    the time of the call is about 0.52, so that /challenge, which decays
    first, asks for difficulty 3. /verify instead reads the stored score
    without decaying it, demands difficulty 4 and rejects a correct solution
    with exactly three leading zeros; the same submission is accepted once
    /challenge has run and written the decayed score back. Whenever /verify
    answers "PoW difficulty fail" for a known fingerprint, the difficulty was
    taken from the stored score and the trust memory has not been touched. *)
Theorem C4_verify_reads_score_without_decay :
  let clock := Run.paused 16 399000 in
  let s := (run clock Run.warmup (boot Run.secret)).2 in
  (exists state, trustMemory s !! "abc" = Some state /\
     difficulty_of (score state) = 4 /\
     difficulty_of (score (decay state (clock (ticks s)))) = 3) /\
  hash Run.after_pause =
    Some "000d4bcb927411d017bed1c001a18446e16bd49a7afb9f58d1ac6b76c9b940a3" /\
  (verify clock Run.after_pause s).1 = DIFFICULTY_FAIL /\
  (challenge clock (repeat 1 16%nat) Run.after_pause s).1 =
    Reply 200 (ChallengeBody "01010101010101010101010101010101" 3 1) /\
  is_token (verify clock Run.after_pause
              (challenge clock (repeat 1 16%nat) Run.after_pause s).2).1 /\
  (forall clock' req s' fp state,
     fingerprintHash req = Some fp -> trustMemory s' !! fp = Some state ->
     (verify clock' req s').1 = DIFFICULTY_FAIL ->
     (exists h, hash req = Some h /\
                startsWith h (zeros (difficulty_of (score state))) = false) /\
     trustMemory (verify clock' req s').2 = trustMemory s').
Proof.
  cbv zeta. split.
  { eexists. split; [vm_compute; reflexivity|]. split; vm_compute; reflexivity. }
  split; [vm_compute; reflexivity|]. split; [vm_compute; reflexivity|].
  split; [vm_compute; reflexivity|].
  split; [eexists _, _; vm_compute; reflexivity|].
  exact verify_difficulty_from_stored_score.
Qed.

(** * Further properties of the adaptive engine (src/5.js) *)

Import Trace.

(** ** Answers of /verify *)

(** For a body whose four fields are strings: in every state the process
    can reach /verify does not throw, and its answer is one of: malformed,
    replay, invalid hash, difficulty fail, shadow-throttled, or a token. *)
Lemma verify_answers_when_reachable (clock : nat -> Z) (req : Request) (s : Server) :
  reachable clock s -> verify_answer (verify clock req s).1.
Proof.
  intros Hreach. pose proof (reachable_nonneg clock s Hreach) as H.
  assert (H0 : scores_nonneg (cleaned (clock (ticks s)) s)) by exact H.
  unfold verify_answer. rewrite verify_eq. cbv zeta.
  repeat case_match; simpl; eauto 10.
  - exfalso.
    match goal with
    | E : getTrustState _ ?fp ?s0 = _ |- _ =>
        pose proof (getTrustState_facts clock fp s0) as F; rewrite E in F; simpl in F;
        destruct F as (_ & _ & _ & _ & F); destruct (F H0) as [_ Hs]
    end.
    pose proof (difficulty_of_bounds _ Hs) as B. unfold BASE_DIFFICULTY in B.
    match goal with Hd : (_ <? 0) = true |- _ => apply Z.ltb_lt in Hd; lia end.
  - exfalso. eapply (verify_never_high_risk clock req s).
    rewrite verify_eq. cbv zeta.
    repeat match goal with E : _ = _ |- _ => rewrite E end. reflexivity.
Qed.

(** ** The used-nonce store under /verify *)

(** X2. /verify changes the used-nonce store in two ways only: records older
    than [NONCE_TTL] at the first clock reading are dropped, and the
    submitted nonce is recorded when the submission is accepted (token or
    shadow-throttled). A rejected submission never records its nonce, and no
    younger record is lost. *)
Theorem verify_nonce_store (clock : nat -> Z) (req : Request) (s : Server) (k : string) (t : Z) :
  (usedNonces (verify clock req s).2 !! k = Some t ->
     (usedNonces s !! k = Some t /\ clock (ticks s) - t <= NONCE_TTL) \/
     (nonce req = Some k /\
      (is_token (verify clock req s).1 \/ (verify clock req s).1 = SHADOW_THROTTLED))) /\
  (usedNonces s !! k = Some t -> clock (ticks s) - t <= NONCE_TTL ->
     usedNonces (verify clock req s).2 !! k = Some t) /\
  (~ (is_token (verify clock req s).1 \/ (verify clock req s).1 = SHADOW_THROTTLED) ->
     usedNonces (verify clock req s).2 !! k = None \/
     usedNonces (verify clock req s).2 !! k = usedNonces s !! k).
Proof.
  destruct (verify_usedNonces clock req s) as [(Hacc & n & t' & En & Hn & E)|(Hrej & E)];
    rewrite E.
  - split; [|split].
    + intros H. apply lookup_insert_Some in H as [[<- _]|[_ H]].
      * right. split; assumption.
      * left. apply cleaned_lookup. exact H.
    + intros H1 H2.
      assert (Hc : usedNonces (cleaned (clock (ticks s)) s) !! k = Some t)
        by (apply cleaned_lookup; split; assumption).
      rewrite lookup_insert_ne; [exact Hc | congruence].
    + intros H. contradiction.
  - split; [|split].
    + intros H. left. apply cleaned_lookup. exact H.
    + intros H1 H2. apply cleaned_lookup. split; assumption.
    + intros _. destruct (usedNonces (cleaned (clock (ticks s)) s) !! k) as [t0|] eqn:Ek;
        [|left; reflexivity].
      right. apply cleaned_lookup in Ek as [Ek _]. rewrite Ek. reflexivity.
Qed.

Lemma verify_nonce_store_witness :
  usedNonces (verify Run.steady Run.first_request
                (verify Run.steady Run.first_request (boot Run.secret)).2).2 !! "n1"
  = Some 1004.
Proof.
  apply (verify_nonce_store Run.steady Run.first_request
           (verify Run.steady Run.first_request (boot Run.secret)).2 "n1" 1004).
  - vm_compute. reflexivity.
  - vm_compute. discriminate.
Defined.

(** ** The trust memory under /verify *)

Lemma getTrustState_other clock fp s k :
  k <> fp -> trustMemory (getTrustState clock fp s).2 !! k = trustMemory s !! k.
Proof.
  intros Hne. rewrite getTrustState_eq.
  destruct (trustMemory s !! fp); simpl; [reflexivity|].
  apply lookup_insert_ne. congruence.
Qed.

Lemma computeRisk_other clock req fp s k :
  k <> fp -> trustMemory (computeRisk clock req fp s).2 !! k = trustMemory s !! k.
Proof.
  intros Hne. rewrite computeRisk_eq.
  pose proof (getTrustState_other clock fp s k Hne) as F.
  destruct (getTrustState clock fp s) as [st s1]. simpl in *.
  rewrite !lookup_insert_ne by congruence. exact F.
Qed.

(** The entry of the submitting fingerprint after an accepted submission:
    decayed, its window advanced, the increment added, and halved unless the
    risk is above 3. *)
Lemma verify_accepted_state clock req s fp :
  fingerprintHash req = Some fp ->
  is_token (verify clock req s).1 \/ (verify clock req s).1 = SHADOW_THROTTLED ->
  exists st0 s1,
    getTrustState clock fp (cleaned (clock (ticks s)) s) = (st0, s1) /\
    let st1 := decay st0 (clock (ticks s1)) in
    let times := window st1 (clock (S (ticks s1))) in
    let risk := (score st1 + increment req (length times))%Q in
    (Qgtb risk 3 = true -> (verify clock req s).1 = SHADOW_THROTTLED /\
       trustMemory (verify clock req s).2 !! fp = Some (mkTrust risk (lastSeen st1) times)) /\
    (Qgtb risk 3 = false -> is_token (verify clock req s).1 /\
       trustMemory (verify clock req s).2 !! fp =
         Some (mkTrust (risk * 0.5)%Q (lastSeen st1) times)).
Proof.
  intros Efp. rewrite verify_eq. cbv zeta. rewrite Efp. unfold is_token.
  destruct (nonce req) as [n|]; [|intros [(p & sg & E)|E]; discriminate E].
  destruct (counter req) as [c|]; [|intros [(p & sg & E)|E]; discriminate E].
  destruct (hash req) as [h|]; [|intros [(p & sg & E)|E]; discriminate E].
  destruct (falsy (Some fp) || falsy (Some n) || falsy (Some h));
    [intros [(p & sg & E)|E]; discriminate E|].
  destruct (bool_decide _); [intros [(p & sg & E)|E]; discriminate E|].
  destruct (negb _); [intros [(p & sg & E)|E]; discriminate E|].
  destruct (getTrustState clock fp (cleaned (clock (ticks s)) s)) as [st0 s1] eqn:E0.
  destruct (difficulty_of (score st0) <? 0); [intros [(p & sg & E)|E]; discriminate E|].
  destruct (negb _); [intros [(p & sg & E)|E]; discriminate E|].
  rewrite computeRisk_eq, getTrustState_eq.
  pose proof (getTrustState_facts clock fp (cleaned (clock (ticks s)) s)) as F.
  rewrite E0 in F. simpl in F. destruct F as (_ & _ & _ & F & _). rewrite F.
  cbv zeta. intros _. exists st0, s1. split; [reflexivity|]. cbv zeta.
  set (st1 := decay st0 (clock (ticks s1))).
  set (times := window st1 (clock (S (ticks s1)))).
  set (risk := (score st1 + increment req (length times))%Q).
  change (score (mkTrust risk (lastSeen st1) times)) with risk.
  destruct (Qgtb risk 3) eqn:H3.
  - split; [|discriminate]. intros _. split; [reflexivity|]. simpl. apply lookup_insert_eq.
  - split; [discriminate|]. intros _.
    destruct (Qgtb risk 5) eqn:H5; [destruct (not_both_thresholds risk H3 H5)|].
    simpl. split; [eauto|].
    rewrite lookup_alter_eq, lookup_insert_eq. reflexivity.
Qed.

(** X3. A token answer leaves the fingerprint's stored score at half the risk,
    hence at most 1.5: submitting again right away, it is asked for
    difficulty 4 at most. A shadow-throttled answer leaves the stored score
    at the risk, above 3, with no discount: whenever /verify next reads
    that stored score it demands difficulty 6. *)
Theorem verify_score_after_answer (clock : nat -> Z) (req : Request) (s : Server) (fp : string) :
  fingerprintHash req = Some fp ->
  (is_token (verify clock req s).1 ->
     exists st, trustMemory (verify clock req s).2 !! fp = Some st /\
                (score st <= 1.5)%Q /\ difficulty_of (score st) <= 4) /\
  ((verify clock req s).1 = SHADOW_THROTTLED ->
     exists st, trustMemory (verify clock req s).2 !! fp = Some st /\
                (3 < score st)%Q /\ difficulty_of (score st) = 6).
Proof.
  intros Efp. split; intros Hr.
  - destruct (verify_accepted_state clock req s fp Efp (or_introl Hr))
      as (st0 & s1 & _ & Hsh & Htok). cbv zeta in *.
    destruct (Qgtb _ 3) eqn:H3.
    + destruct (Hsh eq_refl) as [E _]. destruct Hr as (p & sg & Hr).
      rewrite E in Hr. discriminate Hr.
    + destruct (Htok eq_refl) as [_ E]. eexists. split; [exact E|].
      apply Qgtb_false in H3. cbn [score].
      match goal with |- (?x * 0.5 <= _)%Q /\ _ => assert (Hx : (x * 0.5 <= 1.5)%Q) by lra end.
      split; [exact Hx|].
      unfold difficulty_of, BASE_DIFFICULTY.
      pose proof (Qfloor_resp_le _ _ Hx) as Hf. change (Qfloor 1.5) with 1 in Hf. lia.
  - destruct (verify_accepted_state clock req s fp Efp (or_intror Hr))
      as (st0 & s1 & _ & Hsh & Htok). cbv zeta in *.
    destruct (Qgtb _ 3) eqn:H3.
    + destruct (Hsh eq_refl) as [_ E]. eexists. split; [exact E|].
      apply Qgtb_true in H3. cbn [score]. split; [exact H3|].
      unfold difficulty_of, BASE_DIFFICULTY.
      pose proof (Qfloor_resp_le _ _ (Qlt_le_weak _ _ H3)) as Hf.
      change (Qfloor 3) with 3 in Hf. lia.
    + destruct (Htok eq_refl) as [(p & sg & E) _]. rewrite E in Hr. discriminate Hr.
Qed.

Lemma verify_score_after_answer_witness :
  exists st,
    trustMemory (verify Run.steady Run.first_request (boot Run.secret)).2 !! "abc" = Some st /\
    (score st <= 1.5)%Q /\ difficulty_of (score st) <= 4.
Proof.
  apply (verify_score_after_answer Run.steady Run.first_request (boot Run.secret) "abc").
  - reflexivity.
  - eexists _, _. vm_compute. reflexivity.
Defined.

(** X4. /verify touches the trust state of the submitting fingerprint only; an
    answer of malformed, replay or invalid hash touches none; an answer of
    difficulty fail changes nothing for a known fingerprint and, for an
    unknown one, leaves behind a fresh entry with score 0. *)
Theorem verify_trust_frame (clock : nat -> Z) (req : Request) (s : Server) :
  (forall k, fingerprintHash req <> Some k ->
     trustMemory (verify clock req s).2 !! k = trustMemory s !! k) /\
  ((verify clock req s).1 = MALFORMED \/ (verify clock req s).1 = REPLAY \/
   (verify clock req s).1 = INVALID_POW ->
     trustMemory (verify clock req s).2 = trustMemory s) /\
  ((verify clock req s).1 = DIFFICULTY_FAIL ->
     exists fp, fingerprintHash req = Some fp /\
       trustMemory (verify clock req s).2 =
         match trustMemory s !! fp with
         | Some _ => trustMemory s
         | None => <[fp := mkTrust 0 (clock (S (ticks s))) []]> (trustMemory s)
         end).
Proof.
  rewrite verify_eq. cbv zeta.
  destruct (fingerprintHash req) as [fp|];
    [|repeat split; try reflexivity; intros E; discriminate E].
  destruct (nonce req) as [n|];
    [|repeat split; try reflexivity; intros E; discriminate E].
  destruct (counter req) as [c|];
    [|repeat split; try reflexivity; intros E; discriminate E].
  destruct (hash req) as [h|];
    [|repeat split; try reflexivity; intros E; discriminate E].
  destruct (falsy (Some fp) || falsy (Some n) || falsy (Some h));
    [repeat split; try reflexivity; intros E; discriminate E|].
  destruct (bool_decide _);
    [repeat split; try reflexivity; intros E; discriminate E|].
  destruct (negb _);
    [repeat split; try reflexivity; intros E; discriminate E|].
  pose proof (fun k H => getTrustState_other clock fp (cleaned (clock (ticks s)) s) k H) as O1.
  pose proof (getTrustState_eq clock fp (cleaned (clock (ticks s)) s)) as E0.
  destruct (getTrustState clock fp (cleaned (clock (ticks s)) s)) as [st0 s1].
  simpl in O1.
  change (trustMemory (cleaned (clock (ticks s)) s)) with (trustMemory s) in *.
  change (ticks (cleaned (clock (ticks s)) s)) with (S (ticks s)) in *.
  assert (Hfail : (forall k, Some fp <> Some k -> trustMemory s1 !! k = trustMemory s !! k) /\
                  exists fp0, Some fp = Some fp0 /\
                    trustMemory s1 =
                      match trustMemory s !! fp0 with
                      | Some _ => trustMemory s
                      | None => <[fp0 := mkTrust 0 (clock (S (ticks s))) []]> (trustMemory s)
                      end).
  { split; [intros k Hk; apply O1; congruence|].
    exists fp. split; [reflexivity|].
    destruct (trustMemory s !! fp); injection E0 as _ ->; reflexivity. }
  destruct Hfail as [H1 H3].
  destruct (difficulty_of (score st0) <? 0).
  { split; [exact H1|]. split; [intros [E|[E|E]]; discriminate E | intros E; discriminate E]. }
  destruct (negb _).
  { split; [exact H1|]. split; [intros [E|[E|E]]; discriminate E | intros _; exact H3]. }
  pose proof (fun k H => computeRisk_other clock req fp s1 k H) as O2.
  destruct (computeRisk clock req fp s1) as [risk s2]. simpl in O2.
  assert (O : forall k, Some fp <> Some k -> trustMemory s2 !! k = trustMemory s !! k).
  { intros k Hk. rewrite O2, O1; congruence. }
  destruct (Qgtb risk 3);
    [split; [exact O|]; split; [intros [E|[E|E]]; discriminate E | intros E; discriminate E]|].
  destruct (Qgtb risk 5);
    [split; [exact O|]; split; [intros [E|[E|E]]; discriminate E | intros E; discriminate E]|].
  split; [|split; [intros [E|[E|E]]; discriminate E | intros E; discriminate E]].
  intros k Hk. simpl. rewrite lookup_alter_ne by congruence. apply O. exact Hk.
Qed.

Lemma verify_trust_frame_witness :
  trustMemory (verify Run.steady Run.first_request
                 (verify Run.steady Run.first_request (boot Run.secret)).2).2 =
  trustMemory (verify Run.steady Run.first_request (boot Run.secret)).2.
Proof.
  apply (verify_trust_frame Run.steady Run.first_request
           (verify Run.steady Run.first_request (boot Run.secret)).2).
  right. left. vm_compute. reflexivity.
Defined.

(** ** Trust states: creation, window, increment *)

(** X5. [getTrustState] creates the entry on first reference, with score 0, an
    empty window and the current reading as [lastSeen]; for a known
    fingerprint it reads no clock and changes nothing. Either way the entry
    is in the map afterwards, a second call returns it again without any
    effect, and no other fingerprint's entry is touched. *)
Theorem getTrustState_lazy_and_stable (clock : nat -> Z) (fp : string) (s : Server) :
  let r := getTrustState clock fp s in
  trustMemory r.2 !! fp = Some r.1 /\
  (trustMemory s !! fp = None ->
     r.1 = mkTrust 0 (clock (ticks s)) [] /\ ticks r.2 = S (ticks s)) /\
  (forall st, trustMemory s !! fp = Some st -> r = (st, s)) /\
  getTrustState clock fp r.2 = r /\
  (forall k, k <> fp -> trustMemory r.2 !! k = trustMemory s !! k).
Proof.
  cbv zeta. split; [apply getTrustState_facts|].
  split; [|split; [|split; [|intros k Hk; apply getTrustState_other; exact Hk]]].
  - intros E. rewrite getTrustState_eq, E. split; reflexivity.
  - intros st E. rewrite getTrustState_eq, E. reflexivity.
  - pose proof (getTrustState_facts clock fp s) as (_ & _ & _ & F & _).
    rewrite (getTrustState_eq clock fp (getTrustState clock fp s).2), F.
    destruct (getTrustState clock fp s); reflexivity.
Qed.

Lemma getTrustState_lazy_and_stable_witness :
  (getTrustState Run.steady "abc" (boot Run.secret)).1 = mkTrust 0 1000 [] /\
  ticks (getTrustState Run.steady "abc" (boot Run.secret)).2 = 1%nat.
Proof.
  apply (getTrustState_lazy_and_stable Run.steady "abc" (boot Run.secret)).
  reflexivity.
Defined.

Lemma filter_Forall_true (f : Z -> bool) (l : list Z) :
  Forall (fun t => f t = true) (List.filter f l).
Proof.
  induction l as [|a l IH]; simpl; [constructor|].
  destruct (f a) eqn:E; [constructor; assumption | assumption].
Qed.

Lemma window_last (st : TrustState) (now : Z) : last (window st now) = Some now.
Proof.
  unfold window. rewrite List.filter_app. simpl.
  replace (now - now <? 10000) with true by (symmetry; apply Z.ltb_lt; lia).
  apply last_snoc.
Qed.

Lemma window_length (st : TrustState) (now : Z) :
  (length (window st now) <= S (length (requestTimes st)))%nat.
Proof.
  unfold window. etransitivity; [apply List.filter_length_le|].
  rewrite length_app. simpl. lia.
Qed.

Lemma increment_le req n : (increment req n <= 1.7)%Q.
Proof. unfold increment. repeat case_match; lra. Qed.

Lemma increment_plain req n :
  plain_agent req -> (n <= 30)%nat -> increment req n = 0%Q.
Proof.
  intros (H1 & H2 & H3 & H4 & H5) Hn. unfold increment. cbv zeta.
  rewrite H1, H2, H3, H4, H5. simpl.
  replace (30 <? n)%nat with false; [reflexivity|].
  symmetry. apply Nat.ltb_ge. exact Hn.
Qed.

(** X6. [computeRisk] returns the score it stores. That score is the decayed
    score plus an increment between 0 and 1.7 (0 for a user agent matching no
    pattern while the window holds at most 30 entries). The stored window
    ends with the reading just taken and holds only readings less than 10 s
    older than it. *)
Theorem computeRisk_window_and_increment
    (clock : nat -> Z) (req : Request) (fp : string) (s : Server) :
  let g := getTrustState clock fp s in
  let base := score (decay g.1 (clock (ticks g.2))) in
  let r := computeRisk clock req fp s in
  let now := clock (pred (ticks r.2)) in
  exists st,
    trustMemory r.2 !! fp = Some st /\ r.1 = score st /\
    (base <= r.1 <= base + 1.7)%Q /\
    (plain_agent req -> (length (requestTimes st) <= 30)%nat -> (r.1 == base)%Q) /\
    Forall (fun t => now - t < 10000) (requestTimes st) /\
    last (requestTimes st) = Some now.
Proof.
  cbv zeta. rewrite computeRisk_eq.
  destruct (getTrustState clock fp s) as [st0 s1]. cbv zeta. simpl.
  eexists. split; [apply lookup_insert_eq|]. split; [reflexivity|]. simpl.
  set (st1 := decay st0 (clock (ticks s1))).
  change (Qmult (score st0) _) with (score st1).
  set (times := window st1 (clock (S (ticks s1)))).
  pose proof (increment_nonneg req (length times)) as H0.
  pose proof (increment_le req (length times)) as H1.
  split; [lra|]. split; [|split].
  - intros Hp Hn. rewrite (increment_plain req _ Hp Hn). lra.
  - unfold times, window.
    eapply Forall_impl; [apply filter_Forall_true|].
    intros t Ht. simpl in Ht. apply Z.ltb_lt in Ht. exact Ht.
  - apply window_last.
Qed.

Lemma computeRisk_window_and_increment_witness :
  ((computeRisk Run.steady Run.first_request "abc" (boot Run.secret)).1 == 0)%Q.
Proof.
  destruct (computeRisk_window_and_increment Run.steady Run.first_request "abc"
              (boot Run.secret)) as (st & E & _ & _ & H & _).
  vm_compute in E. injection E as <-.
  rewrite H.
  - vm_compute. reflexivity.
  - vm_compute. repeat split; reflexivity.
  - vm_compute. lia.
Defined.

(** ** A well-behaved client is served *)

Transparent sha256.
Lemma sha256_length (data : string) : String.length (sha256 data) = 64%nat.
Proof. unfold sha256. rewrite hex_of_bytes_length, digest_length. reflexivity. Qed.
Opaque sha256.

(** X7. A submission with a fresh nonce, the right hash with as many leading
    zeros as the fingerprint's stored score demands, and a user agent that
    matches no pattern is answered with a token whenever the stored score is
    between 0 and 3, fewer than 30 requests are in the window and the clock
    has not gone back behind [lastSeen]. The token carries the fingerprint,
    the requester's address, the current secret version and an expiry
    [TOKEN_TTL] after the last clock reading. *)
Theorem plain_client_gets_token
    (clock : nat -> Z) (req : Request) (s : Server) (fp n c : string) :
  fingerprintHash req = Some fp -> nonce req = Some n -> counter req = Some c ->
  hash req = Some (sha256 (fp +:+ n +:+ c)) ->
  fp <> EmptyString -> n <> EmptyString ->
  (forall t, usedNonces s !! n = Some t -> clock (ticks s) - t > NONCE_TTL) ->
  let g := getTrustState clock fp (cleaned (clock (ticks s)) s) in
  (0 <= score g.1 <= 3)%Q -> lastSeen g.1 <= clock (ticks g.2) ->
  (length (requestTimes g.1) < 30)%nat ->
  startsWith (sha256 (fp +:+ n +:+ c)) (zeros (difficulty_of (score g.1))) = true ->
  plain_agent req ->
  exists p sg,
    (verify clock req s).1 = Reply 200 (TokenBody p sg) /\
    p_fingerprintHash p = fp /\ p_ip p = ip req /\ p_v p = SECRET_VERSION s /\
    p_exp p = clock (pred (ticks (verify clock req s).2)) + TOKEN_TTL.
Proof.
  intros Efp En Ec Eh Hfp Hn Hfresh g Hscore Hseen Hlen Hpow Hplain.
  assert (Etok : is_token (verify clock req s).1).
  { rewrite verify_eq. cbv zeta. rewrite Efp, En, Ec, Eh.
    assert (Hh : falsy (Some (sha256 (fp +:+ n +:+ c))) = false).
    { pose proof (sha256_length (fp +:+ n +:+ c)) as L.
      destruct (sha256 (fp +:+ n +:+ c)); [discriminate L | reflexivity]. }
    rewrite Hh.
    destruct fp as [|a fp]; [contradiction|]. destruct n as [|b n]; [contradiction|].
    cbn [falsy orb]. cbv iota.
    rewrite bool_decide_eq_false_2.
    2:{ intros [t Ht]. apply cleaned_lookup in Ht as [Ht Hl].
        specialize (Hfresh t Ht). lia. }
    rewrite String.eqb_refl. cbn [negb]. cbv iota.
    pose proof (getTrustState_facts clock (String a fp) (cleaned (clock (ticks s)) s))
      as (_ & _ & _ & F & _).
    fold g in F. unfold g in *.
    destruct (getTrustState clock (String a fp) (cleaned (clock (ticks s)) s)) as [st0 s1].
    simpl in F, Hscore, Hseen, Hlen, Hpow.
    replace (difficulty_of (score st0) <? 0) with false.
    2:{ symmetry. apply Z.ltb_ge.
        pose proof (difficulty_of_bounds (score st0) (proj1 Hscore)) as B.
        unfold BASE_DIFFICULTY in B. lia. }
    rewrite Hpow. cbn [negb]. cbv iota.
    rewrite computeRisk_eq, getTrustState_eq, F. cbv zeta.
    set (st1 := decay st0 (clock (ticks s1))).
    set (times := window st1 (clock (S (ticks s1)))).
    assert (Hw : (length times <= 30)%nat).
    { pose proof (window_length st1 (clock (S (ticks s1)))) as W.
      change (requestTimes st1) with (requestTimes st0) in W. unfold times. lia. }
    rewrite (increment_plain req _ Hplain Hw).
    change (score (mkTrust (score st1 + 0)%Q (lastSeen st1) times))
      with (score st1 + 0)%Q.
    pose proof (decay_le st0 (clock (ticks s1)) Hseen (proj1 Hscore)) as Hd.
    fold st1 in Hd.
    replace (Qgtb (score st1 + 0) 3) with false
      by (symmetry; apply Qgtb_false; lra).
    replace (Qgtb (score st1 + 0) 5) with false
      by (symmetry; apply Qgtb_false; lra).
    eexists _, _. reflexivity. }
  destruct Etok as (p & sg & E). exists p, sg. split; [exact E|].
  destruct (verify_token clock req s p sg E) as (_ & Hip & Hv & Hexp & _).
  repeat split; try assumption.
  revert E. rewrite verify_eq. cbv zeta. rewrite Efp.
  repeat case_match; simpl; intros E; try discriminate E.
  injection E as <- _. reflexivity.
Qed.

Lemma plain_client_gets_token_witness :
  exists p sg,
    (verify Run.steady Run.first_request (boot Run.secret)).1 = Reply 200 (TokenBody p sg) /\
    p_fingerprintHash p = "abc" /\ p_ip p = ip Run.first_request /\
    p_v p = SECRET_VERSION (boot Run.secret) /\
    p_exp p = Run.steady (pred (ticks (verify Run.steady Run.first_request
                                          (boot Run.secret)).2)) + TOKEN_TTL.
Proof.
  apply (plain_client_gets_token Run.steady Run.first_request (boot Run.secret)
           "abc" "n1" "3838").
  - reflexivity.
  - reflexivity.
  - reflexivity.
  - reflexivity.
  - discriminate.
  - discriminate.
  - intros t Ht. vm_compute in Ht. discriminate Ht.
  - vm_compute. split; discriminate.
  - vm_compute. discriminate.
  - vm_compute. lia.
  - vm_compute. reflexivity.
  - vm_compute. repeat split; reflexivity.
Defined.

(** ** Secret and version along a run *)

Lemma verify_keeps_secret clock req s :
  SECRET (verify clock req s).2 = SECRET s /\
  SECRET_VERSION (verify clock req s).2 = SECRET_VERSION s.
Proof.
  rewrite verify_eq. cbv zeta.
  destruct (fingerprintHash req) as [fp|]; [|split; reflexivity].
  destruct (nonce req) as [n|]; [|split; reflexivity].
  destruct (counter req) as [c|]; [|split; reflexivity].
  destruct (hash req) as [h|]; [|split; reflexivity].
  destruct (falsy (Some fp) || falsy (Some n) || falsy (Some h)); [split; reflexivity|].
  destruct (bool_decide _); [split; reflexivity|].
  destruct (negb _); [split; reflexivity|].
  pose proof (getTrustState_facts clock fp (cleaned (clock (ticks s)) s)) as F.
  destruct (getTrustState clock fp (cleaned (clock (ticks s)) s)) as [st s1].
  simpl in F. destruct F as (F1 & F2 & _).
  destruct (difficulty_of (score st) <? 0); [split; assumption|].
  destruct (negb _); [split; assumption|].
  pose proof (computeRisk_facts clock req fp s1) as G.
  destruct (computeRisk clock req fp s1) as [risk s2].
  simpl in G. destruct G as (G1 & G2 & _).
  repeat case_match; simpl; split; congruence.
Qed.

Lemma challenge_keeps_secret clock rnd req s :
  SECRET (challenge clock rnd req s).2 = SECRET s /\
  SECRET_VERSION (challenge clock rnd req s).2 = SECRET_VERSION s.
Proof.
  rewrite challenge_eq. cbv zeta.
  destruct (fingerprintHash req) as [[|a fp]|]; try (split; reflexivity).
  pose proof (getTrustState_facts clock (String a fp) (cleaned (clock (ticks s)) s)) as F.
  destruct (getTrustState clock (String a fp) (cleaned (clock (ticks s)) s)) as [st s1].
  simpl in F. destruct F as (F1 & F2 & _). split; assumption.
Qed.

Lemma last_cons_default {A} (l : list A) (a d d' : A) :
  List.last (a :: l) d = List.last (a :: l) d'.
Proof.
  revert a. induction l as [|b l IH]; intros a; [reflexivity|].
  change (List.last (a :: b :: l) d) with (List.last (b :: l) d).
  change (List.last (a :: b :: l) d') with (List.last (b :: l) d').
  apply IH.
Qed.

(** X8. Only the rotation timer changes the signing secret and its version: after
    any sequence of requests and rotations the version is the initial one plus
    the number of rotations, and the secret is the one installed by the last
    rotation (the initial one if there was none). *)
Theorem version_counts_rotations (clock : nat -> Z) (evs : list Event) (s : Server) :
  SECRET_VERSION (run clock evs s).2 = SECRET_VERSION s + Z.of_nat (length (rotations evs)) /\
  SECRET (run clock evs s).2 = List.last (rotations evs) (SECRET s).
Proof.
  revert s. induction evs as [|ev rest IH]; intros s.
  - simpl. split; [lia | reflexivity].
  - assert (H : SECRET_VERSION (handle clock ev s).2 =
                  match ev with Rotate _ => SECRET_VERSION s + 1 | _ => SECRET_VERSION s end /\
                SECRET (handle clock ev s).2 =
                  match ev with Rotate rnd => rnd | _ => SECRET s end).
    { destruct ev as [rnd req|req|req|rnd]; unfold handle, bind, ret.
      - pose proof (challenge_keeps_secret clock rnd req s) as [H1 H2].
        destruct (challenge clock rnd req s). split; assumption.
      - pose proof (verify_keeps_secret clock req s) as [H1 H2].
        destruct (verify clock req s). split; assumption.
      - pose proof (protected_state clock req s) as (H1 & H2 & _).
        destruct (protected clock req s). split; assumption.
      - split; reflexivity. }
    cbn [run]. unfold bind, ret.
    destruct (handle clock ev s) as [r s1]. simpl in H. destruct H as [Hv Hs].
    specialize (IH s1).
    destruct (run clock rest s1) as [rs s2].
    change ((r ++ rs, s2).2) with s2. change ((rs, s2).2) with s2 in IH.
    destruct IH as [IHv IHs]. rewrite IHv, IHs, Hv, Hs.
    destruct ev as [rnd req|req|req|rnd]; cbn [rotations];
      try (split; [lia | reflexivity]).
    cbn [length]. split; [lia|].
    destruct (rotations rest) as [|l l0]; [reflexivity|].
    change (List.last (rnd :: l :: l0) (SECRET s)) with (List.last (l :: l0) (SECRET s)).
    apply last_cons_default.
Qed.

(** ** /challenge *)

(** X9. /challenge without a fingerprint (absent or empty) is answered 400 and
    leaves the trust memory alone. With a fingerprint the answer carries
    the hexadecimal rendering of the random bytes, twice as many characters
    as bytes, and the current secret version. In no case is anything
    added to the used-nonce store: the issued nonce is not remembered. *)
Theorem challenge_issues_without_recording
    (clock : nat -> Z) (rnd : list Z) (req : Request) (s : Server) :
  (falsy (fingerprintHash req) = true ->
     (challenge clock rnd req s).1 = Reply 400 (Error "Missing fingerprint") /\
     trustMemory (challenge clock rnd req s).2 = trustMemory s) /\
  (falsy (fingerprintHash req) = false ->
     exists d, (challenge clock rnd req s).1 =
                 Reply 200 (ChallengeBody (hex_of_bytes rnd) d (SECRET_VERSION s)) /\
               String.length (hex_of_bytes rnd) = (2 * length rnd)%nat) /\
  usedNonces (challenge clock rnd req s).2 = usedNonces (cleaned (clock (ticks s)) s) /\
  (forall k t, usedNonces (challenge clock rnd req s).2 !! k = Some t ->
               usedNonces s !! k = Some t).
Proof.
  assert (U : usedNonces (challenge clock rnd req s).2 =
              usedNonces (cleaned (clock (ticks s)) s)).
  { rewrite challenge_eq. cbv zeta.
    destruct (fingerprintHash req) as [[|a fp]|]; try reflexivity.
    pose proof (getTrustState_facts clock (String a fp) (cleaned (clock (ticks s)) s)) as F.
    destruct (getTrustState clock (String a fp) (cleaned (clock (ticks s)) s)) as [st s1].
    simpl in F. destruct F as (_ & _ & F & _). exact F. }
  split; [|split; [|split; [exact U|]]].
  - rewrite challenge_eq. cbv zeta.
    destruct (fingerprintHash req) as [[|a fp]|]; simpl; intros E;
      try discriminate E; split; reflexivity.
  - rewrite challenge_eq. cbv zeta.
    destruct (fingerprintHash req) as [[|a fp]|]; simpl; intros E; try discriminate E.
    pose proof (getTrustState_facts clock (String a fp) (cleaned (clock (ticks s)) s)) as F.
    destruct (getTrustState clock (String a fp) (cleaned (clock (ticks s)) s)) as [st s1].
    simpl in F. destruct F as (_ & F & _). simpl. rewrite F.
    eexists. split; [reflexivity | apply hex_of_bytes_length].
  - intros k t. rewrite U. intros H. apply cleaned_lookup in H. tauto.
Qed.

Lemma challenge_issues_without_recording_witness :
  exists d, (challenge Run.steady Run.issued Run.first_request (boot Run.secret)).1 =
              Reply 200 (ChallengeBody (hex_of_bytes Run.issued) d
                                       (SECRET_VERSION (boot Run.secret))) /\
            String.length (hex_of_bytes Run.issued) = (2 * length Run.issued)%nat.
Proof.
  apply (challenge_issues_without_recording Run.steady Run.issued Run.first_request
           (boot Run.secret)).
  reflexivity.
Defined.

(** ** /protected *)

(** X10. /protected verifies statelessly: whatever the request and the answer,
    the secret, its version, the used-nonce store and the trust memory are
    as before. *)
Theorem protected_is_read_only (clock : nat -> Z) (req : Request) (s : Server) :
  SECRET (protected clock req s).2 = SECRET s /\
  SECRET_VERSION (protected clock req s).2 = SECRET_VERSION s /\
  usedNonces (protected clock req s).2 = usedNonces s /\
  trustMemory (protected clock req s).2 = trustMemory s /\
  (ticks s <= ticks (protected clock req s).2 <= S (ticks s))%nat.
Proof.
  rewrite protected_eq. repeat case_match; simpl; repeat split; lia.
Qed.

(** X11. A token is bound to the address it was issued to, and the checks run
    in the order signature, expiry, address: presented from another
    address under the unchanged secret, a token issued by /verify is
    answered "IP mismatch" up to its expiry and "Token expired" after it. *)
Theorem token_presented_from_another_address
    (clock clock' : nat -> Z) (req preq : Request) (s s' : Server)
    (p : Payload) (sg : string) :
  (verify clock req s).1 = Reply 200 (TokenBody p sg) ->
  SECRET s' = SECRET (verify clock req s).2 ->
  payload preq = Some p -> signature preq = Some sg -> ip preq <> ip req ->
  (clock' (ticks s') <= p_exp p -> (protected clock' preq s').1 = IDENTITY_MISMATCH) /\
  (clock' (ticks s') > p_exp p -> (protected clock' preq s').1 = EXPIRED).
Proof.
  intros Etok Esec Ep Es Hip.
  destruct (verify_token clock req s p sg Etok) as (Esg & Hpip & _ & _ & Hs & _).
  rewrite Hs in Esec.
  rewrite (protected_with_mac clock' preq s' p Ep) by (rewrite Es, Esec, Esg; reflexivity).
  split; intros Ht.
  - destruct (Z.gtb_spec (clock' (ticks s')) (p_exp p)) as [Hgt|_]; [lia|].
    rewrite Hpip. destruct (String.eqb_spec (ip req) (ip preq)) as [E|_]; [|reflexivity].
    exfalso. apply Hip. symmetry. exact E.
  - destruct (Z.gtb_spec (clock' (ticks s')) (p_exp p)) as [_|Hle]; [reflexivity | lia].
Qed.

Lemma token_presented_from_another_address_witness :
  (protected Run.steady Sample.elsewhere
     (verify Run.steady Run.first_request (boot Run.secret)).2).1 = IDENTITY_MISMATCH.
Proof.
  apply (token_presented_from_another_address Run.steady Run.steady Run.first_request
           Sample.elsewhere (boot Run.secret)
           (verify Run.steady Run.first_request (boot Run.secret)).2 Run.token Run.mac).
  - vm_compute. reflexivity.
  - reflexivity.
  - reflexivity.
  - reflexivity.
  - discriminate.
  - vm_compute. discriminate.
Defined.

(** * Strings: pattern tests and hexadecimal rendering *)

Import Text.

Lemma prefix_ci_spec (p s : string) :
  prefix_ci p s = true <->
  exists mid post, s = mid +:+ post /\ lower_string mid = lower_string p.
Proof.
  revert s. induction p as [|a p IH]; intros s; simpl.
  - split; [|reflexivity]. intros _. exists EmptyString, s. split; reflexivity.
  - destruct s as [|b s].
    + split; [discriminate|]. intros (mid & post & E & L).
      destruct mid; simpl in *; discriminate.
    + rewrite andb_true_iff, IH. split.
      * intros [Hc (mid & post & -> & L)]. exists (String b mid), post.
        split; [reflexivity|]. cbn [lower_string]. apply Ascii.eqb_eq in Hc.
        rewrite <- Hc, L. reflexivity.
      * intros (mid & post & E & L). destruct mid as [|c mid]; [discriminate L|].
        cbn [String.append] in E. cbn [lower_string] in L.
        injection E as -> ->. injection L as Hc L.
        split; [apply Ascii.eqb_eq; symmetry; exact Hc | eauto].
Qed.

(** X12. The user-agent tests ([/Headless/i], [/curl|wget|python|axios/i], ...)
    look for the word anywhere in the string and in any mix of upper and
    lower case: [test_ci p s] holds exactly when [s] contains a stretch
    that equals [p] once ASCII letters are folded to lower case. *)
Theorem test_ci_finds_any_case_anywhere (p s : string) :
  test_ci p s = true <->
  exists pre mid post, s = pre +:+ mid +:+ post /\ lower_string mid = lower_string p.
Proof.
  induction s as [|b s IH].
  - simpl. rewrite orb_false_r, prefix_ci_spec. split.
    + intros (mid & post & E & L). exists EmptyString, mid, post. split; assumption.
    + intros (pre & mid & post & E & L). destruct pre; [|discriminate E].
      exists mid, post. split; assumption.
  - cbn [test_ci]. rewrite orb_true_iff, prefix_ci_spec, IH. split.
    + intros [(mid & post & E & L)|(pre & mid & post & E & L)].
      * exists EmptyString, mid, post. split; assumption.
      * exists (String b pre), mid, post. split; [rewrite E; reflexivity | exact L].
    + intros (pre & mid & post & E & L). destruct pre as [|c pre].
      * left. exists mid, post. split; assumption.
      * right. simpl in E. injection E as -> ->. exists pre, mid, post.
        split; [reflexivity | exact L].
Qed.

Transparent hex_of_bytes bytes_of_string sha256.

Lemma hex_digit_is_hex (x : Z) : is_hex_digit (hex_digit (Z.land x 15)) = true.
Proof.
  assert (H : 0 <= Z.land x 15 < 16).
  { change 15 with (Z.ones 4). rewrite Z.land_ones by lia. apply Z.mod_pos_bound. lia. }
  set (n := Z.land x 15) in *.
  assert (A : forallb (fun k => is_hex_digit (hex_digit (Z.of_nat k))) (seq 0 16) = true)
    by reflexivity.
  rewrite List.forallb_forall in A.
  rewrite <- (Z2Nat.id n) by lia. apply A, List.in_seq. lia.
Qed.

Lemma hex_of_bytes_all_hex (l : list Z) : all_hex (hex_of_bytes l) = true.
Proof.
  induction l as [|b l IH]; [reflexivity|]. cbn [hex_of_bytes all_hex].
  rewrite !hex_digit_is_hex, IH. reflexivity.
Qed.

Lemma hex_digit_inj (m n : Z) :
  0 <= m < 16 -> 0 <= n < 16 -> hex_digit m = hex_digit n -> m = n.
Proof.
  intros Hm Hn E.
  assert (D : forall k, 0 <= k < 16 ->
                Z.of_N (N_of_ascii (hex_digit k)) = if k <? 10 then 48 + k else 87 + k).
  { intros k Hk. unfold hex_digit. rewrite N_ascii_embedding.
    - rewrite Z2N.id; [reflexivity|]. destruct (k <? 10); lia.
    - destruct (Z.ltb_spec k 10); lia. }
  pose proof (D m Hm) as Dm. pose proof (D n Hn) as Dn. rewrite E in Dm.
  rewrite Dm in Dn.
  destruct (Z.ltb_spec m 10), (Z.ltb_spec n 10); lia.
Qed.

Lemma byte_nibbles (b : Z) :
  0 <= b < 256 -> b = 16 * Z.land (Z.shiftr b 4) 15 + Z.land b 15.
Proof.
  intros Hb. rewrite Z.shiftr_div_pow2 by lia.
  change 15 with (Z.ones 4). rewrite !Z.land_ones by lia.
  change (2 ^ 4) with 16.
  rewrite (Z.mod_small (b / 16) 16) by (split; [apply Z.div_pos; lia | apply Z.div_lt_upper_bound; lia]).
  apply Z.div_mod. lia.
Qed.

(** X13. The hexadecimal rendering used for digests, signatures and nonces is
    two characters of [0-9a-f] per byte, and distinct byte sequences have
    distinct renderings. In particular a SHA-256 digest is rendered as 64
    such characters. *)
Theorem hex_rendering_is_faithful (l l' : list Z) (data : string) :
  bytes l -> bytes l' ->
  String.length (hex_of_bytes l) = (2 * length l)%nat /\
  all_hex (hex_of_bytes l) = true /\
  (hex_of_bytes l = hex_of_bytes l' -> l = l') /\
  String.length (sha256 data) = 64%nat /\ all_hex (sha256 data) = true.
Proof.
  intros Hl Hl'. split; [apply hex_of_bytes_length|].
  split; [apply hex_of_bytes_all_hex|]. split.
  - revert l' Hl'. induction Hl as [|b l Hb Hl IH]; intros l' Hl' E.
    + destruct l'; [reflexivity | discriminate E].
    + destruct Hl' as [|b' l' Hb' Hl']; [discriminate E|].
      cbn [hex_of_bytes] in E. injection E as E1 E2 E3.
      assert (B : forall x, 0 <= Z.land x 15 < 16).
      { intros x. change 15 with (Z.ones 4). rewrite Z.land_ones by lia.
        apply Z.mod_pos_bound. lia. }
      apply hex_digit_inj in E1; [|apply B..].
      apply hex_digit_inj in E2; [|apply B..].
      f_equal; [|apply IH; assumption].
      rewrite (byte_nibbles b Hb), (byte_nibbles b' Hb'), E1, E2. reflexivity.
  - split; [apply sha256_length | apply hex_of_bytes_all_hex].
Qed.

Opaque hex_of_bytes bytes_of_string sha256.

Lemma hex_rendering_is_faithful_witness :
  String.length (hex_of_bytes [0; 171; 255]) = 6%nat.
Proof.
  apply (hex_rendering_is_faithful [0; 171; 255] [171] "abc");
    repeat constructor; lia.
Defined.

(** * The IP-bound servers *)

(** ** The risk model of secureAntiBot.js and server.js *)

Module RiskProps.
Import IpBound Bound.

(** X14. [computeRisk(signals, req)] lies between 0 and 1.4, and exceeds the
    denial threshold 0.7 exactly when the user agent matches both patterns,
    or matches one of them while neither [cpu] nor [memory] is reported.
    A request without any signals scores 0.4 and is not denied. *)
Theorem risk_denial_condition (signals : option Signals) :
  (0 <= computeRisk signals <= 1.4)%Q /\
  (Qgtb (computeRisk signals) 0.7 = true <->
     (looks_headless signals = true /\ looks_scripted signals = true) \/
     ((looks_headless signals = true \/ looks_scripted signals = true) /\
      reports_cpu signals = false /\ reports_memory signals = false)) /\
  (computeRisk None == 0.4)%Q /\ Qgtb (computeRisk None) 0.7 = false.
Proof.
  split; [|split; [|split; [vm_compute; reflexivity | reflexivity]]].
  - unfold computeRisk. cbv zeta. repeat case_match; lra.
  - unfold computeRisk, looks_headless, looks_scripted, reports_cpu, reports_memory, agent.
    cbv zeta.
    destruct (test_ci "Headless" _ || test_ci "Phantom" _);
      destruct (test_ci "curl" _ || test_ci "wget" _ || test_ci "python" _);
      destruct (default false (cpu <$> signals));
      destruct (default false (memory <$> signals));
      cbn [negb]; cbv iota; (split; [intros H; try discriminate H; tauto | ]);
      first [ intros _; reflexivity
            | intros [[H1 H2]|[[H1|H1] [H2 H3]]]; discriminate ].
Qed.

End RiskProps.

(** ** secureAntiBot.js *)

Module AntiBotProps.
Import IpBound Bound SecureAntiBot.

Lemma antibot_verify_eq clock (req : Request) (s : Server) :
  verify clock req s =
  match r_challenge req with
  | None => (INVALID_CHALLENGE, s)
  | Some c =>
      match activeChallenges s !! c with
      | None => (INVALID_CHALLENGE, s)
      | Some issued =>
          let s1 := mkServer (SECRET s) (activeChallenges s) (usedNonces s) (S (ticks s)) in
          if clock (ticks s) - issued >? CHALLENGE_TTL then (EXPIRED, s1) else
          if negb (bool_decide (r_hash req = Some (sha256 (c +:+ to_str (r_nonce req))))) ||
             negb (startsWith (default EmptyString (r_hash req)) (zeros 4))
          then (INVALID_POW, s1) else
          if bool_decide (r_nonce req ∈ usedNonces s) then (REPLAY, s1) else
          let s2 := mkServer (SECRET s) (delete c (activeChallenges s))
                             ({[ r_nonce req ]} ∪ usedNonces s) (S (ticks s)) in
          if Qgtb (computeRisk (r_signals req)) 0.7 then (HIGH_RISK, s2) else
          let token := mkToken (r_ip req) (clock (S (ticks s))) in
          (Reply 200 (TokenBody token (sign (SECRET s) "timestamp" token)),
           mkServer (SECRET s) (delete c (activeChallenges s))
                    ({[ r_nonce req ]} ∪ usedNonces s) (S (S (ticks s))))
      end
  end.
Proof.
  unfold verify, Date_now, bind, gets, ret, modify.
  destruct (r_challenge req) as [c|]; [|reflexivity]. simpl.
  destruct (activeChallenges s !! c) as [issued|]; [|reflexivity]. cbv zeta. simpl.
  repeat (case_match; cbn [usedNonces activeChallenges SECRET ticks]); reflexivity.
Qed.

(** X15. A submission that gets past the proof-of-work and replay checks uses up
    its challenge and its nonce whether it is then answered with a token or
    denied for high risk; every other answer leaves both stores as they
    were. In particular an expired challenge is answered "Challenge expired"
    and stays in [activeChallenges]. *)
Theorem verify_consumes_on_pass (clock : nat -> Z) (req : Request) (s : Server) :
  let r := verify clock req s in
  (is_token r.1 \/ r.1 = HIGH_RISK ->
     exists c, r_challenge req = Some c /\
       activeChallenges r.2 = delete c (activeChallenges s) /\
       usedNonces r.2 = {[ r_nonce req ]} ∪ usedNonces s) /\
  (~ (is_token r.1 \/ r.1 = HIGH_RISK) ->
     activeChallenges r.2 = activeChallenges s /\ usedNonces r.2 = usedNonces s) /\
  (forall c issued, r_challenge req = Some c -> activeChallenges s !! c = Some issued ->
     clock (ticks s) - issued > CHALLENGE_TTL ->
     r.1 = EXPIRED /\ activeChallenges r.2 !! c = Some issued).
Proof.
  cbv zeta. rewrite antibot_verify_eq. unfold is_token.
  split; [|split].
  - destruct (r_challenge req) as [c|]; [|intros [(t & sg & E)|E]; discriminate E].
    destruct (activeChallenges s !! c) as [issued|];
      [|intros [(t & sg & E)|E]; discriminate E].
    cbv zeta. repeat case_match; simpl;
      intros [(t & sg & E)|E]; try discriminate E; exists c; repeat split.
  - destruct (r_challenge req) as [c|]; [|intros _; split; reflexivity].
    destruct (activeChallenges s !! c) as [issued|]; [|intros _; split; reflexivity].
    cbv zeta. repeat case_match; simpl; intros Hno; try (split; reflexivity);
      exfalso; apply Hno; eauto.
  - intros c issued Ec Ei Hold. rewrite Ec, Ei. cbv zeta.
    destruct (Z.gtb_spec (clock (ticks s) - issued) CHALLENGE_TTL) as [_|Hle]; [|lia].
    simpl. split; [reflexivity | exact Ei].
Qed.

Lemma verify_consumes_on_pass_witness :
  let issue := challenge Run.steady Run.issued (boot Run.secret) in
  exists c, r_challenge Run.solved = Some c /\
    activeChallenges (verify Run.steady Run.solved issue.2).2 =
      delete c (activeChallenges issue.2) /\
    usedNonces (verify Run.steady Run.solved issue.2).2 =
      {[ r_nonce Run.solved ]} ∪ usedNonces issue.2.
Proof.
  apply (verify_consumes_on_pass Run.steady Run.solved
           (challenge Run.steady Run.issued (boot Run.secret)).2).
  left. eexists _, _. vm_compute. reflexivity.
Defined.

(** X16. Used nonces are never forgotten and never accepted again: no handler
    removes anything from [usedNonces], and a submission whose nonce is in it
    is never answered with a token, whatever challenge it names. *)
Theorem used_nonce_never_yields_token
    (clock : nat -> Z) (rnd : list Z) (req req' : Request) (s : Server) :
  usedNonces s ⊆ usedNonces (verify clock req' s).2 /\
  usedNonces (challenge clock rnd s).2 = usedNonces s /\
  usedNonces (protected clock req' s).2 = usedNonces s /\
  (r_nonce req ∈ usedNonces s -> ~ is_token (verify clock req s).1).
Proof.
  split; [|split; [|split]].
  - rewrite antibot_verify_eq. repeat case_match; simpl; set_solver.
  - reflexivity.
  - unfold protected, Date_now, bind, gets, ret. repeat case_match; reflexivity.
  - intros Hin. rewrite antibot_verify_eq. unfold is_token.
    destruct (r_challenge req) as [c|]; [|intros (t & sg & E); discriminate E].
    destruct (activeChallenges s !! c) as [issued|]; [|intros (t & sg & E); discriminate E].
    cbv zeta. rewrite (bool_decide_eq_true_2 _ Hin).
    repeat case_match; simpl; intros (t & sg & E); discriminate E.
Qed.

Lemma used_nonce_never_yields_token_witness :
  ~ is_token (verify Run.steady Run.solved
                (mkServer "k" {[ "01010101010101010101010101010101" := 1000 ]}
                          {[ Some "106862" ]} 0)).1.
Proof.
  apply (used_nonce_never_yields_token Run.steady Run.issued Run.solved Run.solved
           (mkServer "k" {[ "01010101010101010101010101010101" := 1000 ]}
                     {[ Some "106862" ]} 0)).
  vm_compute. set_solver.
Defined.

Lemma antibot_protected_with_mac clock (req : Request) (s : Server) (t : Token) :
  r_token req = Some t -> r_signature req = Some (sign (SECRET s) "timestamp" t) ->
  (protected clock req s).1 =
    if clock (ticks s) - t_stamp t >? TOKEN_TTL then Reply 403 (Error "Token expired")
    else if negb (String.eqb (t_ip t) (r_ip req)) then Reply 403 (Error "IP mismatch")
    else Reply 200 Success.
Proof.
  intros Et Es. unfold protected, Date_now, bind, gets, ret. rewrite Et, Es.
  unfold verifySignature. cbv zeta. rewrite timingSafeEqual_same.
  repeat case_match; reflexivity.
Qed.

(** X17. A token issued by /verify is stamped with the clock reading at issue
    and bound to the requester's address. Presented to /protected with its
    signature, it is accepted from that address until [TOKEN_TTL] (120 s)
    after the stamp, answered "Token expired" later, and answered "IP
    mismatch" from any other address before expiry. *)
Theorem token_round_trip
    (clock clock' : nat -> Z) (req : Request) (s s' : Server) (t : Token) (sg addr : string) :
  (verify clock req s).1 = Reply 200 (TokenBody t sg) ->
  SECRET s' = SECRET s ->
  let now := clock' (ticks s') in
  t_ip t = r_ip req /\ t_stamp t = clock (pred (ticks (verify clock req s).2)) /\
  (addr = r_ip req -> now - t_stamp t <= TOKEN_TTL ->
     (protected clock' (present addr t sg) s').1 = Reply 200 Success) /\
  (now - t_stamp t > TOKEN_TTL ->
     (protected clock' (present addr t sg) s').1 = Reply 403 (Error "Token expired")) /\
  (addr <> r_ip req -> now - t_stamp t <= TOKEN_TTL ->
     (protected clock' (present addr t sg) s').1 = Reply 403 (Error "IP mismatch")).
Proof.
  intros Etok Esec now.
  assert (H : t = mkToken (r_ip req) (clock (pred (ticks (verify clock req s).2))) /\
              sg = sign (SECRET s) "timestamp" t).
  { revert Etok. rewrite antibot_verify_eq.
    destruct (r_challenge req) as [c|]; [|intros E; discriminate E].
    destruct (activeChallenges s !! c) as [issued|]; [|intros E; discriminate E].
    cbv zeta. repeat case_match; simpl; intros E; try discriminate E.
    injection E as <- <-. split; reflexivity. }
  destruct H as [Ht Hsg].
  assert (P : (protected clock' (present addr t sg) s').1 =
              if now - t_stamp t >? TOKEN_TTL then Reply 403 (Error "Token expired")
              else if negb (String.eqb (t_ip t) addr) then Reply 403 (Error "IP mismatch")
              else Reply 200 Success).
  { apply (antibot_protected_with_mac clock' (present addr t sg) s' t); [reflexivity|].
    simpl. rewrite Esec, Hsg. reflexivity. }
  rewrite P. split; [rewrite Ht; reflexivity|]. split; [rewrite Ht at 1; reflexivity|].
  assert (Hip : t_ip t = r_ip req) by (rewrite Ht; reflexivity).
  split; [|split].
  - intros -> Hfresh.
    destruct (Z.gtb_spec (now - t_stamp t) TOKEN_TTL) as [Hgt|_]; [lia|].
    rewrite Hip, String.eqb_refl. reflexivity.
  - intros Hold.
    destruct (Z.gtb_spec (now - t_stamp t) TOKEN_TTL) as [_|Hle]; [reflexivity | lia].
  - intros Hne Hfresh.
    destruct (Z.gtb_spec (now - t_stamp t) TOKEN_TTL) as [Hgt|_]; [lia|].
    rewrite Hip. destruct (String.eqb_spec (r_ip req) addr) as [E|_]; [|reflexivity].
    exfalso. apply Hne. symmetry. exact E.
Qed.

Lemma token_round_trip_witness :
  let issue := challenge Run.steady Run.issued (boot Run.secret) in
  let t := mkToken "203.0.113.9" 1002 in
  let sg := "9c3f7d2af4ff5bf4cf981892a70c5f728f309354a402089edea238196d6badc3" in
  (protected Run.steady (present "203.0.113.9" t sg)
     (verify Run.steady Run.solved issue.2).2).1 = Reply 200 Success.
Proof.
  cbv zeta.
  destruct (token_round_trip Run.steady Run.steady Run.solved
              (challenge Run.steady Run.issued (boot Run.secret)).2
              (verify Run.steady Run.solved
                 (challenge Run.steady Run.issued (boot Run.secret)).2).2
              (mkToken "203.0.113.9" 1002)
              "9c3f7d2af4ff5bf4cf981892a70c5f728f309354a402089edea238196d6badc3"
              "203.0.113.9") as (_ & _ & H & _).
  - vm_compute. reflexivity.
  - vm_compute. reflexivity.
  - apply H; [reflexivity | vm_compute; discriminate].
Defined.

End AntiBotProps.

(** ** server.js *)

Module EnterpriseProps.
Import IpBound Bound Enterprise.

Lemma enterprise_verify_eq clock (req : Request) (s : Server) :
  verify clock req s =
  let ip := r_ip req in
  let rd := redis s in
  let stored := challenges rd !! to_str (r_challenge req) in
  if negb (bool_decide (stored = Some ip)) || bool_decide (stored = Some EmptyString)
  then (INVALID_CHALLENGE, s) else
  let difficulty := Z.min MAX_DIFFICULTY (BASE_DIFFICULTY + default 0 (rates rd !! ip) / 50) in
  match r_challenge req, r_nonce req with
  | None, None => (Uncaught "TypeError", s)
  | _, _ =>
      let testHash := sha256 (to_str (r_challenge req) +:+ to_str (r_nonce req)) in
      if negb (bool_decide (r_hash req = Some testHash)) then (INVALID_POW, s) else
      if difficulty <? 0 then (Uncaught "RangeError: Invalid count value", s) else
      if negb (startsWith testHash (zeros difficulty)) then (INVALID_POW, s) else
      if bool_decide (to_str (r_nonce req) ∈ nonces rd) then (REPLAY, s) else
      let used := mkRedis (delete (to_str (r_challenge req)) (challenges rd))
                          ({[ to_str (r_nonce req) ]} ∪ nonces rd) (rates rd) in
      if Qgtb (computeRisk (r_signals req)) 0.7
      then (HIGH_RISK, mkServer (SECRET s) used (ticks s)) else
      let token := mkToken ip (clock (ticks s)) in
      (Reply 200 (TokenBody token (sign (SECRET s) "issued" token)),
       mkServer (SECRET s)
                (mkRedis (challenges used) (nonces used)
                         (<[ip := default 0 (rates rd !! ip) + 1]> (rates rd)))
                (S (ticks s)))
  end.
Proof.
  unfold verify, dynamicDifficulty, Date_now, set_redis, bind, gets, ret, modify.
  cbv zeta.
  destruct (negb _ || _); [reflexivity|].
  destruct (r_challenge req), (r_nonce req); try reflexivity;
    repeat (case_match; cbn [redis SECRET ticks challenges nonces rates]); reflexivity.
Qed.

(** X18. The demanded difficulty is 4 plus one for every 50 tokens counted for
    the address, capped at 7: for a non-negative count it lies in [4, 7],
    equals 4 below 50 and 7 from 150 on, and never decreases as the count
    grows. Reading it changes nothing. *)
Theorem dynamicDifficulty_bounds (ip : string) (s s' : Server) :
  let n := default 0 (rates (redis s) !! ip) in
  let n' := default 0 (rates (redis s') !! ip) in
  let d := (dynamicDifficulty ip s).1 in
  let d' := (dynamicDifficulty ip s').1 in
  0 <= n ->
  4 <= d <= 7 /\ (d = 4 <-> n < 50) /\ (d = 7 <-> 150 <= n) /\
  (n <= n' -> d <= d') /\ (dynamicDifficulty ip s).2 = s.
Proof.
  cbv zeta. unfold dynamicDifficulty, bind, gets, ret. simpl.
  unfold MAX_DIFFICULTY, BASE_DIFFICULTY.
  set (n := default 0 (rates (redis s) !! ip)).
  set (n' := default 0 (rates (redis s') !! ip)).
  intros Hn.
  assert (Hq : 0 <= n / 50) by (apply Z.div_pos; lia).
  assert (H50 : n / 50 = 0 <-> n < 50).
  { split; intros H; [|apply Z.div_small; lia].
    destruct (Z.lt_ge_cases n 50) as [|Hge]; [assumption|].
    assert (1 <= n / 50) by (apply Z.div_le_lower_bound; lia). lia. }
  assert (H150 : 3 <= n / 50 <-> 150 <= n).
  { split; intros H.
    - destruct (Z.lt_ge_cases n 150) as [Hlt|]; [|assumption].
      assert (n / 50 < 3) by (apply Z.div_lt_upper_bound; lia). lia.
    - apply Z.div_le_lower_bound; lia. }
  repeat split; try lia.
  intros Hle. assert (n / 50 <= n' / 50) by (apply Z.div_le_mono; lia). lia.
Qed.

Lemma dynamicDifficulty_bounds_witness :
  4 <= (dynamicDifficulty "203.0.113.9" Sample.redis_empty).1 <= 7.
Proof.
  apply (dynamicDifficulty_bounds "203.0.113.9" Sample.redis_empty Sample.redis_empty).
  vm_compute. discriminate.
Defined.

(** X19. A challenge is bound to the address that asked for it: after
    /challenge from one address, a /verify naming that challenge from any
    other address is answered "Invalid challenge" and changes nothing, so the
    challenge stays usable by its owner, whose own submission gets past the
    challenge check (unless its address is the empty string, which the
    check treats as no binding). *)
Theorem challenge_bound_to_requester
    (clock : nat -> Z) (rnd : list Z) (owner req : Request) (s : Server) :
  let s1 := (challenge rnd owner s).2 in
  r_challenge req = Some (hex_of_bytes rnd) ->
  challenges (redis s1) !! hex_of_bytes rnd = Some (r_ip owner) /\
  (r_ip req <> r_ip owner -> verify clock req s1 = (INVALID_CHALLENGE, s1)) /\
  (r_ip req = r_ip owner -> r_ip owner <> EmptyString ->
     (verify clock req s1).1 <> INVALID_CHALLENGE) /\
  (r_ip owner = EmptyString -> (verify clock req s1).1 = INVALID_CHALLENGE).
Proof.
  cbv zeta. intros Ec.
  assert (L : challenges (redis (challenge rnd owner s).2) !! hex_of_bytes rnd
              = Some (r_ip owner)).
  { unfold challenge, dynamicDifficulty, set_redis, bind, gets, ret, modify. simpl.
    apply lookup_insert_eq. }
  split; [exact L|].
  set (s1 := (challenge rnd owner s).2) in *.
  split; [|split].
  - intros Hne. rewrite enterprise_verify_eq. cbv zeta. rewrite Ec. simpl to_str. rewrite L.
    rewrite (bool_decide_eq_false_2 (Some (r_ip owner) = Some (r_ip req))); [reflexivity|].
    intros E. injection E as E. exact (Hne (eq_sym E)).
  - intros Eip Hne. rewrite enterprise_verify_eq. cbv zeta. rewrite Ec. simpl to_str. rewrite L, Eip.
    rewrite (bool_decide_eq_true_2 (Some (r_ip owner) = Some (r_ip owner))) by reflexivity.
    rewrite (bool_decide_eq_false_2 (Some (r_ip owner) = Some EmptyString)).
    2:{ intros E. injection E as E. exact (Hne E). }
    cbn [negb orb]. cbv iota.
    repeat case_match; simpl; discriminate.
  - intros Eempty. rewrite enterprise_verify_eq. cbv zeta. rewrite Ec. simpl to_str. rewrite L, Eempty.
    rewrite (bool_decide_eq_true_2 (Some EmptyString = Some EmptyString)) by reflexivity.
    rewrite orb_true_r. reflexivity.
Qed.

Lemma challenge_bound_to_requester_witness :
  verify Run.steady Sample.intruder (challenge Run.issued Run.solved Sample.redis_empty).2 =
  (INVALID_CHALLENGE, (challenge Run.issued Run.solved Sample.redis_empty).2).
Proof.
  apply (challenge_bound_to_requester Run.steady Run.issued Run.solved Sample.intruder
           Sample.redis_empty).
  - reflexivity.
  - discriminate.
Defined.

(** X20. What /verify leaves in Redis. A token answer deletes the challenge,
    records the replay key and adds one to the requester's rate counter,
    no other counter changing; a high-risk denial deletes the challenge and
    records the replay key but counts nothing; every other answer leaves
    Redis as it was. A submission whose replay key is recorded is never
    answered with a token. *)
Theorem verify_accounting (clock : nat -> Z) (req : Request) (s : Server) :
  let r := verify clock req s in
  let rd := redis s in
  let spent := mkRedis (delete (to_str (r_challenge req)) (challenges rd))
                       ({[ to_str (r_nonce req) ]} ∪ nonces rd) (rates rd) in
  (is_token r.1 ->
     redis r.2 = mkRedis (challenges spent) (nonces spent)
                   (<[r_ip req := default 0 (rates rd !! r_ip req) + 1]> (rates rd))) /\
  (r.1 = HIGH_RISK -> redis r.2 = spent) /\
  (~ is_token r.1 -> r.1 <> HIGH_RISK -> redis r.2 = rd) /\
  (to_str (r_nonce req) ∈ nonces rd -> ~ is_token r.1).
Proof.
  cbv zeta. rewrite enterprise_verify_eq. cbv zeta. unfold is_token.
  destruct (negb _ || _).
  { repeat split; try reflexivity; try (intros (t & sg & E); discriminate E);
      try (intros E; discriminate E).
    intros _ (t & sg & E). discriminate E. }
  destruct (bool_decide (to_str (r_nonce req) ∈ nonces (redis s))) eqn:Hb.
  - destruct (r_challenge req), (r_nonce req);
      repeat case_match; simpl;
      (split; [intros (t & sg & E); discriminate E|]);
      (split; [intros E; discriminate E|]);
      (split; [reflexivity|]); intros _ (t & sg & E); discriminate E.
  - apply bool_decide_eq_false in Hb.
    destruct (r_challenge req), (r_nonce req);
      repeat case_match; simpl;
      repeat split; try reflexivity;
      try (intros (t & sg & E); discriminate E); try (intros E; discriminate E);
      try (intros Hin; contradiction);
      try (intros Hno; exfalso; apply Hno; eauto);
      try (intros _ Hno; exfalso; apply Hno; reflexivity).
Qed.

Lemma verify_accounting_witness :
  let s1 := (challenge Run.issued Run.solved Sample.redis_empty).2 in
  rates (redis (verify Run.steady Run.solved s1).2) !! "203.0.113.9" = Some 1.
Proof.
  cbv zeta.
  destruct (verify_accounting Run.steady Run.solved
              (challenge Run.issued Run.solved Sample.redis_empty).2) as (H & _).
  rewrite H.
  - vm_compute. reflexivity.
  - eexists _, _. vm_compute. reflexivity.
Defined.

Lemma enterprise_protected_with_mac clock (req : Request) (s : Server) (t : Token) :
  r_token req = Some t -> r_signature req = Some (sign (SECRET s) "issued" t) ->
  protected clock req s =
    (if clock (ticks s) - t_stamp t >? TOKEN_TTL * 1000 then Reply 403 (Error "Token expired")
     else if negb (String.eqb (t_ip t) (r_ip req)) then Reply 403 (Error "IP mismatch")
     else Reply 200 Success,
     mkServer (SECRET s) (redis s) (S (ticks s))).
Proof.
  intros Et Es. unfold protected, Date_now, bind, gets, ret. rewrite Et, Es.
  unfold verifySignature. cbv zeta. rewrite timingSafeEqual_same.
  repeat case_match; reflexivity.
Qed.

(** X25. A token issued by /verify of server.js is stamped with the clock reading
    at issue (milliseconds) and bound to the requester's address. Its
    lifetime is [TOKEN_TTL] seconds, compared in milliseconds: /protected
    accepts it from that address up to 120000 ms after the stamp, answers
    "Token expired" later and "IP mismatch" from another address before
    expiry. /protected touches nothing in Redis, so an accepted token is
    accepted again at any later reading within its lifetime. *)
Theorem enterprise_token_round_trip
    (clock clock' : nat -> Z) (req : Request) (s s' : Server) (t : Token) (sg addr : string) :
  (verify clock req s).1 = Reply 200 (TokenBody t sg) ->
  SECRET s' = SECRET s ->
  let now := clock' (ticks s') in
  let r := protected clock' (present addr t sg) s' in
  t_ip t = r_ip req /\ t_stamp t = clock (ticks s) /\
  redis r.2 = redis s' /\ SECRET r.2 = SECRET s' /\
  (addr = r_ip req -> now - t_stamp t <= 120000 -> r.1 = Reply 200 Success) /\
  (now - t_stamp t > 120000 -> r.1 = Reply 403 (Error "Token expired")) /\
  (addr <> r_ip req -> now - t_stamp t <= 120000 -> r.1 = Reply 403 (Error "IP mismatch")) /\
  (addr = r_ip req -> clock' (S (ticks s')) - t_stamp t <= 120000 ->
     (protected clock' (present addr t sg) r.2).1 = Reply 200 Success).
Proof.
  intros Etok Esec now r.
  assert (H : t = mkToken (r_ip req) (clock (ticks s)) /\
              sg = sign (SECRET s) "issued" t).
  { revert Etok. rewrite enterprise_verify_eq. cbv zeta.
    destruct (negb _ || _); [intros E; discriminate E|].
    destruct (r_challenge req), (r_nonce req);
      repeat case_match; simpl; intros E; try discriminate E;
      injection E as <- <-; split; reflexivity. }
  destruct H as [Ht Hsg].
  assert (Hip : t_ip t = r_ip req) by (rewrite Ht; reflexivity).
  assert (Hst : t_stamp t = clock (ticks s)) by (rewrite Ht; reflexivity).
  assert (P : forall s0, SECRET s0 = SECRET s ->
            protected clock' (present addr t sg) s0 =
              (if clock' (ticks s0) - t_stamp t >? TOKEN_TTL * 1000
               then Reply 403 (Error "Token expired")
               else if negb (String.eqb (t_ip t) addr) then Reply 403 (Error "IP mismatch")
               else Reply 200 Success,
               mkServer (SECRET s0) (redis s0) (S (ticks s0)))).
  { intros s0 E0.
    apply (enterprise_protected_with_mac clock' (present addr t sg) s0 t); [reflexivity|].
    simpl. rewrite E0, Hsg. reflexivity. }
  change (TOKEN_TTL * 1000) with 120000 in P.
  subst r. rewrite (P s' Esec). cbn [fst snd redis SECRET].
  rewrite (P (mkServer _ _ _)) by exact Esec. cbn [fst snd ticks]. fold now.
  split; [exact Hip|]. split; [exact Hst|]. split; [reflexivity|]. split; [reflexivity|].
  split; [|split; [|split]].
  - intros -> Hfresh.
    destruct (Z.gtb_spec (now - t_stamp t) 120000) as [Hgt|_]; [lia|].
    rewrite Hip, String.eqb_refl. reflexivity.
  - intros Hold.
    destruct (Z.gtb_spec (now - t_stamp t) 120000) as [_|Hle]; [reflexivity | lia].
  - intros Hne Hfresh.
    destruct (Z.gtb_spec (now - t_stamp t) 120000) as [Hgt|_]; [lia|].
    rewrite Hip. destruct (String.eqb_spec (r_ip req) addr) as [E|_]; [|reflexivity].
    exfalso. apply Hne. symmetry. exact E.
  - intros -> Hfresh.
    destruct (Z.gtb_spec (clock' (S (ticks s')) - t_stamp t) 120000) as [Hgt|_]; [lia|].
    rewrite Hip, String.eqb_refl. reflexivity.
Qed.

Lemma enterprise_token_round_trip_witness :
  let issue := challenge Run.issued Run.solved Sample.redis_empty in
  let t := mkToken "203.0.113.9" 1000 in
  let sg := "183029e9a5c99d76169eedd9e5fa690eb9f63b6d3798ebf1bb9838cc93ff06ce" in
  (protected Run.steady (present "203.0.113.9" t sg)
     (verify Run.steady Run.solved issue.2).2).1 = Reply 200 Success.
Proof.
  cbv zeta.
  destruct (enterprise_token_round_trip Run.steady Run.steady Run.solved
              (challenge Run.issued Run.solved Sample.redis_empty).2
              (verify Run.steady Run.solved
                 (challenge Run.issued Run.solved Sample.redis_empty).2).2
              (mkToken "203.0.113.9" 1000)
              "183029e9a5c99d76169eedd9e5fa690eb9f63b6d3798ebf1bb9838cc93ff06ce"
              "203.0.113.9") as (_ & _ & _ & _ & H & _).
  - vm_compute. reflexivity.
  - vm_compute. reflexivity.
  - apply H; [reflexivity | vm_compute; discriminate].
Defined.

End EnterpriseProps.

(** * The browser-side collectors *)

Module ShieldProps.
Import Shield.

Lemma total_snoc (w : string -> Z) (fs : list string) (f : string) :
  total w (fs ++ [f]) = total w fs + w f.
Proof. induction fs as [|g fs IH]; simpl; [lia | rewrite IH; lia]. Qed.

Lemma penalize_sound (w : string -> Z) (f : string) (k : Z) (st : State) :
  k = w f -> sound w st -> sound w (penalize f k st).
Proof.
  intros -> [Hnd Hs]. unfold penalize. case_bool_decide as Hin; [split; assumption|].
  split; simpl.
  - apply NoDup_app. split; [exact Hnd|]. split; [|apply NoDup_singleton].
    intros g Hg Hg'. apply list_elem_of_singleton in Hg'. subst g. exact (Hin Hg).
  - rewrite total_snoc, Hs. reflexivity.
Qed.

Lemma penalize_flags (f : string) (k : Z) (st : State) (known : list string) :
  f ∈ known -> (forall g, g ∈ flags st -> g ∈ known) ->
  forall g, g ∈ flags (penalize f k st) -> g ∈ known.
Proof.
  intros Hf H g. unfold penalize. case_bool_decide; [apply H|]. simpl.
  intros Hg. apply elem_of_app in Hg as [Hg|Hg]; [exact (H g Hg)|].
  apply list_elem_of_singleton in Hg. subst g. exact Hf.
Qed.

Lemma penalize_signals (f : string) (k : Z) (st : State) :
  signals (penalize f k st) = signals st.
Proof. unfold penalize. case_bool_decide; reflexivity. Qed.

Lemma total_submseteq (w : string -> Z) (fs gs : list string) :
  (forall f, 0 <= w f) -> fs ⊆+ gs -> total w fs <= total w gs.
Proof.
  intros Hw H. induction H as [|f fs gs _ IH|f g fs|f fs gs _ IH|fs gs hs _ IH1 _ IH2];
    simpl; try lia.
  - pose proof (Hw f). lia.
Qed.


Lemma kept_penalize (f : string) (k : Z) (st : State) :
  bool_decide (f ∈ NexusShield.all_flags) = true -> k = NexusShield.weight f ->
  NexusShield.kept st -> NexusShield.kept (penalize f k st).
Proof.
  intros Hf Hk [Hs Hk']. split; [apply penalize_sound; assumption|].
  apply penalize_flags; [|exact Hk']. apply bool_decide_eq_true in Hf. exact Hf.
Qed.

Lemma kept_same (st st' : State) :
  score st' = score st -> flags st' = flags st -> NexusShield.kept st -> NexusShield.kept st'.
Proof. unfold NexusShield.kept, sound. intros -> ->. trivial. Qed.

Lemma signals_penalize_le (f : string) (k : Z) (st : State) (n : Z) :
  signals st <= n -> signals (penalize f k st) <= n.
Proof. rewrite penalize_signals. trivial. Qed.

Ltac keep :=
  repeat first
    [ assumption
    | apply kept_penalize; [reflexivity | reflexivity | ]
    | eapply kept_same; [reflexivity | reflexivity | ] ].

Lemma step_keeps (pg : NexusShield.Page) (ev : NexusShield.Event) :
  NexusShield.kept (NexusShield.state pg) ->
  NexusShield.kept (NexusShield.state (NexusShield.step pg ev)) /\
  signals (NexusShield.state pg) <= signals (NexusShield.state (NexusShield.step pg ev))
    <= signals (NexusShield.state pg) + 1.
Proof.
  intros H. destruct pg as [tr rs st]. simpl in H.
  destruct ev as [nav|ex ey now|delta|canvas| | | |credential]; simpl.
  - unfold NexusShield.environmentChecks, environmentChecks. cbv zeta.
    split.
    + eapply kept_same; [reflexivity | reflexivity |].
      repeat case_match; keep.
    + unfold reward. cbn [signals].
      repeat case_match; rewrite ?penalize_signals; lia.
  - unfold NexusShield.mousemove, mousemove. cbv zeta.
    repeat case_match; simplify_eq; cbn [NexusShield.state];
      (split; [unfold reward; keep
              | unfold reward; cbn [signals]; rewrite ?penalize_signals; cbn [signals];
                rewrite ?penalize_signals; lia]).
  - unfold NexusShield.timingIntegrity, timingCallback. cbv zeta.
    split.
    + eapply kept_same; [reflexivity | reflexivity |]. repeat case_match; keep.
    + unfold reward. cbn [signals].
      repeat case_match; rewrite ?penalize_signals; cbn [signals]; lia.
  - destruct canvas; cbn [renderingFingerprint].
    + split; [unfold reward; keep | unfold reward; cbn [signals]; lia].
    + split; [keep | rewrite penalize_signals; lia].
  - split; [unfold reward; keep | unfold reward; cbn [signals]; lia].
  - destruct rs; cbn [negb]; (split; [keep | rewrite ?penalize_signals; lia]).
  - split; [keep | rewrite penalize_signals; lia].
  - destruct credential; cbn [NexusShield.requestAttestation].
    + split; [unfold reward; keep | unfold reward; cbn [signals]; lia].
    + split; [keep | rewrite penalize_signals; lia].
Qed.

(** X21. Whatever the collectors of src/3.js observe, in whatever order their
    callbacks run and however often a check fires, the score is the total
    weight of the flags raised, each flag is counted once, so the score
    stays between 0 and 40, and the reward count grows by at most one per
    callback. *)
Theorem nexus_shield_score_bounded (evs : list NexusShield.Event) :
  let st := NexusShield.state (fold_left NexusShield.step evs NexusShield.page0) in
  NoDup (flags st) /\ score st = total NexusShield.weight (flags st) /\
  (forall g, g ∈ flags st -> g ∈ NexusShield.all_flags) /\
  0 <= score st <= 40 /\ 0 <= signals st <= Z.of_nat (length evs).
Proof.
  cbv zeta.
  assert (G : forall pg,
            NexusShield.kept (NexusShield.state pg) ->
            NexusShield.kept (NexusShield.state (fold_left NexusShield.step evs pg)) /\
            signals (NexusShield.state pg)
              <= signals (NexusShield.state (fold_left NexusShield.step evs pg))
              <= signals (NexusShield.state pg) + Z.of_nat (length evs)).
  { induction evs as [|ev rest IH]; intros pg H; simpl fold_left.
    - split; [exact H | simpl; lia].
    - destruct (step_keeps pg ev H) as [H1 H2].
      destruct (IH _ H1) as [H3 H4]. split; [exact H3|].
      cbn [length]. lia. }
  destruct (G NexusShield.page0) as [[[Hnd Hs] Hf] Hsig].
  { split; [split; [apply NoDup_nil_2 | reflexivity]|]. intros g Hg. inversion Hg. }
  simpl in Hsig.
  repeat split; try assumption; try lia.
  - rewrite Hs. clear. induction (flags _) as [|f fs IH]; simpl; [lia|].
    assert (0 <= NexusShield.weight f)
      by (unfold NexusShield.weight; repeat case_match; lia).
    lia.
  - rewrite Hs.
    change 40 with (total NexusShield.weight NexusShield.all_flags).
    apply total_submseteq.
    + intros f. unfold NexusShield.weight. repeat case_match; lia.
    + apply NoDup_submseteq; assumption.
Qed.


(** ** Environment checks *)



(** ** The mousemove listener *)

Lemma slice_last15_length {A} (l : list A) :
  (15 <= length l)%nat -> length (slice_last15 l) = 15%nat.
Proof. intros H. unfold slice_last15. rewrite length_skipn. lia. Qed.

Lemma mousemove_buffer (floor : Z) (flag : string) (ex ey : Z) (now : Q)
    (ts : Tracker * State) :
  (length (points ts.1) <= 40)%nat ->
  let r := mousemove floor flag ex ey now ts in
  (length (points ts.1) < 40 ->
     points r.1 = points ts.1 ++ [mkPoint ex ey now])%nat /\
  (length (points ts.1) = 40 -> length (points r.1) = 15)%nat /\
  (length (points r.1) <= 40)%nat /\ last r.1 = now.
Proof.
  intros Hlen. destruct ts as [tr st]. simpl in Hlen. unfold mousemove. cbv zeta.
  destruct (40 <? length (points tr ++ [mkPoint ex ey now]))%nat eqn:E.
  - apply Nat.ltb_lt in E. rewrite length_app in E. simpl in E.
    assert (L : length (slice_last15 (points tr ++ [mkPoint ex ey now])) = 15%nat).
    { apply slice_last15_length. rewrite length_app. simpl. lia. }
    simpl. repeat split; try lia; try (rewrite L; lia).
  - apply Nat.ltb_ge in E. rewrite length_app in E. simpl in E.
    simpl. repeat split; try lia; try (rewrite length_app; simpl; lia).
Qed.

(** X23. The listener never keeps more than 40 positions: it appends each event
    while the buffer holds fewer than 40, and on the event that would make
    it 41 it evaluates the path and keeps the last 15. This holds after any
    sequence of events. *)
Theorem mouse_buffer_bounded
    (floor : Z) (flag : string) (evs : list Point) (ts : Tracker * State) :
  (length (points ts.1) <= 40)%nat ->
  (length (points (moves floor flag evs ts).1) <= 40)%nat /\
  (length (points ts.1) + length evs <= 40 ->
     points (moves floor flag evs ts).1 = points ts.1 ++ evs)%nat /\
  (forall ex ey now, length (points ts.1) = 40%nat ->
     length (points (mousemove floor flag ex ey now ts).1) = 15%nat).
Proof.
  intros Hlen. split; [|split].
  - revert ts Hlen. induction evs as [|e rest IH]; intros ts Hlen; [exact Hlen|].
    unfold moves. cbn [fold_left]. apply IH.
    apply (mousemove_buffer floor flag (x e) (y e) (t e) ts Hlen).
  - revert ts Hlen. induction evs as [|e rest IH]; intros ts Hlen Hsum.
    + simpl. rewrite app_nil_r. reflexivity.
    + unfold moves. cbn [fold_left]. cbn [length] in Hsum.
      destruct (mousemove_buffer floor flag (x e) (y e) (t e) ts Hlen) as (H1 & _ & H3 & _).
      fold (moves floor flag rest (mousemove floor flag (x e) (y e) (t e) ts)).
      rewrite IH; [|exact H3|rewrite H1 by lia; rewrite length_app; simpl; lia].
      rewrite H1 by lia. destruct e. rewrite <- app_assoc. reflexivity.
  - intros ex ey now H40.
    apply (mousemove_buffer floor flag ex ey now ts Hlen). exact H40.
Qed.

Lemma mouse_buffer_bounded_witness :
  (length (points (moves 50 "low_behavioral_entropy" Browser.diagonal
                     (tracker0, initial)).1) <= 40)%nat.
Proof.
  apply (mouse_buffer_bounded 50 "low_behavioral_entropy" Browser.diagonal
           (tracker0, initial)).
  simpl. lia.
Defined.

Lemma collinear_cross (a b c : Z) (p q r : Point) :
  a <> 0 \/ b <> 0 ->
  a * x p + b * y p = c -> a * x q + b * y q = c -> a * x r + b * y r = c ->
  (x q - x p) * (y r - y q) - (y q - y p) * (x r - x q) = 0.
Proof.
  intros Hab Hp Hq Hr.
  set (dx1 := x q - x p). set (dy1 := y q - y p).
  set (dx2 := x r - x q). set (dy2 := y r - y q).
  assert (E1 : a * dx1 = - (b * dy1)) by (unfold dx1, dy1; lia).
  assert (E2 : a * dx2 = - (b * dy2)) by (unfold dx2, dy2; lia).
  assert (Ha : a * (dx1 * dy2 - dy1 * dx2) = 0).
  { replace (a * (dx1 * dy2 - dy1 * dx2)) with ((a * dx1) * dy2 - dy1 * (a * dx2)) by ring.
    rewrite E1, E2. ring. }
  assert (F1 : b * dy1 = - (a * dx1)) by lia.
  assert (F2 : b * dy2 = - (a * dx2)) by lia.
  assert (Hb : b * (dx1 * dy2 - dy1 * dx2) = 0).
  { replace (b * (dx1 * dy2 - dy1 * dx2)) with (dx1 * (b * dy2) - (b * dy1) * dx2) by ring.
    rewrite F1, F2. ring. }
  destruct Hab as [H|H].
  - apply Z.mul_eq_0 in Ha as [Ha|Ha]; [contradiction | exact Ha].
  - apply Z.mul_eq_0 in Hb as [Hb|Hb]; [contradiction | exact Hb].
Qed.

Lemma entropy_nonneg (pts : list Point) : 0 <= entropy pts.
Proof.
  induction pts as [|p rest IH]; simpl; [lia|].
  destruct rest as [|q [|r rest']]; lia.
Qed.

Lemma entropy_on_line (a b c : Z) (pts : list Point) :
  a <> 0 \/ b <> 0 -> on_line a b c pts -> entropy pts = 0.
Proof.
  intros Hab H. induction H as [|p rest Hp Hrest IH]; [reflexivity|].
  cbn [entropy]. destruct rest as [|q [|r rest']]; try reflexivity.
  rewrite IH.
  apply Forall_cons in Hrest as [Hq Hrest']. apply Forall_cons in Hrest' as [Hr _].
  rewrite (collinear_cross a b c p q r Hab Hp Hq Hr). reflexivity.
Qed.

(** X24. The entropy of a path is never negative and is 0 for positions on one
    straight line. Hence a pointer that moves 41 times along a straight line
    is flagged by the listener whatever its timing: the entropy recorded is
    0, the script's low-entropy flag is raised (for any positive threshold),
    and the path is not rewarded. *)
Theorem straight_path_is_flagged
    (floor : Z) (flag : string) (a b c : Z) (evs : list Point) (st : State) :
  a <> 0 \/ b <> 0 -> on_line a b c evs -> length evs = 41%nat -> 0 < floor ->
  let r := moves floor flag evs (tracker0, st) in
  entropy evs = 0 /\ behavioralEntropy r.2 = 0 /\ flag ∈ flags r.2 /\
  signals r.2 = signals st /\ length (points r.1) = 15%nat /\
  (forall pts, 0 <= entropy pts).
Proof.
  intros Hab Hline Hlen Hfloor r.
  pose proof (entropy_on_line a b c evs Hab Hline) as He.
  split; [exact He|].
  destruct (exists_last (l := evs)) as (front & e & Eevs);
    [intros ->; discriminate Hlen|].
  assert (Hfront : length front = 40%nat).
  { rewrite Eevs, length_app in Hlen. simpl in Hlen. lia. }
  assert (Hpts : points (moves floor flag front (tracker0, st)).1 = front).
  { apply (mouse_buffer_bounded floor flag front (tracker0, st)); simpl; lia. }
  assert (Hsig : signals (moves floor flag front (tracker0, st)).2 = signals st).
  { clear -Hfront.
    assert (G : forall (fr : list Point) (ts : Tracker * State),
              (length (points ts.1) + length fr <= 40)%nat ->
              signals (moves floor flag fr ts).2 = signals ts.2).
    { induction fr as [|p fr IH]; intros ts Hs; [reflexivity|].
      unfold moves. cbn [fold_left]. cbn [length] in Hs.
      fold (moves floor flag fr (mousemove floor flag (x p) (y p) (t p) ts)).
      assert (Hts : (length (points ts.1) <= 40)%nat) by lia.
      destruct (mousemove_buffer floor flag (x p) (y p) (t p) ts Hts) as (H1 & _).
      rewrite IH; [|rewrite H1 by lia; rewrite length_app; simpl; lia].
      destruct ts as [tr s0]. unfold mousemove. cbv zeta.
      replace (40 <? length (points tr ++ [mkPoint (x p) (y p) (t p)]))%nat with false
        by (symmetry; apply Nat.ltb_ge; rewrite length_app; simpl in *; lia).
      simpl. case_match; [apply penalize_signals | reflexivity]. }
    apply G. simpl. lia. }
  unfold r. rewrite Eevs. unfold moves. rewrite fold_left_app. cbn [fold_left].
  fold (moves floor flag front (tracker0, st)).
  destruct (moves floor flag front (tracker0, st)) as [tr s1] eqn:Em.
  simpl in Hpts, Hsig. unfold mousemove. cbv zeta. rewrite Hpts.
  assert (Ee : front ++ [mkPoint (x e) (y e) (t e)] = evs) by (rewrite Eevs; destruct e; reflexivity).
  rewrite Ee.
  replace (40 <? length evs)%nat with true by (rewrite Hlen; reflexivity).
  rewrite He. replace (0 <? floor) with true by (symmetry; apply Z.ltb_lt; exact Hfloor).
  cbn [fst snd].
  split; [|split; [|split; [|split; [|exact entropy_nonneg]]]].
  - unfold penalize. case_match; reflexivity.
  - unfold penalize. case_bool_decide as Hin; [exact Hin|]. simpl.
    apply elem_of_app. right. constructor.
  - rewrite penalize_signals. cbn [signals]. case_match; rewrite ?penalize_signals; exact Hsig.
  - cbn [points]. apply slice_last15_length. rewrite Hlen. lia.
Qed.

Lemma straight_path_is_flagged_witness :
  "low_behavioral_entropy" ∈
    flags (moves 50 "low_behavioral_entropy" Browser.diagonal (tracker0, initial)).2.
Proof.
  apply (straight_path_is_flagged 50 "low_behavioral_entropy" 1 (-1) 0
           Browser.diagonal initial).
  - left. discriminate.
  - unfold Browser.diagonal, on_line. apply Forall_map. apply Forall_forall.
    intros i _. simpl. lia.
  - reflexivity.
  - lia.
Defined.

End ShieldProps.

(** * The adaptive engine on bodies of any JSON shape *)

Module UntypedProps.
Import Json Untyped.

Opaque Number.to_string Number.add Json.stringify Untyped.stringify.

(** ** The handlers, with the state threaded explicitly *)

Lemma untyped_getTrustState_eq clock fp s :
  getTrustState clock fp s =
  match trustMemory s !! fp with
  | Some state => (state, s)
  | None =>
      let state := Nexus.mkTrust 0 (clock (ticks s)) [] in
      (state, mkServer (SECRET s) (SECRET_VERSION s) (usedNonces s)
                       (<[fp := state]> (trustMemory s)) (S (ticks s)) (parsed s))
  end.
Proof.
  unfold getTrustState, Date_now, bind, ret, gets, modify, set_trustMemory.
  destruct (trustMemory s !! fp); reflexivity.
Qed.

Lemma untyped_computeRisk_eq clock req fp s :
  computeRisk clock req fp s =
  let (state0, s1) := getTrustState clock fp s in
  let state1 := Nexus.decay state0 (clock (ticks s1)) in
  let times := Spec.window state1 (clock (S (ticks s1))) in
  let ua := default EmptyString (user_agent req) in
  let sc := 0%Q in
  let sc := if test_ci "Headless" ua then (sc + 0.6)%Q else sc in
  let sc := if test_ci "curl" ua || test_ci "wget" ua ||
               test_ci "python" ua || test_ci "axios" ua
            then (sc + 0.6)%Q else sc in
  let sc := if (30 <? length times)%nat then (sc + 0.5)%Q else sc in
  let state2 := Nexus.mkTrust (Nexus.score state1 + sc)%Q (Nexus.lastSeen state1) times in
  (Nexus.score state2,
   mkServer (SECRET s1) (SECRET_VERSION s1) (usedNonces s1)
            (<[fp := state2]> (<[fp := state1]> (trustMemory s1)))
            (S (S (ticks s1))) (parsed s1)).
Proof.
  unfold computeRisk, bind at 1.
  destruct (getTrustState clock fp s) as [state0 s1].
  reflexivity.
Qed.

Lemma untyped_verify_eq clock req s :
  verify clock req s =
  let id := parsed s in
  let s0 := received (clock (ticks s)) s in
  match fingerprintHash req, nonce req, counter req, hash req with
  | Some fp, Some n, Some c, Some h =>
      if negb (truthy fp) || negb (truthy n) || negb (truthy h) then (MALFORMED, s0) else
      if bool_decide (is_Some (usedNonces s0 !! key_of id 1 n)) then (REPLAY, s0) else
      match concat fp n c with
      | Some (PStr data) =>
          match h with
          | Str hs =>
              if negb (String.eqb (sha256 data) hs) then (INVALID_POW, s0) else
              let key := key_of id 0 fp in
              let (state, s1) := getTrustState clock key s0 in
              if Nexus.difficulty_of (Nexus.score state) <? 0
              then (Uncaught "RangeError: Invalid count value", s1) else
              if negb (startsWith hs (zeros (Nexus.difficulty_of (Nexus.score state))))
              then (DIFFICULTY_FAIL, s1) else
              let (risk, s2) := computeRisk clock req key s1 in
              let s3 := mkServer (SECRET s2) (SECRET_VERSION s2)
                                 (<[key_of id 1 n := clock (ticks s2)]> (usedNonces s2))
                                 (trustMemory s2) (S (ticks s2)) (parsed s2) in
              if Qgtb risk 3 then (SHADOW_THROTTLED, s3) else
              if Qgtb risk 5 then (HIGH_RISK, s3) else
              let p := mkPayload fp (ip req) (clock (ticks s3) + Nexus.TOKEN_TTL)
                                 (SECRET_VERSION s3) in
              (Reply 200 (TokenBody p
                 (hex_of_bytes (hmac_sha256 (SECRET s3) (bytes_of_string (stringify p))))),
               mkServer (SECRET s3) (SECRET_VERSION s3) (usedNonces s3)
                        (alter (fun st => Nexus.mkTrust (Nexus.score st * 0.5)%Q
                                            (Nexus.lastSeen st) (Nexus.requestTimes st))
                               key (trustMemory s3))
                        (S (ticks s3)) (parsed s3))
          | _ => (INVALID_POW, s0)
          end
      | _ => (THROWN, s0)
      end
  | _, _, _, _ => (MALFORMED, s0)
  end.
Proof.
  unfold verify, arrive, cleanNonces, sign, mutate, Date_now.
  unfold bind, ret, gets, modify, set_usedNonces, set_trustMemory, received.
  cbv zeta.
  destruct (fingerprintHash req) as [fp|]; [|reflexivity].
  destruct (nonce req) as [n|]; [|reflexivity].
  destruct (counter req) as [c|]; [|reflexivity].
  destruct (hash req) as [h|]; [|reflexivity].
  destruct (negb (truthy fp) || negb (truthy n) || negb (truthy h)); [reflexivity|].
  cbn [usedNonces]. destruct (bool_decide _); [reflexivity|].
  destruct (concat fp n c) as [[| | |data]|]; try reflexivity.
  destruct h as [| | |hs| |]; try reflexivity.
  destruct (negb (String.eqb (sha256 data) hs)); [reflexivity|].
  destruct (getTrustState clock _ _) as [state s1].
  repeat case_match; reflexivity.
Qed.

Lemma untyped_challenge_eq clock rnd req s :
  challenge clock rnd req s =
  let id := parsed s in
  let s0 := received (clock (ticks s)) s in
  match fingerprintHash req with
  | Some fp =>
      if negb (truthy fp) then (Reply 400 (Error "Missing fingerprint"), s0) else
      let key := key_of id 0 fp in
      let (state0, s1) := getTrustState clock key s0 in
      let state1 := Nexus.decay state0 (clock (ticks s1)) in
      (Reply 200 (ChallengeBody (hex_of_bytes rnd)
                    (Nexus.difficulty_of (Nexus.score state1)) (SECRET_VERSION s1)),
       mkServer (SECRET s1) (SECRET_VERSION s1) (usedNonces s1)
                (<[key := state1]> (trustMemory s1)) (S (ticks s1)) (parsed s1))
  | None => (Reply 400 (Error "Missing fingerprint"), s0)
  end.
Proof.
  unfold challenge, arrive, cleanNonces, decayTrust, store, Date_now.
  unfold bind, ret, gets, modify, set_usedNonces, set_trustMemory, received.
  cbv zeta. cbn [SECRET SECRET_VERSION usedNonces trustMemory ticks parsed].
  repeat case_match; reflexivity.
Qed.

Lemma untyped_protected_eq clock req s :
  protected clock req s =
  let s0 := mkServer (SECRET s) (SECRET_VERSION s) (usedNonces s) (trustMemory s)
                     (ticks s) (S (parsed s)) in
  match payload req, signature req with
  | Some p, Some sg =>
      if String.eqb sg EmptyString then (Reply 400 (Error "Missing token"), s0) else
      match timingSafeEqual (bytes_of_string sg)
              (bytes_of_string
                 (hex_of_bytes (hmac_sha256 (SECRET s) (bytes_of_string (stringify p))))) with
      | None => (Uncaught "RangeError: Input buffers must have the same byte length", s0)
      | Some false => (BAD_SIGNATURE, s0)
      | Some true =>
          let s1 := mkServer (SECRET s) (SECRET_VERSION s) (usedNonces s)
                             (trustMemory s) (S (ticks s)) (S (parsed s)) in
          if clock (ticks s) >? p_exp p then (EXPIRED, s1) else
          if negb (String.eqb (p_ip p) (ip req)) then (IDENTITY_MISMATCH, s1) else
          (VALID, s1)
      end
  | _, _ => (Reply 400 (Error "Missing token"), s0)
  end.
Proof.
  unfold protected, arrive, verifySignature, sign, Date_now.
  unfold bind, ret, gets. cbv zeta.
  destruct (payload req) as [p|]; [|reflexivity].
  destruct (signature req) as [sg|]; [|reflexivity].
  destruct (String.eqb sg EmptyString); [reflexivity|].
  cbn [SECRET]. destruct (timingSafeEqual _ _) as [[|]|]; try reflexivity.
  cbn [SECRET SECRET_VERSION usedNonces trustMemory ticks parsed].
  repeat case_match; reflexivity.
Qed.

(** ** Invariants of the reachable states *)

Lemma untyped_getTrustState_facts clock fp s :
  let r := getTrustState clock fp s in
  usedNonces r.2 = usedNonces s /\ parsed r.2 = parsed s /\
  trustMemory r.2 !! fp = Some r.1 /\
  (scores_nonneg s -> scores_nonneg r.2 /\ (0 <= Nexus.score r.1)%Q).
Proof.
  rewrite untyped_getTrustState_eq.
  destruct (trustMemory s !! fp) as [st|] eqn:E; simpl.
  - repeat split; try assumption. exact (H fp st E).
  - repeat split.
    + apply lookup_insert_eq.
    + apply map_Forall_insert_2; [simpl; lra | exact H].
    + lra.
Qed.

Lemma untyped_computeRisk_facts clock req fp s :
  let r := computeRisk clock req fp s in
  usedNonces r.2 = usedNonces s /\ parsed r.2 = parsed s /\
  (scores_nonneg s -> scores_nonneg r.2).
Proof.
  rewrite untyped_computeRisk_eq.
  pose proof (untyped_getTrustState_facts clock fp s) as F.
  destruct (getTrustState clock fp s) as [st s1].
  simpl in F. destruct F as (F1 & F2 & _ & F5).
  cbv zeta. simpl. repeat split; try assumption.
  intros H. destruct (F5 H) as [H1 H2].
  pose proof (decay_nonneg st (clock (ticks s1)) H2) as Hd.
  apply map_Forall_insert_2; [|apply map_Forall_insert_2; [exact Hd | exact H1]].
  simpl. unfold Nexus.decay in *; simpl in *. repeat case_match; lra.
Qed.

Lemma received_refs (now : Z) (s : Server) :
  refs_known s -> refs_known (received now s).
Proof.
  intros H r f t Hl. unfold received in Hl; simpl in Hl.
  apply map_lookup_filter_Some in Hl as [Hl _]. simpl. specialize (H r f t Hl). lia.
Qed.

Lemma key_of_known (id field : nat) (v : Value) (r f : nat) :
  key_of id field v = KRef r f -> r = id.
Proof. destruct v; simpl; intros E; try discriminate E. all: injection E as <- _; reflexivity. Qed.

Lemma untyped_halve_nonneg (fp : Key) (tm : gmap Key Nexus.TrustState) :
  map_Forall (fun _ st => (0 <= Nexus.score st)%Q) tm ->
  map_Forall (fun _ st => (0 <= Nexus.score st)%Q)
    (alter (fun st => Nexus.mkTrust (Nexus.score st * 0.5)%Q (Nexus.lastSeen st)
                        (Nexus.requestTimes st)) fp tm).
Proof.
  intros H k st' Hk. apply lookup_alter_Some in Hk.
  destruct Hk as [(-> & st0 & Hst0 & ->) | (_ & Hk)].
  - simpl. pose proof (H _ _ Hst0) as Hs; simpl in Hs. lra.
  - exact (H _ _ Hk).
Qed.

Lemma untyped_verify_invariant clock req s :
  invariant s -> invariant (verify clock req s).2.
Proof.
  intros [Hn Hr]. rewrite untyped_verify_eq. cbv zeta.
  assert (Hn0 : scores_nonneg (received (clock (ticks s)) s)) by exact Hn.
  pose proof (received_refs (clock (ticks s)) s Hr) as Hr0.
  assert (I0 : invariant (received (clock (ticks s)) s)) by (split; assumption).
  destruct (fingerprintHash req) as [fp|]; [|exact I0].
  destruct (nonce req) as [n|]; [|exact I0].
  destruct (counter req) as [c|]; [|exact I0].
  destruct (hash req) as [h|]; [|exact I0].
  destruct (negb (truthy fp) || negb (truthy n) || negb (truthy h)); [exact I0|].
  destruct (bool_decide _); [exact I0|].
  destruct (concat fp n c) as [[| | |data]|]; try exact I0.
  destruct h as [| | |hs| |]; try exact I0.
  destruct (negb (String.eqb (sha256 data) hs)); [exact I0|].
  pose proof (untyped_getTrustState_facts clock (key_of (parsed s) 0 fp)
                (received (clock (ticks s)) s)) as F.
  destruct (getTrustState clock (key_of (parsed s) 0 fp) (received (clock (ticks s)) s))
    as [st s1].
  simpl in F. destruct F as (F1 & F2 & _ & F4). destruct (F4 Hn0) as [Hn1 _].
  assert (Hr1 : refs_known s1).
  { intros r f t Hl. rewrite F1 in Hl. rewrite F2. exact (Hr0 r f t Hl). }
  destruct (Nexus.difficulty_of (Nexus.score st) <? 0); [split; assumption|].
  destruct (negb (startsWith hs _)); [split; assumption|].
  pose proof (untyped_computeRisk_facts clock req (key_of (parsed s) 0 fp) s1) as G.
  destruct (computeRisk clock req (key_of (parsed s) 0 fp) s1) as [risk s2].
  simpl in G. destruct G as (G1 & G2 & G3). specialize (G3 Hn1).
  assert (Hr3 : forall r f t,
            <[key_of (parsed s) 1 n := clock (ticks s2)]> (usedNonces s2) !! KRef r f = Some t ->
            (r < parsed s2)%nat).
  { intros r f t Hl. rewrite G2, F2. simpl.
    destruct (decide (key_of (parsed s) 1 n = KRef r f)) as [E|Hne].
    - apply key_of_known in E. lia.
    - rewrite lookup_insert_ne in Hl by exact Hne.
      rewrite G1 in Hl. specialize (Hr1 r f t Hl). rewrite F2 in Hr1. exact Hr1. }
  destruct (Qgtb risk 3); [split; [exact G3 | exact Hr3]|].
  destruct (Qgtb risk 5); [split; [exact G3 | exact Hr3]|].
  split; [|exact Hr3].
  apply untyped_halve_nonneg. exact G3.
Qed.

Lemma untyped_challenge_invariant clock rnd req s :
  invariant s -> invariant (challenge clock rnd req s).2.
Proof.
  intros [Hn Hr]. rewrite untyped_challenge_eq. cbv zeta.
  assert (Hn0 : scores_nonneg (received (clock (ticks s)) s)) by exact Hn.
  pose proof (received_refs (clock (ticks s)) s Hr) as Hr0.
  destruct (fingerprintHash req) as [fp|]; [|split; assumption].
  destruct (negb (truthy fp)); [split; assumption|].
  pose proof (untyped_getTrustState_facts clock (key_of (parsed s) 0 fp)
                (received (clock (ticks s)) s)) as F.
  destruct (getTrustState clock (key_of (parsed s) 0 fp) (received (clock (ticks s)) s))
    as [st s1].
  simpl in F. destruct F as (F1 & F2 & _ & F4). destruct (F4 Hn0) as [Hn1 Hs].
  split.
  - apply map_Forall_insert_2; [exact (decay_nonneg st _ Hs) | exact Hn1].
  - intros r f t Hl. simpl in Hl. rewrite F1 in Hl. simpl. rewrite F2.
    exact (Hr0 r f t Hl).
Qed.

Lemma untyped_protected_invariant clock req s :
  invariant s -> invariant (protected clock req s).2.
Proof.
  intros [Hn Hr]. rewrite untyped_protected_eq. cbv zeta.
  assert (H : forall t, invariant (mkServer (SECRET s) (SECRET_VERSION s) (usedNonces s)
                                     (trustMemory s) t (S (parsed s)))).
  { intros t. split; [exact Hn|]. intros r f t' Hl. specialize (Hr r f t' Hl). simpl. lia. }
  repeat case_match; apply H.
Qed.

Lemma untyped_handle_invariant clock ev s :
  invariant s -> invariant (handle clock ev s).2.
Proof.
  intros H. destruct ev as [rnd req|req|req|rnd]; unfold handle, bind, ret.
  - pose proof (untyped_challenge_invariant clock rnd req s H).
    destruct (challenge clock rnd req s); assumption.
  - pose proof (untyped_verify_invariant clock req s H).
    destruct (verify clock req s); assumption.
  - pose proof (untyped_protected_invariant clock req s H).
    destruct (protected clock req s); assumption.
  - exact H.
Qed.

Lemma untyped_run_invariant clock evs : forall s,
  invariant s -> invariant (run clock evs s).2.
Proof.
  induction evs as [|ev rest IH]; intros s H; simpl.
  - exact H.
  - unfold bind, ret. pose proof (untyped_handle_invariant clock ev s H) as H1.
    destruct (handle clock ev s) as [r s1]. simpl in H1.
    specialize (IH s1 H1). destruct (run clock rest s1) as [rs s2]. exact IH.
Qed.

Lemma untyped_reachable_invariant clock s : reachable clock s -> invariant s.
Proof.
  intros (rnd & evs & <-). apply untyped_run_invariant.
  split.
  - unfold scores_nonneg, boot; simpl. apply map_Forall_empty.
  - intros r f t Hl. unfold boot in Hl; simpl in Hl. rewrite lookup_empty in Hl.
    discriminate Hl.
Qed.

(** ** Answers of /verify *)

Lemma untyped_verify_answer clock req s :
  invariant s ->
  verify_answer (verify clock req s).1 \/ (verify clock req s).1 = THROWN.
Proof.
  intros [Hn Hr]. rewrite untyped_verify_eq. cbv zeta. unfold verify_answer.
  assert (Hn0 : scores_nonneg (received (clock (ticks s)) s)) by exact Hn.
  destruct (fingerprintHash req) as [fp|]; [|simpl; auto].
  destruct (nonce req) as [n|]; [|simpl; auto].
  destruct (counter req) as [c|]; [|simpl; auto].
  destruct (hash req) as [h|]; [|simpl; auto].
  destruct (negb (truthy fp) || negb (truthy n) || negb (truthy h)); [simpl; auto|].
  destruct (bool_decide _); [simpl; auto|].
  destruct (concat fp n c) as [[| | |data]|]; try (simpl; auto; fail).
  destruct h as [| | |hs| |]; try (simpl; auto; fail).
  destruct (negb (String.eqb (sha256 data) hs)); [simpl; auto|].
  pose proof (untyped_getTrustState_facts clock (key_of (parsed s) 0 fp)
                (received (clock (ticks s)) s)) as F.
  destruct (getTrustState clock (key_of (parsed s) 0 fp) (received (clock (ticks s)) s))
    as [st s1].
  simpl in F. destruct F as (_ & _ & _ & F4). destruct (F4 Hn0) as [_ Hs].
  pose proof (difficulty_of_bounds _ Hs) as B. unfold Nexus.BASE_DIFFICULTY in B.
  destruct (Z.ltb_spec (Nexus.difficulty_of (Nexus.score st)) 0) as [Hd|_]; [lia|].
  destruct (negb (startsWith hs _)); [simpl; auto 10|].
  destruct (computeRisk clock req (key_of (parsed s) 0 fp) s1) as [risk s2].
  destruct (Qgtb risk 3) eqn:H3; [simpl; auto 10|].
  destruct (Qgtb risk 5) eqn:H5; [destruct (not_both_thresholds risk H3 H5)|].
  simpl. left. do 5 right. eauto.
Qed.

Lemma untyped_verify_thrown clock req s :
  (verify clock req s).1 = THROWN -> well_formed req /\ ~ data_is_string req.
Proof.
  rewrite untyped_verify_eq. cbv zeta. unfold well_formed, data_is_string, falsy.
  destruct (fingerprintHash req) as [fp|]; [|intros E; discriminate E].
  destruct (nonce req) as [n|]; [|intros E; discriminate E].
  destruct (counter req) as [c|]; [|intros E; discriminate E].
  destruct (hash req) as [h|]; [|intros E; discriminate E].
  destruct (negb (truthy fp) || negb (truthy n) || negb (truthy h)) eqn:Ef;
    [intros E; discriminate E|].
  apply orb_false_elim in Ef as [Ef Ef3]. apply orb_false_elim in Ef as [Ef1 Ef2].
  destruct (bool_decide _); [intros E; discriminate E|].
  destruct (concat fp n c) as [[| | |data]|] eqn:Ec.
  4: { destruct h as [| | |hs| |]; try (intros E; discriminate E).
       destruct (negb (String.eqb (sha256 data) hs)); [intros E; discriminate E|].
       destruct (getTrustState clock _ _) as [st s1].
       repeat case_match; simpl; intros E; discriminate E. }
  all: intros _; split; [repeat split; [assumption..|discriminate|assumption]|];
    intros (fp' & n' & c' & d & E1 & E2 & E3 & E4);
    injection E1 as <-; injection E2 as <-; injection E3 as <-;
    rewrite Ec in E4; discriminate E4.
Qed.

Lemma untyped_verify_throws clock req s :
  well_formed req -> ~ data_is_string req ->
  (verify clock req s).1 = THROWN \/ (verify clock req s).1 = REPLAY.
Proof.
  intros (H1 & H2 & H3 & H4) Hd. rewrite untyped_verify_eq. cbv zeta.
  unfold falsy in *.
  destruct (fingerprintHash req) as [fp|] eqn:Efp; [|discriminate H1].
  destruct (nonce req) as [n|] eqn:En; [|discriminate H2].
  destruct (counter req) as [c|] eqn:Ec; [|congruence].
  destruct (hash req) as [h|] eqn:Eh; [|discriminate H4].
  rewrite H1, H2, H4. cbn [orb]. cbv iota.
  destruct (bool_decide _); [right; reflexivity|].
  destruct (concat fp n c) as [[| | |data]|] eqn:Ed; try (left; reflexivity).
  exfalso. apply Hd. unfold data_is_string. rewrite Efp, En, Ec. eauto 10.
Qed.

(** X1. Whatever JSON values the four body fields hold, in every state the
    process can reach /verify either gives one of its own answers
    (malformed, replay, invalid hash, difficulty fail, shadow-throttled, a
    token) or throws a [TypeError] out of [sha256]. It throws only on a body
    that passes the check of line 161 and whose
    [fingerprintHash + nonce + counter] is not a string, and on such a body it
    always throws unless the nonce is a replay. When the three fields are
    strings the sum is a string and the handler answers; when they are
    numbers it is not. *)
Theorem verify_answers_or_throws (clock : nat -> Z) (req : Request) (s : Server) :
  reachable clock s ->
  let r := (verify clock req s).1 in
  (verify_answer r \/ r = THROWN) /\
  (r = THROWN -> well_formed req /\ ~ data_is_string req) /\
  (well_formed req -> ~ data_is_string req -> r = THROWN \/ r = REPLAY) /\
  (forall fp n c,
     fingerprintHash req = Some (Str fp) -> nonce req = Some (Str n) ->
     counter req = Some (Str c) -> data_is_string req /\ verify_answer r) /\
  (forall x y z,
     fingerprintHash req = Some (Num x) -> nonce req = Some (Num y) ->
     counter req = Some (Num z) -> ~ data_is_string req).
Proof.
  intros Hreach r.
  pose proof (untyped_reachable_invariant clock s Hreach) as Hinv.
  pose proof (untyped_verify_answer clock req s Hinv) as Ha. fold r in Ha.
  split; [exact Ha|].
  split; [exact (untyped_verify_thrown clock req s)|].
  split; [exact (untyped_verify_throws clock req s)|].
  split.
  - intros fp n c Efp En Ec.
    assert (Hd : data_is_string req).
    { exists (Str fp), (Str n), (Str c), ((fp +:+ n) +:+ c). auto. }
    split; [exact Hd|].
    destruct Ha as [Ha|Ha]; [exact Ha|].
    destruct (untyped_verify_thrown clock req s Ha) as [_ Hno]. destruct (Hno Hd).
  - intros x y z Efp En Ec (fp' & n' & c' & d & E1 & E2 & E3 & E4).
    rewrite Efp in E1. rewrite En in E2. rewrite Ec in E3.
    injection E1 as <-. injection E2 as <-. injection E3 as <-.
    discriminate E4.
Qed.

Lemma verify_answers_or_throws_witness :
  (verify Run.steady Odd.numbers (boot Run.secret)).1 = THROWN.
Proof.
  destruct (verify_answers_or_throws Run.steady Odd.numbers (boot Run.secret))
    as (_ & _ & Hthrows & _ & Hnum).
  - exists Run.secret, []. reflexivity.
  - assert (W : well_formed Odd.numbers)
      by (repeat split; try reflexivity; discriminate).
    assert (D : ~ data_is_string Odd.numbers)
      by (apply (Hnum (binary_normalize 53 1024 1 0 false)
                      (binary_normalize 53 1024 2 0 false)
                      (binary_normalize 53 1024 3 0 false)); reflexivity).
    destruct (Hthrows W D) as [E|E]; [exact E|].
    vm_compute in E. discriminate E.
Defined.

(** ** Arrays and objects as nonces *)

(** X26. [usedNonces.has(nonce)] compares an array or an object by identity, and
    the object of a parsed body is new: a submission whose nonce is an array
    or an object is never answered with the replay rejection, in any state
    the process can reach. When it is accepted it is recorded, under a key
    that no later request can present. *)
Theorem object_nonce_is_never_replay
    (clock : nat -> Z) (req : Request) (s : Server) (n : Value) :
  reachable clock s -> nonce req = Some n -> is_object n ->
  let r := verify clock req s in
  r.1 <> REPLAY /\
  (verify clock req r.2).1 <> REPLAY /\
  ((exists p sg, r.1 = Reply 200 (TokenBody p sg)) \/ r.1 = SHADOW_THROTTLED ->
     exists t, usedNonces r.2 !! KRef (parsed s) 1 = Some t /\
               forall t', usedNonces s !! KRef (parsed s) 1 <> Some t').
Proof.
  intros Hreach En Hobj.
  assert (Hfresh : forall s0, invariant s0 -> (verify clock req s0).1 <> REPLAY).
  { intros s0 [_ Hr]. rewrite untyped_verify_eq. cbv zeta. rewrite En.
    assert (Hk : key_of (parsed s0) 1 n = KRef (parsed s0) 1)
      by (destruct n; try destruct Hobj; reflexivity).
    rewrite Hk.
    assert (Hnone : usedNonces (received (clock (ticks s0)) s0) !! KRef (parsed s0) 1 = None).
    { destruct (usedNonces (received (clock (ticks s0)) s0) !! KRef (parsed s0) 1)
        as [t|] eqn:E; [|reflexivity].
      unfold received in E; simpl in E. apply map_lookup_filter_Some in E as [E _].
      specialize (Hr _ _ _ E). lia. }
    rewrite Hnone. rewrite bool_decide_eq_false_2 by (intros [x Hx]; discriminate Hx).
    destruct (fingerprintHash req) as [fp|]; [|discriminate].
    destruct (counter req) as [c|]; [|discriminate].
    destruct (hash req) as [h|]; [|discriminate].
    destruct (negb (truthy fp) || negb (truthy n) || negb (truthy h)); [discriminate|].
    destruct (concat fp n c) as [[| | |data]|]; try discriminate.
    destruct h as [| | |hs| |]; try discriminate.
    destruct (negb (String.eqb (sha256 data) hs)); [discriminate|].
    destruct (getTrustState clock _ _) as [st s1].
    repeat case_match; simpl; discriminate. }
  pose proof (untyped_reachable_invariant clock s Hreach) as Hinv.
  cbv zeta. split; [exact (Hfresh s Hinv)|].
  split; [apply Hfresh, untyped_verify_invariant, Hinv|].
  intros Hacc.
  assert (Hrec : exists t, usedNonces (verify clock req s).2 !! KRef (parsed s) 1 = Some t).
  { revert Hacc. rewrite untyped_verify_eq. cbv zeta. rewrite En.
    assert (Hk : key_of (parsed s) 1 n = KRef (parsed s) 1)
      by (destruct n; try destruct Hobj; reflexivity).
    rewrite Hk.
    destruct (fingerprintHash req) as [fp|];
      [|intros [(p & sg & E)|E]; discriminate E].
    destruct (counter req) as [c|];
      [|intros [(p & sg & E)|E]; discriminate E].
    destruct (hash req) as [h|];
      [|intros [(p & sg & E)|E]; discriminate E].
    destruct (negb (truthy fp) || negb (truthy n) || negb (truthy h));
      [intros [(p & sg & E)|E]; discriminate E|].
    destruct (bool_decide _); [intros [(p & sg & E)|E]; discriminate E|].
    destruct (concat fp n c) as [[| | |data]|];
      try (intros [(p & sg & E)|E]; discriminate E).
    destruct h as [| | |hs| |]; try (intros [(p & sg & E)|E]; discriminate E).
    destruct (negb (String.eqb (sha256 data) hs));
      [intros [(p & sg & E)|E]; discriminate E|].
    destruct (getTrustState clock _ _) as [st s1].
    repeat case_match; simpl;
      try (intros [(p & sg & E)|E]; discriminate E); intros _;
      eexists; apply lookup_insert_eq. }
  destruct Hrec as [t Ht]. exists t. split; [exact Ht|].
  intros t' E. destruct Hinv as [_ Hr]. specialize (Hr _ _ _ E). lia.
Qed.

Lemma object_nonce_is_never_replay_witness :
  let first := verify Run.steady Odd.array_nonce (boot Run.secret) in
  let second := verify Run.steady Odd.array_nonce first.2 in
  first.1 = Reply 200 (TokenBody (mkPayload (Str "abc") "203.0.113.9" 61005 1)
    "3003403fc5195acc44dd745201239abb01336f266e0055f873ff42665ef62447") /\
  second.1 <> REPLAY /\
  second.1 = Reply 200 (TokenBody (mkPayload (Str "abc") "203.0.113.9" 61010 1)
    "7c8fd25c7b1cc46e60bb38d45ccec7eac14aa936fd51cd4777942a08d024b182").
Proof.
  cbv zeta. split; [vm_compute; reflexivity|]. split; [|vm_compute; reflexivity].
  apply (object_nonce_is_never_replay Run.steady Odd.array_nonce (boot Run.secret)
           (Arr [Str "n1"])).
  - exists Run.secret, []. reflexivity.
  - reflexivity.
  - exact I.
Defined.

(** ** Bodies whose fields are strings *)

Lemma append_assoc (a b c : string) : (a +:+ b) +:+ c = a +:+ (b +:+ c).
Proof.
  induction a as [|x a IH]; [reflexivity|].
  change (String x ((a +:+ b) +:+ c) = String x (a +:+ (b +:+ c))). now rewrite IH.
Qed.

Lemma agree_insert {A} (g : gmap Key A) (t : gmap string A) (k : string) (x : A) :
  agree g t -> agree (<[KStr k := x]> g) (<[k := x]> t).
Proof.
  intros H k'. destruct (decide (k = k')) as [->|Hne].
  - rewrite !lookup_insert_eq. reflexivity.
  - rewrite !lookup_insert_ne by congruence. apply H.
Qed.

Lemma agree_alter {A} (f : A -> A) (g : gmap Key A) (t : gmap string A) (k : string) :
  agree g t -> agree (alter f (KStr k) g) (alter f k t).
Proof.
  intros H k'. destruct (decide (k = k')) as [->|Hne].
  - rewrite !lookup_alter_eq, H. reflexivity.
  - rewrite !lookup_alter_ne by congruence. apply H.
Qed.

Lemma agree_filter (P : Z -> Prop) `{!forall x, Decision (P x)}
    (g : gmap Key Z) (t : gmap string Z) :
  agree g t ->
  agree (filter (fun e => P e.2) g) (filter (fun e => P e.2) t).
Proof.
  intros Hag k. specialize (Hag k).
  destruct (t !! k) as [x|] eqn:E.
  - destruct (decide (P x)) as [Hp|Hp].
    + transitivity (Some x); [|symmetry];
        apply map_lookup_filter_Some; auto.
    + transitivity (@None Z); [|symmetry];
        apply map_lookup_filter_None; right; intros y Hy; simpl; congruence.
  - transitivity (@None Z); [|symmetry];
      apply map_lookup_filter_None; left; assumption.
Qed.

Lemma received_matches clock (g : Server) (t : Nexus.Server) :
  matches g t ->
  matches (received (clock (ticks g)) g) (Spec.cleaned (clock (Nexus.ticks t)) t).
Proof.
  intros (H1 & H2 & H3 & H4 & H5). unfold matches, received, Spec.cleaned; simpl.
  rewrite H3. repeat split; try assumption; try congruence.
  exact (agree_filter (fun x => ~ (clock (Nexus.ticks t) - x > Nexus.NONCE_TTL)) _ _ H4).
Qed.

Lemma getTrustState_matches clock (k : string) (g : Server) (t : Nexus.Server) :
  matches g t ->
  (getTrustState clock (KStr k) g).1 = (Nexus.getTrustState clock k t).1 /\
  matches (getTrustState clock (KStr k) g).2 (Nexus.getTrustState clock k t).2.
Proof.
  intros (H1 & H2 & H3 & H4 & H5).
  rewrite untyped_getTrustState_eq, getTrustState_eq. rewrite (H5 k).
  destruct (Nexus.trustMemory t !! k) as [st|]; simpl.
  - split; [reflexivity|]. repeat split; assumption.
  - rewrite H3. split; [reflexivity|].
    repeat split; simpl; try assumption; try congruence.
    apply agree_insert. exact H5.
Qed.

Lemma computeRisk_matches clock (req : Nexus.Request) (k : string)
    (g : Server) (t : Nexus.Server) :
  matches g t ->
  (computeRisk clock (of_request req) (KStr k) g).1 = (Nexus.computeRisk clock req k t).1 /\
  matches (computeRisk clock (of_request req) (KStr k) g).2
          (Nexus.computeRisk clock req k t).2.
Proof.
  intros Hm. rewrite untyped_computeRisk_eq, computeRisk_eq.
  destruct (getTrustState_matches clock k g t Hm) as [E Hm1].
  destruct (getTrustState clock (KStr k) g) as [st g1].
  destruct (Nexus.getTrustState clock k t) as [st' t1].
  simpl in E, Hm1. subst st'. destruct Hm1 as (H1 & H2 & H3 & H4 & H5).
  cbv zeta. unfold Spec.increment. simpl. rewrite H3.
  split; [reflexivity|].
  repeat split; simpl; try assumption; try congruence.
  apply agree_insert, agree_insert. exact H5.
Qed.

Lemma falsy_string (s : string) : negb (truthy (Str s)) = Nexus.falsy (Some s).
Proof. destruct s; reflexivity. Qed.

Lemma verify_matches clock (req : Nexus.Request) (g : Server) (t : Nexus.Server) :
  matches g t ->
  (verify clock (of_request req) g).1 = of_response (Nexus.verify clock req t).1 /\
  matches (verify clock (of_request req) g).2 (Nexus.verify clock req t).2.
Proof.
  intros Hm. rewrite untyped_verify_eq, verify_eq. cbv zeta.
  pose proof (received_matches clock g t Hm) as Hm0.
  assert (Ht : ticks g = Nexus.ticks t) by apply Hm. rewrite <- Ht.
  rewrite <- Ht in Hm0.
  set (g0 := received (clock (ticks g)) g) in *.
  set (t0 := Spec.cleaned (clock (ticks g)) t) in *.
  unfold of_request. cbn [fingerprintHash nonce counter hash ip user_agent].
  destruct (Nexus.fingerprintHash req) as [fp|];
    [|split; [reflexivity | exact Hm0]].
  destruct (Nexus.nonce req) as [n|]; [|split; [reflexivity | exact Hm0]].
  destruct (Nexus.counter req) as [c|]; [|split; [reflexivity | exact Hm0]].
  destruct (Nexus.hash req) as [h|]; [|split; [reflexivity | exact Hm0]].
  cbn [fmap option_fmap option_map].
  rewrite !falsy_string.
  destruct (Nexus.falsy (Some fp) || Nexus.falsy (Some n) || Nexus.falsy (Some h));
    [split; [reflexivity | exact Hm0]|].
  cbn [key_of].
  assert (Hu : usedNonces g0 !! KStr n = Nexus.usedNonces t0 !! n) by apply Hm0.
  rewrite Hu.
  destruct (bool_decide (is_Some (Nexus.usedNonces t0 !! n)));
    [split; [reflexivity | exact Hm0]|].
  change (concat (Str fp) (Str n) (Str c)) with (Some (PStr ((fp +:+ n) +:+ c))).
  cbv iota. rewrite append_assoc.
  destruct (negb (String.eqb (sha256 (fp +:+ n +:+ c)) h));
    [split; [reflexivity | exact Hm0]|].
  destruct (getTrustState_matches clock fp g0 t0 Hm0) as [E Hm1].
  destruct (getTrustState clock (KStr fp) g0) as [st g1].
  destruct (Nexus.getTrustState clock fp t0) as [st' t1].
  simpl in E, Hm1. subst st'.
  destruct (Nexus.difficulty_of (Nexus.score st) <? 0);
    [split; [reflexivity | exact Hm1]|].
  destruct (negb (startsWith h _)); [split; [reflexivity | exact Hm1]|].
  destruct (computeRisk_matches clock req fp g1 t1 Hm1) as [Er Hm2].
  unfold of_request in Er, Hm2.
  destruct (computeRisk clock _ (KStr fp) g1) as [risk g2].
  destruct (Nexus.computeRisk clock req fp t1) as [risk' t2].
  simpl in Er, Hm2. subst risk'. destruct Hm2 as (H1 & H2 & H3 & H4 & H5).
  assert (Hm3 : matches
            (mkServer (SECRET g2) (SECRET_VERSION g2)
               (<[KStr n := clock (ticks g2)]> (usedNonces g2)) (trustMemory g2)
               (S (ticks g2)) (parsed g2))
            (Nexus.mkServer (Nexus.SECRET t2) (Nexus.SECRET_VERSION t2)
               (<[n := clock (Nexus.ticks t2)]> (Nexus.usedNonces t2))
               (Nexus.trustMemory t2) (S (Nexus.ticks t2)))).
  { repeat split; simpl; try assumption; try congruence.
    rewrite H3. apply agree_insert. exact H4. }
  destruct (Qgtb risk 3); [split; [reflexivity | exact Hm3]|].
  destruct (Qgtb risk 5); [split; [reflexivity | exact Hm3]|].
  simpl. rewrite H1, H2, H3. split; [reflexivity|].
  repeat split; simpl; try assumption; try congruence.
  - rewrite <- H3. apply agree_insert. exact H4.
  - apply agree_alter. exact H5.
Qed.

Lemma challenge_matches clock rnd (req : Nexus.Request) (g : Server) (t : Nexus.Server) :
  matches g t ->
  (challenge clock rnd (of_request req) g).1 =
    of_response (Nexus.challenge clock rnd req t).1 /\
  matches (challenge clock rnd (of_request req) g).2 (Nexus.challenge clock rnd req t).2.
Proof.
  intros Hm. rewrite untyped_challenge_eq, challenge_eq. cbv zeta.
  pose proof (received_matches clock g t Hm) as Hm0.
  assert (Ht : ticks g = Nexus.ticks t) by apply Hm. rewrite <- Ht.
  rewrite <- Ht in Hm0.
  set (g0 := received (clock (ticks g)) g) in *.
  set (t0 := Spec.cleaned (clock (ticks g)) t) in *.
  unfold of_request. cbn [fingerprintHash].
  destruct (Nexus.fingerprintHash req) as [[|a fp]|];
    [split; [reflexivity | exact Hm0]| |split; [reflexivity | exact Hm0]].
  cbn [fmap option_fmap option_map]. cbn [key_of].
  change (negb (truthy (Str (String a fp)))) with false. cbv iota.
  destruct (getTrustState_matches clock (String a fp) g0 t0 Hm0) as [E Hm1].
  destruct (getTrustState clock (KStr (String a fp)) g0) as [st g1].
  destruct (Nexus.getTrustState clock (String a fp) t0) as [st' t1].
  simpl in E, Hm1. subst st'. destruct Hm1 as (H1 & H2 & H3 & H4 & H5).
  simpl. rewrite H2, H3. split; [reflexivity|].
  repeat split; simpl; try assumption; try congruence.
  apply agree_insert. exact H5.
Qed.

Lemma protected_matches clock (req : Nexus.Request) (g : Server) (t : Nexus.Server) :
  matches g t ->
  (protected clock (of_request req) g).1 = of_response (Nexus.protected clock req t).1 /\
  matches (protected clock (of_request req) g).2 (Nexus.protected clock req t).2.
Proof.
  intros Hm. rewrite untyped_protected_eq, protected_eq. cbv zeta.
  destruct Hm as (H1 & H2 & H3 & H4 & H5).
  assert (Hm0 : forall sec ver tk tk' k,
            sec = Nexus.SECRET t -> ver = Nexus.SECRET_VERSION t -> tk = tk' ->
            matches (mkServer sec ver (usedNonces g) (trustMemory g) tk k)
                    (Nexus.mkServer (Nexus.SECRET t) (Nexus.SECRET_VERSION t)
                       (Nexus.usedNonces t) (Nexus.trustMemory t) tk'))
    by (intros; repeat split; simpl; assumption).
  destruct t as [tsec tver tused ttrust tticks].
  cbn [Nexus.SECRET Nexus.SECRET_VERSION Nexus.usedNonces Nexus.trustMemory Nexus.ticks] in *.
  unfold of_request. cbn [payload signature ip].
  destruct (Nexus.payload req) as [p|];
    [|split; [reflexivity | apply Hm0; auto]].
  destruct (Nexus.signature req) as [sg|];
    [|split; [reflexivity | apply Hm0; auto]].
  cbn [fmap option_fmap option_map].
  replace (Nexus.falsy (Some sg)) with (String.eqb sg EmptyString)
    by (destruct sg; reflexivity).
  destruct (String.eqb sg EmptyString); [split; [reflexivity | apply Hm0; auto]|].
  rewrite H1, H3.
  change (stringify (of_payload p)) with (Nexus.stringify p).
  destruct (timingSafeEqual _ _) as [[|]|];
    try (split; [reflexivity | apply Hm0; auto]).
  cbn [of_payload p_exp p_ip].
  repeat case_match; (split; [reflexivity | apply Hm0; auto]).
Qed.

Lemma handle_matches clock (ev : Nexus.Event) (g : Server) (t : Nexus.Server) :
  matches g t ->
  (handle clock (of_event ev) g).1 = map of_response (Nexus.handle clock ev t).1 /\
  matches (handle clock (of_event ev) g).2 (Nexus.handle clock ev t).2.
Proof.
  intros Hm. destruct ev as [rnd req|req|req|rnd];
    unfold handle, Nexus.handle, of_event, bind, ret.
  - destruct (challenge_matches clock rnd req g t Hm) as [E Hm'].
    destruct (challenge clock rnd (of_request req) g),
             (Nexus.challenge clock rnd req t); simpl in *.
    split; [congruence | exact Hm'].
  - destruct (verify_matches clock req g t Hm) as [E Hm'].
    destruct (verify clock (of_request req) g), (Nexus.verify clock req t); simpl in *.
    split; [congruence | exact Hm'].
  - destruct (protected_matches clock req g t Hm) as [E Hm'].
    destruct (protected clock (of_request req) g), (Nexus.protected clock req t);
      simpl in *.
    split; [congruence | exact Hm'].
  - simpl. split; [reflexivity|]. destruct Hm as (H1 & H2 & H3 & H4 & H5).
    repeat split; simpl; try assumption; congruence.
Qed.

(** X27. On bodies whose fields are strings the handlers behave as the
    typed rendering [Nexus] of them says, whatever requests of other shapes
    the process has served before: along any sequence of such requests and
    rotations the answers are the same, and so are the secret, its version,
    the clock readings taken and the entries of both maps under string
    keys. *)
Theorem string_bodies_as_in_Nexus
    (clock : nat -> Z) (evs : list Nexus.Event) (g : Server) (t : Nexus.Server) :
  matches g t ->
  (run clock (map of_event evs) g).1 = map of_response (Nexus.run clock evs t).1 /\
  matches (run clock (map of_event evs) g).2 (Nexus.run clock evs t).2.
Proof.
  revert g t. induction evs as [|ev rest IH]; intros g t Hm.
  - split; [reflexivity | exact Hm].
  - cbn [map run Nexus.run]. unfold bind, ret.
    destruct (handle_matches clock ev g t Hm) as [E Hm1].
    destruct (handle clock (of_event ev) g) as [r g1].
    destruct (Nexus.handle clock ev t) as [r' t1]. simpl in E, Hm1.
    destruct (IH g1 t1 Hm1) as [E2 Hm2].
    destruct (run clock (map of_event rest) g1) as [rs g2].
    destruct (Nexus.run clock rest t1) as [rs' t2]. simpl in *.
    split; [|exact Hm2]. rewrite E, E2, map_app. reflexivity.
Qed.

Lemma string_bodies_as_in_Nexus_witness :
  (run Run.steady (map of_event Run.warmup)
     (challenge Run.steady Run.issued Odd.number_fingerprint (boot Run.secret)).2).1 =
  map of_response
    (Nexus.run Run.steady Run.warmup (Nexus.mkServer Run.secret 1 ∅ ∅ 3)).1.
Proof.
  apply (string_bodies_as_in_Nexus Run.steady Run.warmup).
  assert (E : (challenge Run.steady Run.issued Odd.number_fingerprint (boot Run.secret)).2 =
              mkServer Run.secret 1 ∅
                {[ KNum (S754_finite false 7881299347898368 (-50)) :=
                     Nexus.decay (Nexus.mkTrust 0 1001 []) 1002 ]} 3 1)
    by (vm_compute; reflexivity).
  rewrite E. repeat split.
Defined.

End UntypedProps.
